(** * Compute-based compositor rendering: dispatch geometry, descriptor
      updates and pass sequencing

    A shallow embedding of [src/xrt/compositor/render/render_compute.c].
    Unsigned 32-bit values are integers in [Z] with the wrap-around of the C
    arithmetic written out; Vulkan handles are integers; C arrays are lists
    read with [!!] and written with [<[i:=x]>]; the Vulkan side effects
    (command recording, descriptor writes, pool allocation, mapped uniform
    memory) are fields of an explicit [world] threaded through the calls. *)

From stdpp Require Import base numbers option list gmap.

Local Open Scope Z_scope.

(** ** Unsigned 32-bit arithmetic *)

Definition UINT32_MAX : Z := 4294967295.

Definition uint32_wrap (x : Z) : Z := x `mod` 2 ^ 32.

Definition is_uint32 (x : Z) : Prop := 0 ≤ x ≤ UINT32_MAX.

(** ** Outcomes of a C call

    [AssertFailed] is a failed [assert] (the process aborts); [Undefined] is
    an access outside a C array. *)

Inductive result (A : Type) : Type :=
  | Ok (a : A)
  | AssertFailed
  | Undefined.

Arguments Ok {A} a.
Arguments AssertFailed {A}.
Arguments Undefined {A}.

#[global] Instance result_ret : MRet result := λ A a, Ok a.

#[global] Instance result_bind : MBind result := λ A B f m,
  match m with
  | Ok a => f a
  | AssertFailed => AssertFailed
  | Undefined => Undefined
  end.

#[global] Instance result_fmap : FMap result := λ A B f m,
  match m with
  | Ok a => Ok (f a)
  | AssertFailed => AssertFailed
  | Undefined => Undefined
  end.

(** [assert(c)] *)
Definition c_assert (c : bool) : result unit :=
  if c then Ok () else AssertFailed.

(** [a[i]] read from a C array. *)
Definition array_get {A} (a : list A) (i : nat) : result A :=
  match a !! i with
  | Some v => Ok v
  | None => Undefined
  end.

(** [a[i] = v] stored into a C array. *)
Definition array_set {A} (a : list A) (i : nat) (v : A) : result (list A) :=
  if decide (i < length a)%nat then Ok (<[i := v]> a) else Undefined.

(** [for (uint32_t i = start; i < start + count; ++i) body], threading the
    variables the body assigns. *)
Fixpoint for_range {St} (start count : nat) (body : nat → St → result St)
    (s : St) : result St :=
  match count with
  | O => Ok s
  | S count' => s' ← body start s; for_range (S start) count' body s'
  end.

(** [for (uint32_t i = 0; i < n; ++i) body] with [n] a [uint32_t]. *)
Definition for_upto {St} (n : Z) (body : nat → St → result St) (s : St)
  : result St :=
  for_range 0 (Z.to_nat n) body s.

(** ** Helper functions *)

(** [struct render_viewport_data]: four [uint32_t] fields. *)
Record render_viewport_data : Type := {
  x : Z;
  y : Z;
  w : Z;
  h : Z;
}.

Definition viewport_valid (v : render_viewport_data) : Prop :=
  is_uint32 v.(x) ∧ is_uint32 v.(y) ∧ is_uint32 v.(w) ∧ is_uint32 v.(h).

#[global] Instance render_viewport_data_eq_dec : EqDecision render_viewport_data.
Proof. solve_decision. Defined.

(** [(a + (b - 1)) / b] on [uint32_t]. The division is only defined in C for
    [b ≠ 0]; every caller passes [b = 8]. *)
Definition uint_divide_and_round_up (a b : Z) : Z :=
  uint32_wrap (a + uint32_wrap (b - 1)) `div` b.

Definition calc_dispatch_dims_1_view (views : render_viewport_data) : Z * Z :=
  let w := uint_divide_and_round_up views.(w) 8 in
  let h := uint_divide_and_round_up views.(h) 8 in
  (w, h).

(** [#define IMAX(a, b) ((a) > (b) ? (a) : (b))] *)
Definition IMAX (a b : Z) : Z := if bool_decide (a > b) then a else b.

Definition calc_dispatch_dims_views
    (views : list render_viewport_data) (view_count : Z) : result (Z * Z) :=
  '(w, h) ← for_upto view_count (λ i wh,
      v ← array_get views i;
      Ok (IMAX wh.1 v.(w), IMAX wh.2 v.(h))) (0, 0);
  let w := uint_divide_and_round_up w 8 in
  let h := uint_divide_and_round_up h 8 in
  Ok (w, h).

(** The largest element of a list, if it has one: what the specification
    calls the maximum of the viewport extents. *)
Fixpoint list_maximum (l : list Z) : option Z :=
  match l with
  | [] => None
  | a :: l' => Some (match list_maximum l' with
                     | Some m => Z.max a m
                     | None => a
                     end)
  end.

(** The mathematical ceiling of [a / 8]. *)
Definition ceil_div8 (a : Z) : Z := - ((- a) `div` 8).

(** ** The Vulkan interface used by the file

    Handles ([VkImage], [VkImageView], [VkSampler], [VkBuffer], [VkPipeline],
    [VkDescriptorSet], ...) are integers and [VK_NULL_HANDLE] is 0; flag
    masks carry the values of the Vulkan headers. *)

Definition VK_NULL_HANDLE : Z := 0.
Definition VK_WHOLE_SIZE : Z := 18446744073709551615.
Definition VK_REMAINING_MIP_LEVELS : Z := UINT32_MAX.
Definition VK_REMAINING_ARRAY_LAYERS : Z := UINT32_MAX.
Definition VK_QUEUE_FAMILY_IGNORED : Z := UINT32_MAX.
Definition VK_IMAGE_ASPECT_COLOR_BIT : Z := 1.
Definition VK_ACCESS_SHADER_WRITE_BIT : Z := 64.
Definition VK_ACCESS_MEMORY_READ_BIT : Z := 32768.
Definition VK_PIPELINE_STAGE_TOP_OF_PIPE_BIT : Z := 1.
Definition VK_PIPELINE_STAGE_COMPUTE_SHADER_BIT : Z := 2048.

Inductive VkResult : Type :=
  | VK_SUCCESS
  | VK_ERROR_OUT_OF_POOL_MEMORY.

Inductive VkImageLayout : Type :=
  | VK_IMAGE_LAYOUT_UNDEFINED
  | VK_IMAGE_LAYOUT_GENERAL
  | VK_IMAGE_LAYOUT_SHADER_READ_ONLY_OPTIMAL
  | VK_IMAGE_LAYOUT_PRESENT_SRC_KHR.

Inductive VkDescriptorType : Type :=
  | VK_DESCRIPTOR_TYPE_COMBINED_IMAGE_SAMPLER
  | VK_DESCRIPTOR_TYPE_STORAGE_IMAGE
  | VK_DESCRIPTOR_TYPE_UNIFORM_BUFFER.

Inductive VkPipelineBindPoint : Type :=
  | VK_PIPELINE_BIND_POINT_GRAPHICS
  | VK_PIPELINE_BIND_POINT_COMPUTE.

#[global] Instance VkResult_eq_dec : EqDecision VkResult.
Proof. solve_decision. Defined.
#[global] Instance VkImageLayout_eq_dec : EqDecision VkImageLayout.
Proof. solve_decision. Defined.
#[global] Instance VkDescriptorType_eq_dec : EqDecision VkDescriptorType.
Proof. solve_decision. Defined.
#[global] Instance VkPipelineBindPoint_eq_dec : EqDecision VkPipelineBindPoint.
Proof. solve_decision. Defined.

Record VkImageSubresourceRange : Type := {
  aspectMask : Z;
  baseMipLevel : Z;
  levelCount : Z;
  baseArrayLayer : Z;
  layerCount : Z;
}.

Record VkImageMemoryBarrier : Type := {
  srcAccessMask : Z;
  dstAccessMask : Z;
  oldLayout : VkImageLayout;
  newLayout : VkImageLayout;
  srcQueueFamilyIndex : Z;
  dstQueueFamilyIndex : Z;
  image : Z;
  subresourceRange : VkImageSubresourceRange;
}.

Record VkDescriptorImageInfo : Type := {
  sampler : Z;
  imageView : Z;
  imageLayout : VkImageLayout;
}.

Record VkDescriptorBufferInfo : Type := {
  buffer : Z;
  offset : Z;
  range : Z;
}.

(** One element of the array handed to [vkUpdateDescriptorSets]. The two
    pointers are the arrays they point to; an entry of [pImageInfo] that the
    caller never stored to is [None]. *)
Record VkWriteDescriptorSet : Type := {
  dstSet : Z;
  dstBinding : Z;
  dstArrayElement : Z;
  descriptorCount : Z;
  descriptorType : VkDescriptorType;
  pImageInfo : list (option VkDescriptorImageInfo);
  pBufferInfo : list VkDescriptorBufferInfo;
}.

#[global] Instance VkImageSubresourceRange_eq_dec : EqDecision VkImageSubresourceRange.
Proof. solve_decision. Defined.
#[global] Instance VkImageMemoryBarrier_eq_dec : EqDecision VkImageMemoryBarrier.
Proof. solve_decision. Defined.
#[global] Instance VkDescriptorImageInfo_eq_dec : EqDecision VkDescriptorImageInfo.
Proof. solve_decision. Defined.
#[global] Instance VkDescriptorBufferInfo_eq_dec : EqDecision VkDescriptorBufferInfo.
Proof. solve_decision. Defined.

(** What a slot of a descriptor set holds once it has been written. *)
Inductive descriptor : Type :=
  | ImageDescriptor (type : VkDescriptorType) (info : VkDescriptorImageInfo)
  | BufferDescriptor (type : VkDescriptorType) (info : VkDescriptorBufferInfo).

#[global] Instance descriptor_eq_dec : EqDecision descriptor.
Proof. solve_decision. Defined.

(** A slot of a descriptor set: the set, the binding number and the array
    element inside the binding. *)
Definition slot : Type := Z * Z * Z.

(** The commands this file records into a command buffer. *)
Inductive vk_command : Type :=
  | CmdImageBarrierGpuLocked (image src_access_mask dst_access_mask : Z)
      (old_layout new_layout : VkImageLayout)
      (subresource_range : VkImageSubresourceRange)
  | CmdBindPipeline (pipelineBindPoint : VkPipelineBindPoint) (pipeline : Z)
  | CmdBindDescriptorSets (pipelineBindPoint : VkPipelineBindPoint)
      (layout firstSet : Z) (pDescriptorSets pDynamicOffsets : list Z)
  | CmdDispatch (groupCountX groupCountY groupCountZ : Z)
  | CmdPipelineBarrier (srcStageMask dstStageMask dependencyFlags : Z)
      (memoryBarrierCount bufferMemoryBarrierCount : Z)
      (pImageMemoryBarriers : list VkImageMemoryBarrier).

#[global] Instance vk_command_eq_dec : EqDecision vk_command.
Proof. solve_decision. Defined.

(** A descriptor pool: how many sets it can hold and the sets allocated
    from it that have not been returned. *)
Record descriptor_pool : Type := {
  max_sets : nat;
  allocated_sets : list Z;
}.

(** ** What the file takes from its headers

    [render/render_interface.h], [xrt/xrt_defines.h] and the math library are
    not part of the sources at hand: the array bounds, the opaque payload
    types (all of them aggregates of floats) and the two matrix functions are
    parameters of the development. *)

Class RenderInterface : Type := {
  XRT_MAX_VIEWS : nat;
  RENDER_MAX_IMAGES_SIZE : nat;
  RENDER_MAX_LAYER_RUNS_COUNT : nat;
  xrt_pose : Type;
  xrt_fov : Type;
  xrt_matrix_4x4 : Type;
  xrt_normalized_rect : Type;
  (** writes the time warp matrix of a view to its last argument *)
  render_calc_time_warp_matrix : xrt_pose → xrt_fov → xrt_pose → xrt_matrix_4x4;
  (** writes the identity matrix to its argument *)
  math_matrix_4x4_identity : xrt_matrix_4x4;
}.

(** [struct render_compute_distortion_ubo_data]: four arrays of
    [XRT_MAX_VIEWS] elements. *)
Module ubo.
Record render_compute_distortion_ubo_data `{RenderInterface} : Type := {
  views : list render_viewport_data;
  pre_transforms : list xrt_normalized_rect;
  transforms : list xrt_matrix_4x4;
  post_transforms : list xrt_normalized_rect;
}.
End ubo.

Abbreviation render_compute_distortion_ubo_data := ubo.render_compute_distortion_ubo_data.

Section Model.
Context `{RenderInterface}.

(** [struct render_resources], the members this file reads; nested members
    such as [r->compute.layer.pipeline_layout] are spelled with underscores.
    The buffers behind [cmd] and the [mapped] pointers live in the
    [world]. *)
Record render_resources : Type := {
  view_count : Z;
  cmd : Z;
  samplers_clamp_to_edge : Z;
  samplers_mock : Z;
  mock_color_image_view : Z;
  distortion_image_views : list Z;
  distortion_uv_to_tanangle : list xrt_normalized_rect;
  compute_descriptor_pool : Z;
  compute_src_binding : Z;
  compute_distortion_binding : Z;
  compute_target_binding : Z;
  compute_ubo_binding : Z;
  compute_layer_descriptor_set_layout : Z;
  compute_layer_pipeline_layout : Z;
  compute_layer_non_timewarp_pipeline : Z;
  compute_layer_timewarp_pipeline : Z;
  compute_distortion_descriptor_set_layout : Z;
  compute_distortion_pipeline_layout : Z;
  compute_distortion_pipeline : Z;
  compute_distortion_timewarp_pipeline : Z;
  compute_distortion_ubo_buffer : Z;
  compute_distortion_ubo_mapped : Z;
  compute_clear_pipeline : Z;
  compute_clear_ubo_buffer : Z;
  compute_clear_ubo_mapped : Z;
}.

(** [struct render_compute]; [r] is [None] for the [NULL] pointer. *)
Record render_compute : Type := {
  r : option render_resources;
  layer_descriptor_sets : list Z;
  shared_descriptor_set : Z;
}.

(** The state behind the Vulkan device: the commands recorded so far into
    each command buffer, the contents of the descriptor sets, the arrays
    given to each [vkUpdateDescriptorSets] call so far, the descriptor
    pools, the next unused handle, and the mapped uniform memory by
    address. *)
Record world : Type := {
  command_buffers : gmap Z (list vk_command);
  descriptors : gmap slot descriptor;
  descriptor_updates : list (list VkWriteDescriptorSet);
  descriptor_pools : gmap Z descriptor_pool;
  next_handle : Z;
  mapped_memory : gmap Z render_compute_distortion_ubo_data;
}.

Definition set_command_buffers (c : gmap Z (list vk_command)) (σ : world) : world :=
  {| command_buffers := c; descriptors := σ.(descriptors);
     descriptor_updates := σ.(descriptor_updates);
     descriptor_pools := σ.(descriptor_pools);
     next_handle := σ.(next_handle); mapped_memory := σ.(mapped_memory) |}.

Definition set_descriptors (d : gmap slot descriptor) (σ : world) : world :=
  {| command_buffers := σ.(command_buffers); descriptors := d;
     descriptor_updates := σ.(descriptor_updates);
     descriptor_pools := σ.(descriptor_pools);
     next_handle := σ.(next_handle); mapped_memory := σ.(mapped_memory) |}.

Definition set_descriptor_updates (u : list (list VkWriteDescriptorSet))
    (σ : world) : world :=
  {| command_buffers := σ.(command_buffers); descriptors := σ.(descriptors);
     descriptor_updates := u;
     descriptor_pools := σ.(descriptor_pools);
     next_handle := σ.(next_handle); mapped_memory := σ.(mapped_memory) |}.

Definition set_descriptor_pools (p : gmap Z descriptor_pool) (σ : world) : world :=
  {| command_buffers := σ.(command_buffers); descriptors := σ.(descriptors);
     descriptor_updates := σ.(descriptor_updates);
     descriptor_pools := p;
     next_handle := σ.(next_handle); mapped_memory := σ.(mapped_memory) |}.

Definition set_next_handle (n : Z) (σ : world) : world :=
  {| command_buffers := σ.(command_buffers); descriptors := σ.(descriptors);
     descriptor_updates := σ.(descriptor_updates);
     descriptor_pools := σ.(descriptor_pools);
     next_handle := n; mapped_memory := σ.(mapped_memory) |}.

Definition set_mapped_memory (m : gmap Z render_compute_distortion_ubo_data)
    (σ : world) : world :=
  {| command_buffers := σ.(command_buffers); descriptors := σ.(descriptors);
     descriptor_updates := σ.(descriptor_updates);
     descriptor_pools := σ.(descriptor_pools);
     next_handle := σ.(next_handle); mapped_memory := m |}.

(** *** Command recording *)

Definition recorded (cmd : Z) (σ : world) : list vk_command :=
  default [] (σ.(command_buffers) !! cmd).

Definition record (cmd : Z) (c : vk_command) (σ : world) : world :=
  set_command_buffers (<[cmd := recorded cmd σ ++ [c]]> σ.(command_buffers)) σ.

Definition vkCmdBindPipeline (commandBuffer : Z)
    (pipelineBindPoint : VkPipelineBindPoint) (pipeline : Z) : world → world :=
  record commandBuffer (CmdBindPipeline pipelineBindPoint pipeline).

Definition vkCmdBindDescriptorSets (commandBuffer : Z)
    (pipelineBindPoint : VkPipelineBindPoint) (layout firstSet : Z)
    (pDescriptorSets pDynamicOffsets : list Z) : world → world :=
  record commandBuffer
    (CmdBindDescriptorSets pipelineBindPoint layout firstSet
       pDescriptorSets pDynamicOffsets).

Definition vkCmdDispatch (commandBuffer : Z)
    (groupCountX groupCountY groupCountZ : Z) : world → world :=
  record commandBuffer (CmdDispatch groupCountX groupCountY groupCountZ).

Definition vkCmdPipelineBarrier (commandBuffer : Z)
    (srcStageMask dstStageMask dependencyFlags : Z)
    (memoryBarrierCount bufferMemoryBarrierCount : Z)
    (pImageMemoryBarriers : list VkImageMemoryBarrier) : world → world :=
  record commandBuffer
    (CmdPipelineBarrier srcStageMask dstStageMask dependencyFlags
       memoryBarrierCount bufferMemoryBarrierCount pImageMemoryBarriers).

(** Modelled from the spec: [vk_cmd_image_barrier_gpu_locked] of the Vulkan
    helper library, which is not among the sources; it inserts one image
    barrier for [image] with the given access masks and layouts into the
    command buffer. *)
Definition vk_cmd_image_barrier_gpu_locked (cmd_buffer : Z)
    (image src_access_mask dst_access_mask : Z)
    (old_layout new_layout : VkImageLayout)
    (subresource_range : VkImageSubresourceRange) : world → world :=
  record cmd_buffer
    (CmdImageBarrierGpuLocked image src_access_mask dst_access_mask
       old_layout new_layout subresource_range).

(** *** Descriptor writes *)

(** The first [n] elements of the array behind [pImageInfo]; reading past
    its end or reading an element that was never stored is undefined. *)
Fixpoint read_image_infos (a : list (option VkDescriptorImageInfo)) (n : nat)
    {struct n} : result (list VkDescriptorImageInfo) :=
  match n with
  | O => Ok []
  | S n' =>
      match a with
      | Some info :: a' => (info ::.) <$> read_image_infos a' n'
      | _ => Undefined
      end
  end.

(** The descriptors one element of [pDescriptorWrites] stores, in array
    order: image infos for the image types, buffer infos for a uniform
    buffer. *)
Definition write_contents (write : VkWriteDescriptorSet) : result (list descriptor) :=
  let n := Z.to_nat write.(descriptorCount) in
  match write.(descriptorType) with
  | VK_DESCRIPTOR_TYPE_UNIFORM_BUFFER =>
      if decide (n ≤ length write.(pBufferInfo))%nat
      then Ok (BufferDescriptor write.(descriptorType) <$> take n write.(pBufferInfo))
      else Undefined
  | _ =>
      (fmap (M := list) (ImageDescriptor write.(descriptorType))) <$>
        read_image_infos write.(pImageInfo) n
  end.

(** The slots one write names: consecutive array elements of one binding,
    starting at [dstArrayElement]. *)
Definition write_slots (write : VkWriteDescriptorSet) (ds : list descriptor)
  : list (slot * descriptor) :=
  imap (λ j d, ((write.(dstSet), write.(dstBinding),
                 write.(dstArrayElement) + Z.of_nat j), d)) ds.

Definition store_descriptors (kvs : list (slot * descriptor))
    (d : gmap slot descriptor) : gmap slot descriptor :=
  foldl (λ d kv, <[kv.1 := kv.2]> d) d kvs.

Fixpoint apply_writes (writes : list VkWriteDescriptorSet)
    (d : gmap slot descriptor) : result (gmap slot descriptor) :=
  match writes with
  | [] => Ok d
  | write :: writes' =>
      ds ← write_contents write;
      apply_writes writes' (store_descriptors (write_slots write ds) d)
  end.

(** [vkUpdateDescriptorSets(device, descriptorWriteCount, pDescriptorWrites,
    0, NULL)]: the writes are performed in array order, as one call. *)
Definition vkUpdateDescriptorSets (pDescriptorWrites : list VkWriteDescriptorSet)
    (σ : world) : result world :=
  d ← apply_writes pDescriptorWrites σ.(descriptors);
  Ok (set_descriptor_updates (σ.(descriptor_updates) ++ [pDescriptorWrites])
        (set_descriptors d σ)).

(** *** Descriptor pools *)

(** Modelled from the spec: [vk_create_descriptor_set] of the Vulkan helper
    library, which is not among the sources; it allocates one descriptor
    set from the pool and stores it through its last argument, or fails
    when the pool cannot provide one and stores nothing. The third
    component of the result is the value of the out-argument after the
    call. *)
Definition vk_create_descriptor_set (descriptor_pool descriptor_layout : Z)
    (out_descriptor_set : Z) (σ : world) : result (VkResult * Z * world) :=
  match σ.(descriptor_pools) !! descriptor_pool with
  | None => Undefined
  | Some pool =>
      if decide (length pool.(allocated_sets) < pool.(max_sets))%nat then
        let descriptor_set := σ.(next_handle) in
        let pool' := {| max_sets := pool.(max_sets);
                        allocated_sets := descriptor_set :: pool.(allocated_sets) |} in
        Ok (VK_SUCCESS, descriptor_set,
            set_next_handle (descriptor_set + 1)
              (set_descriptor_pools
                 (<[descriptor_pool := pool']> σ.(descriptor_pools)) σ))
      else Ok (VK_ERROR_OUT_OF_POOL_MEMORY, out_descriptor_set, σ)
  end.

(** [vkResetDescriptorPool(device, descriptorPool, 0)]: every set of the
    pool is returned to it and its contents are gone. *)
Definition vkResetDescriptorPool (descriptorPool : Z) (σ : world) : result world :=
  match σ.(descriptor_pools) !! descriptorPool with
  | None => Undefined
  | Some pool =>
      let pool' := {| max_sets := pool.(max_sets); allocated_sets := [] |} in
      Ok (set_descriptors
            (filter (λ kv, kv.1.1.1 ∉ pool.(allocated_sets)) σ.(descriptors))
            (set_descriptor_pools
               (<[descriptorPool := pool']> σ.(descriptor_pools)) σ))
  end.

(** *** Mapped uniform memory *)

Definition load_ubo (mapped : Z) (σ : world)
  : result render_compute_distortion_ubo_data :=
  match σ.(mapped_memory) !! mapped with
  | Some data => Ok data
  | None => Undefined
  end.

Definition store_ubo (mapped : Z) (data : render_compute_distortion_ubo_data)
    (σ : world) : world :=
  set_mapped_memory (<[mapped := data]> σ.(mapped_memory)) σ.

(** [a[i]] read from a local array that may hold elements never stored. *)
Definition uarray_get {A} (a : list (option A)) (i : nat) : result A :=
  match a !! i with
  | Some (Some v) => Ok v
  | _ => Undefined
  end.

(** The index [3 * i + k] computed on [uint32_t]. *)
Definition index3 (i : nat) (k : Z) : nat :=
  Z.to_nat (uint32_wrap (uint32_wrap (3 * Z.of_nat i) + k)).

(** *** Vulkan helpers *)

Definition update_compute_layer_descriptor_set
    (src_binding : Z) (src_samplers src_image_views : list (option Z))
    (image_count : Z) (target_binding target_image_view : Z)
    (ubo_binding ubo_buffer ubo_size : Z) (descriptor_set : Z)
    (σ : world) : result world :=
  src_image_info ← for_upto image_count (λ i src_image_info,
      s ← uarray_get src_samplers i;
      v ← uarray_get src_image_views i;
      array_set src_image_info i
        (Some {| sampler := s; imageView := v;
                 imageLayout := VK_IMAGE_LAYOUT_SHADER_READ_ONLY_OPTIMAL |}))
    (replicate RENDER_MAX_IMAGES_SIZE None);
  let target_image_info :=
    {| sampler := VK_NULL_HANDLE; imageView := target_image_view;
       imageLayout := VK_IMAGE_LAYOUT_GENERAL |} in
  let buffer_info :=
    {| buffer := ubo_buffer; offset := 0; range := ubo_size |} in
  let write_descriptor_sets := [
    {| dstSet := descriptor_set; dstBinding := src_binding;
       dstArrayElement := 0; descriptorCount := image_count;
       descriptorType := VK_DESCRIPTOR_TYPE_COMBINED_IMAGE_SAMPLER;
       pImageInfo := src_image_info; pBufferInfo := [] |};
    {| dstSet := descriptor_set; dstBinding := target_binding;
       dstArrayElement := 0; descriptorCount := 1;
       descriptorType := VK_DESCRIPTOR_TYPE_STORAGE_IMAGE;
       pImageInfo := [Some target_image_info]; pBufferInfo := [] |};
    {| dstSet := descriptor_set; dstBinding := ubo_binding;
       dstArrayElement := 0; descriptorCount := 1;
       descriptorType := VK_DESCRIPTOR_TYPE_UNIFORM_BUFFER;
       pImageInfo := []; pBufferInfo := [buffer_info] |}
  ] in
  vkUpdateDescriptorSets write_descriptor_sets σ.

Definition update_compute_shared_descriptor_set
    (src_binding : Z) (src_samplers src_image_views : list (option Z))
    (distortion_binding : Z)
    (distortion_samplers distortion_image_views : list (option Z))
    (target_binding target_image_view : Z)
    (ubo_binding ubo_buffer ubo_size : Z) (descriptor_set : Z)
    (view_count : Z) (σ : world) : result world :=
  src_image_info ← for_upto view_count (λ i src_image_info,
      s ← uarray_get src_samplers i;
      v ← uarray_get src_image_views i;
      array_set src_image_info i
        (Some {| sampler := s; imageView := v;
                 imageLayout := VK_IMAGE_LAYOUT_SHADER_READ_ONLY_OPTIMAL |}))
    (replicate XRT_MAX_VIEWS None);
  distortion_image_info ← for_upto (uint32_wrap (3 * view_count))
    (λ i distortion_image_info,
      s ← uarray_get distortion_samplers i;
      v ← uarray_get distortion_image_views i;
      array_set distortion_image_info i
        (Some {| sampler := s; imageView := v;
                 imageLayout := VK_IMAGE_LAYOUT_SHADER_READ_ONLY_OPTIMAL |}))
    (replicate (3 * XRT_MAX_VIEWS) None);
  let target_image_info :=
    {| sampler := VK_NULL_HANDLE; imageView := target_image_view;
       imageLayout := VK_IMAGE_LAYOUT_GENERAL |} in
  let buffer_info :=
    {| buffer := ubo_buffer; offset := 0; range := ubo_size |} in
  let write_descriptor_sets := [
    {| dstSet := descriptor_set; dstBinding := src_binding;
       dstArrayElement := 0; descriptorCount := view_count;
       descriptorType := VK_DESCRIPTOR_TYPE_COMBINED_IMAGE_SAMPLER;
       pImageInfo := src_image_info; pBufferInfo := [] |};
    {| dstSet := descriptor_set; dstBinding := distortion_binding;
       dstArrayElement := 0; descriptorCount := uint32_wrap (3 * view_count);
       descriptorType := VK_DESCRIPTOR_TYPE_COMBINED_IMAGE_SAMPLER;
       pImageInfo := distortion_image_info; pBufferInfo := [] |};
    {| dstSet := descriptor_set; dstBinding := target_binding;
       dstArrayElement := 0; descriptorCount := 1;
       descriptorType := VK_DESCRIPTOR_TYPE_STORAGE_IMAGE;
       pImageInfo := [Some target_image_info]; pBufferInfo := [] |};
    {| dstSet := descriptor_set; dstBinding := ubo_binding;
       dstArrayElement := 0; descriptorCount := 1;
       descriptorType := VK_DESCRIPTOR_TYPE_UNIFORM_BUFFER;
       pImageInfo := []; pBufferInfo := [buffer_info] |}
  ] in
  vkUpdateDescriptorSets write_descriptor_sets σ.

Definition update_compute_descriptor_set_target
    (target_binding target_image_view : Z)
    (ubo_binding ubo_buffer ubo_size : Z) (descriptor_set : Z)
    (view_count : Z) (σ : world) : result world :=
  let target_image_info :=
    {| sampler := VK_NULL_HANDLE; imageView := target_image_view;
       imageLayout := VK_IMAGE_LAYOUT_GENERAL |} in
  let buffer_info :=
    {| buffer := ubo_buffer; offset := 0; range := ubo_size |} in
  let write_descriptor_sets := [
    {| dstSet := descriptor_set; dstBinding := target_binding;
       dstArrayElement := 0; descriptorCount := 1;
       descriptorType := VK_DESCRIPTOR_TYPE_STORAGE_IMAGE;
       pImageInfo := [Some target_image_info]; pBufferInfo := [] |};
    {| dstSet := descriptor_set; dstBinding := ubo_binding;
       dstArrayElement := 0; descriptorCount := 1;
       descriptorType := VK_DESCRIPTOR_TYPE_UNIFORM_BUFFER;
       pImageInfo := []; pBufferInfo := [buffer_info] |}
  ] in
  vkUpdateDescriptorSets write_descriptor_sets σ.

(** *** 'Exported' functions

    The [assert]s are compiled in; the [vk_bundle] of function pointers
    that the C code passes along is the [world] itself. The macros
    [VK_CHK_WITH_RET] (log and return the given value unless the result is
    [VK_SUCCESS]) and [VK_NAME_DESCRIPTOR_SET] (attach a debug name) come
    from the helper headers; the first is written out below and the second
    changes nothing that is modelled. *)

Definition set_r (v : option render_resources) (render : render_compute)
  : render_compute :=
  {| r := v; layer_descriptor_sets := render.(layer_descriptor_sets);
     shared_descriptor_set := render.(shared_descriptor_set) |}.

Definition set_layer_descriptor_sets (v : list Z) (render : render_compute)
  : render_compute :=
  {| r := render.(r); layer_descriptor_sets := v;
     shared_descriptor_set := render.(shared_descriptor_set) |}.

Definition set_shared_descriptor_set (v : Z) (render : render_compute)
  : render_compute :=
  {| r := render.(r); layer_descriptor_sets := render.(layer_descriptor_sets);
     shared_descriptor_set := v |}.

(** [assert(render->r == NULL)] *)
Definition assert_detached (render : render_compute) : result unit :=
  match render.(r) with
  | None => Ok ()
  | Some _ => AssertFailed
  end.

(** [assert(render->r != NULL)], followed by [r = render->r] *)
Definition assert_attached (render : render_compute) : result render_resources :=
  match render.(r) with
  | Some r => Ok r
  | None => AssertFailed
  end.

(** The loop of [render_compute_init] from index [i] on, [count] rounds;
    it is left with the failing result as soon as an allocation fails. *)
Fixpoint init_layer_descriptor_sets (r : render_resources) (i count : nat)
    (render : render_compute) (σ : world)
  : result (VkResult * render_compute * world) :=
  match count with
  | O => Ok (VK_SUCCESS, render, σ)
  | S count' =>
      out ← array_get render.(layer_descriptor_sets) i;
      '(ret, set, σ) ← vk_create_descriptor_set
        r.(compute_descriptor_pool)
        r.(compute_layer_descriptor_set_layout)
        out σ;
      sets ← array_set render.(layer_descriptor_sets) i set;
      let render := set_layer_descriptor_sets sets render in
      if decide (ret = VK_SUCCESS)
      then init_layer_descriptor_sets r (S i) count' render σ
      else Ok (ret, render, σ)
  end.

Definition render_compute_init (render : render_compute) (r : render_resources)
    (σ : world) : result (bool * render_compute * world) :=
  _ ← assert_detached render;
  let render := set_r (Some r) render in
  '(ret, render, σ) ← init_layer_descriptor_sets r 0 RENDER_MAX_LAYER_RUNS_COUNT
                        render σ;
  if decide (ret = VK_SUCCESS) then
    '(ret, set, σ) ← vk_create_descriptor_set
      r.(compute_descriptor_pool)
      r.(compute_distortion_descriptor_set_layout)
      render.(shared_descriptor_set) σ;
    let render := set_shared_descriptor_set set render in
    if decide (ret = VK_SUCCESS) then Ok (true, render, σ)
    else Ok (false, render, σ)
  else Ok (false, render, σ).

Definition render_compute_fini (render : render_compute) (σ : world)
  : result (render_compute * world) :=
  r ← assert_attached render;
  let render := set_shared_descriptor_set VK_NULL_HANDLE render in
  sets ← for_range 0 (length render.(layer_descriptor_sets))
    (λ i sets, array_set sets i VK_NULL_HANDLE) render.(layer_descriptor_sets);
  let render := set_layer_descriptor_sets sets render in
  σ ← vkResetDescriptorPool r.(compute_descriptor_pool) σ;
  Ok (set_r None render, σ).

Definition render_compute_layers (render : render_compute)
    (descriptor_set ubo : Z) (src_samplers src_image_views : list Z)
    (num_srcs : Z) (target_image_view : Z) (view : render_viewport_data)
    (do_timewarp : bool) (σ : world) : result world :=
  r ← assert_attached render;
  σ ← update_compute_layer_descriptor_set
    r.(compute_src_binding)
    (Some <$> src_samplers)
    (Some <$> src_image_views)
    num_srcs
    r.(compute_target_binding)
    target_image_view
    r.(compute_ubo_binding)
    ubo
    VK_WHOLE_SIZE
    descriptor_set σ;
  let pipeline :=
    if do_timewarp then r.(compute_layer_timewarp_pipeline)
    else r.(compute_layer_non_timewarp_pipeline) in
  let σ := vkCmdBindPipeline r.(cmd) VK_PIPELINE_BIND_POINT_COMPUTE pipeline σ in
  let σ := vkCmdBindDescriptorSets r.(cmd) VK_PIPELINE_BIND_POINT_COMPUTE
             r.(compute_layer_pipeline_layout) 0 [descriptor_set] [] σ in
  let '(w, h) := calc_dispatch_dims_1_view view in
  _ ← c_assert (bool_decide (w ≠ 0) && bool_decide (h ≠ 0));
  Ok (vkCmdDispatch r.(cmd) w h 1 σ).

(** The [VkImageSubresourceRange] every pass builds. *)
Definition whole_color_image : VkImageSubresourceRange :=
  {| aspectMask := VK_IMAGE_ASPECT_COLOR_BIT;
     baseMipLevel := 0;
     levelCount := VK_REMAINING_MIP_LEVELS;
     baseArrayLayer := 0;
     layerCount := VK_REMAINING_ARRAY_LAYERS |}.

(** The loop storing one sampler three times per view into the local
    array [distortion_samplers[3 * XRT_MAX_VIEWS]]. *)
Definition fill_distortion_samplers (view_count : Z) (sampler : Z)
  : result (list (option Z)) :=
  for_upto view_count (λ i distortion_samplers,
      distortion_samplers ← array_set distortion_samplers (index3 i 0) (Some sampler);
      distortion_samplers ← array_set distortion_samplers (index3 i 1) (Some sampler);
      array_set distortion_samplers (index3 i 2) (Some sampler))
    (replicate (3 * XRT_MAX_VIEWS) None).

(** The [VkImageMemoryBarrier] recorded after the dispatch. *)
Definition present_barrier (target_image : Z)
    (subresource_range : VkImageSubresourceRange) : VkImageMemoryBarrier :=
  {| srcAccessMask := VK_ACCESS_SHADER_WRITE_BIT;
     dstAccessMask := VK_ACCESS_MEMORY_READ_BIT;
     oldLayout := VK_IMAGE_LAYOUT_GENERAL;
     newLayout := VK_IMAGE_LAYOUT_PRESENT_SRC_KHR;
     srcQueueFamilyIndex := VK_QUEUE_FAMILY_IGNORED;
     dstQueueFamilyIndex := VK_QUEUE_FAMILY_IGNORED;
     image := target_image;
     subresourceRange := subresource_range |}.

Definition render_compute_projection_timewarp (render : render_compute)
    (src_samplers src_image_views : list Z)
    (src_norm_rects : list xrt_normalized_rect)
    (src_poses : list xrt_pose) (src_fovs : list xrt_fov)
    (new_poses : list xrt_pose)
    (target_image target_image_view : Z)
    (views : list render_viewport_data) (σ : world) : result world :=
  r ← assert_attached render;
  time_warp_matrix ← for_upto r.(view_count) (λ i time_warp_matrix,
      src_pose ← array_get src_poses i;
      src_fov ← array_get src_fovs i;
      new_pose ← array_get new_poses i;
      array_set time_warp_matrix i
        (Some (render_calc_time_warp_matrix src_pose src_fov new_pose)))
    (replicate XRT_MAX_VIEWS None);
  data ← load_ubo r.(compute_distortion_ubo_mapped) σ;
  data ← for_upto r.(view_count) (λ i data,
      view ← array_get views i;
      data_views ← array_set data.(ubo.views) i view;
      pre_transform ← array_get r.(distortion_uv_to_tanangle) i;
      data_pre_transforms ← array_set data.(ubo.pre_transforms) i pre_transform;
      transform ← uarray_get time_warp_matrix i;
      data_transforms ← array_set data.(ubo.transforms) i transform;
      post_transform ← array_get src_norm_rects i;
      data_post_transforms ← array_set data.(ubo.post_transforms) i post_transform;
      Ok {| ubo.views := data_views;
            ubo.pre_transforms := data_pre_transforms;
            ubo.transforms := data_transforms;
            ubo.post_transforms := data_post_transforms |}) data;
  let σ := store_ubo r.(compute_distortion_ubo_mapped) data σ in
  let subresource_range := whole_color_image in
  let σ := vk_cmd_image_barrier_gpu_locked r.(cmd) target_image
             0 VK_ACCESS_SHADER_WRITE_BIT
             VK_IMAGE_LAYOUT_UNDEFINED VK_IMAGE_LAYOUT_GENERAL
             subresource_range σ in
  let sampler := r.(samplers_clamp_to_edge) in
  distortion_samplers ← fill_distortion_samplers r.(view_count) sampler;
  σ ← update_compute_shared_descriptor_set
    r.(compute_src_binding)
    (Some <$> src_samplers)
    (Some <$> src_image_views)
    r.(compute_distortion_binding)
    distortion_samplers
    (Some <$> r.(distortion_image_views))
    r.(compute_target_binding)
    target_image_view
    r.(compute_ubo_binding)
    r.(compute_distortion_ubo_buffer)
    VK_WHOLE_SIZE
    render.(shared_descriptor_set)
    r.(view_count) σ;
  let σ := vkCmdBindPipeline r.(cmd) VK_PIPELINE_BIND_POINT_COMPUTE
             r.(compute_distortion_timewarp_pipeline) σ in
  let σ := vkCmdBindDescriptorSets r.(cmd) VK_PIPELINE_BIND_POINT_COMPUTE
             r.(compute_distortion_pipeline_layout) 0
             [render.(shared_descriptor_set)] [] σ in
  '(w, h) ← calc_dispatch_dims_views views r.(view_count);
  _ ← c_assert (bool_decide (w ≠ 0) && bool_decide (h ≠ 0));
  let σ := vkCmdDispatch r.(cmd) w h 2 σ in
  let memoryBarrier := present_barrier target_image subresource_range in
  Ok (vkCmdPipelineBarrier r.(cmd)
        VK_PIPELINE_STAGE_COMPUTE_SHADER_BIT VK_PIPELINE_STAGE_TOP_OF_PIPE_BIT
        0 0 0 [memoryBarrier] σ).

Definition render_compute_projection (render : render_compute)
    (src_samplers src_image_views : list Z)
    (src_norm_rects : list xrt_normalized_rect)
    (target_image target_image_view : Z)
    (views : list render_viewport_data) (σ : world) : result world :=
  r ← assert_attached render;
  data ← load_ubo r.(compute_distortion_ubo_mapped) σ;
  data ← for_upto r.(view_count) (λ i data,
      view ← array_get views i;
      data_views ← array_set data.(ubo.views) i view;
      post_transform ← array_get src_norm_rects i;
      data_post_transforms ← array_set data.(ubo.post_transforms) i post_transform;
      Ok {| ubo.views := data_views;
            ubo.pre_transforms := data.(ubo.pre_transforms);
            ubo.transforms := data.(ubo.transforms);
            ubo.post_transforms := data_post_transforms |}) data;
  let σ := store_ubo r.(compute_distortion_ubo_mapped) data σ in
  let subresource_range := whole_color_image in
  let σ := vk_cmd_image_barrier_gpu_locked r.(cmd) target_image
             0 VK_ACCESS_SHADER_WRITE_BIT
             VK_IMAGE_LAYOUT_UNDEFINED VK_IMAGE_LAYOUT_GENERAL
             subresource_range σ in
  let sampler := r.(samplers_clamp_to_edge) in
  distortion_samplers ← fill_distortion_samplers r.(view_count) sampler;
  σ ← update_compute_shared_descriptor_set
    r.(compute_src_binding)
    (Some <$> src_samplers)
    (Some <$> src_image_views)
    r.(compute_distortion_binding)
    distortion_samplers
    (Some <$> r.(distortion_image_views))
    r.(compute_target_binding)
    target_image_view
    r.(compute_ubo_binding)
    r.(compute_distortion_ubo_buffer)
    VK_WHOLE_SIZE
    render.(shared_descriptor_set)
    r.(view_count) σ;
  let σ := vkCmdBindPipeline r.(cmd) VK_PIPELINE_BIND_POINT_COMPUTE
             r.(compute_distortion_pipeline) σ in
  let σ := vkCmdBindDescriptorSets r.(cmd) VK_PIPELINE_BIND_POINT_COMPUTE
             r.(compute_distortion_pipeline_layout) 0
             [render.(shared_descriptor_set)] [] σ in
  '(w, h) ← calc_dispatch_dims_views views r.(view_count);
  _ ← c_assert (bool_decide (w ≠ 0) && bool_decide (h ≠ 0));
  let σ := vkCmdDispatch r.(cmd) w h 2 σ in
  let memoryBarrier := present_barrier target_image subresource_range in
  Ok (vkCmdPipelineBarrier r.(cmd)
        VK_PIPELINE_STAGE_COMPUTE_SHADER_BIT VK_PIPELINE_STAGE_TOP_OF_PIPE_BIT
        0 0 0 [memoryBarrier] σ).

(** The loop of [render_compute_clear] filling its three local arrays. *)
Definition fill_clear_arrays (view_count : Z) (sampler image_view : Z)
  : result (list (option Z) * list (option Z) * list (option Z)) :=
  for_upto view_count (λ i '(src_samplers, src_image_views, distortion_samplers),
      src_samplers ← array_set src_samplers i (Some sampler);
      src_image_views ← array_set src_image_views i (Some image_view);
      distortion_samplers ← array_set distortion_samplers (index3 i 0) (Some sampler);
      distortion_samplers ← array_set distortion_samplers (index3 i 1) (Some sampler);
      distortion_samplers ← array_set distortion_samplers (index3 i 2) (Some sampler);
      Ok (src_samplers, src_image_views, distortion_samplers))
    (replicate XRT_MAX_VIEWS None, replicate XRT_MAX_VIEWS None,
     replicate (3 * XRT_MAX_VIEWS) None).

Definition render_compute_clear (render : render_compute)
    (target_image target_image_view : Z)
    (views : list render_viewport_data) (σ : world) : result world :=
  r ← assert_attached render;
  transforms ← for_upto r.(view_count) (λ i transforms,
      array_set transforms i (Some math_matrix_4x4_identity))
    (replicate XRT_MAX_VIEWS None);
  data ← load_ubo r.(compute_clear_ubo_mapped) σ;
  data ← for_upto r.(view_count) (λ i data,
      view ← array_get views i;
      data_views ← array_set data.(ubo.views) i view;
      Ok {| ubo.views := data_views;
            ubo.pre_transforms := data.(ubo.pre_transforms);
            ubo.transforms := data.(ubo.transforms);
            ubo.post_transforms := data.(ubo.post_transforms) |}) data;
  let σ := store_ubo r.(compute_clear_ubo_mapped) data σ in
  let subresource_range := whole_color_image in
  let σ := vk_cmd_image_barrier_gpu_locked r.(cmd) target_image
             0 VK_ACCESS_SHADER_WRITE_BIT
             VK_IMAGE_LAYOUT_UNDEFINED VK_IMAGE_LAYOUT_GENERAL
             subresource_range σ in
  let sampler := r.(samplers_mock) in
  '(src_samplers, src_image_views, distortion_samplers) ←
    fill_clear_arrays r.(view_count) sampler r.(mock_color_image_view);
  σ ← update_compute_shared_descriptor_set
    r.(compute_src_binding)
    src_samplers
    src_image_views
    r.(compute_distortion_binding)
    distortion_samplers
    (Some <$> r.(distortion_image_views))
    r.(compute_target_binding)
    target_image_view
    r.(compute_ubo_binding)
    r.(compute_clear_ubo_buffer)
    VK_WHOLE_SIZE
    render.(shared_descriptor_set)
    r.(view_count) σ;
  let σ := vkCmdBindPipeline r.(cmd) VK_PIPELINE_BIND_POINT_COMPUTE
             r.(compute_clear_pipeline) σ in
  let σ := vkCmdBindDescriptorSets r.(cmd) VK_PIPELINE_BIND_POINT_COMPUTE
             r.(compute_distortion_pipeline_layout) 0
             [render.(shared_descriptor_set)] [] σ in
  '(w, h) ← calc_dispatch_dims_views views r.(view_count);
  _ ← c_assert (bool_decide (w ≠ 0) && bool_decide (h ≠ 0));
  let σ := vkCmdDispatch r.(cmd) w h 2 σ in
  let memoryBarrier := present_barrier target_image subresource_range in
  Ok (vkCmdPipelineBarrier r.(cmd)
        VK_PIPELINE_STAGE_COMPUTE_SHADER_BIT VK_PIPELINE_STAGE_TOP_OF_PIPE_BIT
        0 0 0 [memoryBarrier] σ).
End Model.

(** ** Vocabulary of the specification *)

(** A pre-dispatch barrier for [target]: undefined to general layout, gating
    shader writes. *)
Definition is_pre_barrier (target : Z) (c : vk_command) : bool :=
  match c with
  | CmdImageBarrierGpuLocked image _ dst_access_mask old_layout new_layout _ =>
      bool_decide (image = target ∧
                   dst_access_mask = VK_ACCESS_SHADER_WRITE_BIT ∧
                   old_layout = VK_IMAGE_LAYOUT_UNDEFINED ∧
                   new_layout = VK_IMAGE_LAYOUT_GENERAL)
  | _ => false
  end.

(** A post-dispatch barrier for [target]: general to presentation layout,
    shader writes before memory reads. *)
Definition is_post_barrier (target : Z) (c : vk_command) : bool :=
  match c with
  | CmdPipelineBarrier _ _ _ _ _ barriers =>
      bool_decide (Exists (λ b,
        b.(image) = target ∧
        b.(srcAccessMask) = VK_ACCESS_SHADER_WRITE_BIT ∧
        b.(dstAccessMask) = VK_ACCESS_MEMORY_READ_BIT ∧
        b.(oldLayout) = VK_IMAGE_LAYOUT_GENERAL ∧
        b.(newLayout) = VK_IMAGE_LAYOUT_PRESENT_SRC_KHR) barriers)
  | _ => false
  end.

Definition is_barrier (c : vk_command) : bool :=
  match c with
  | CmdImageBarrierGpuLocked _ _ _ _ _ _ => true
  | CmdPipelineBarrier _ _ _ _ _ _ => true
  | _ => false
  end.

Definition is_dispatch (c : vk_command) : bool :=
  match c with
  | CmdDispatch _ _ _ => true
  | _ => false
  end.


(** In the command sequence [cs] a pre-dispatch barrier for [target] comes
    strictly before a dispatch, which comes strictly before a post-dispatch
    barrier for [target]. *)
Definition barriers_around_dispatch (target : Z) (cs : list vk_command) : Prop :=
  ∃ (i j k : nat) (pre dispatch post : vk_command),
    (i < j < k)%nat ∧
    cs !! i = Some pre ∧ is_pre_barrier target pre = true ∧
    cs !! j = Some dispatch ∧ is_dispatch dispatch = true ∧
    cs !! k = Some post ∧ is_post_barrier target post = true.

(** What a sampled image (source or distortion) is bound as. *)
Definition image_info (s v : Z) : VkDescriptorImageInfo :=
  {| sampler := s; imageView := v;
     imageLayout := VK_IMAGE_LAYOUT_SHADER_READ_ONLY_OPTIMAL |}.

(** What the target image is bound as. *)
Definition target_info (target_image_view : Z) : VkDescriptorImageInfo :=
  {| sampler := VK_NULL_HANDLE; imageView := target_image_view;
     imageLayout := VK_IMAGE_LAYOUT_GENERAL |}.

(** What the uniform buffer is bound as. *)
Definition ubo_info (ubo_buffer ubo_size : Z) : VkDescriptorBufferInfo :=
  {| buffer := ubo_buffer; offset := 0; range := ubo_size |}.

(** The slots a write names. *)
Definition write_targets (write : VkWriteDescriptorSet) : list slot :=
  (λ j : nat, (write.(dstSet), write.(dstBinding),
               write.(dstArrayElement) + Z.of_nat j))
    <$> seq 0 (Z.to_nat write.(descriptorCount)).

(** The slots of the layer shape: [image_count] sources, one target, one
    uniform buffer. *)
Definition layer_shape_slots (descriptor_set src_binding target_binding
    ubo_binding image_count : Z) : list slot :=
  ((λ j : nat, (descriptor_set, src_binding, Z.of_nat j))
     <$> seq 0 (Z.to_nat image_count)) ++
  [(descriptor_set, target_binding, 0); (descriptor_set, ubo_binding, 0)].

(** The slots of the shared (distortion) shape: one source per view, three
    distortion images per view, one target, one uniform buffer. *)
Definition shared_shape_slots (descriptor_set src_binding distortion_binding
    target_binding ubo_binding view_count : Z) : list slot :=
  ((λ j : nat, (descriptor_set, src_binding, Z.of_nat j))
     <$> seq 0 (Z.to_nat view_count)) ++
  ((λ j : nat, (descriptor_set, distortion_binding, Z.of_nat j))
     <$> seq 0 (Z.to_nat (3 * view_count))) ++
  [(descriptor_set, target_binding, 0); (descriptor_set, ubo_binding, 0)].

(** ** What a caller has to provide

    The conditions under which a call returns: the context is attached, the
    view count fits the fixed-size arrays, every array read by the call is
    long enough, and the viewports give a non-zero dispatch. *)

Section Contracts.
Context `{RenderInterface}.

Definition views_fit (view_count : Z) : Prop :=
  0 ≤ view_count ∧
  (Z.to_nat view_count ≤ XRT_MAX_VIEWS)%nat ∧
  3 * Z.of_nat XRT_MAX_VIEWS ≤ UINT32_MAX.

Definition ubo_fits (n : nat) (data : render_compute_distortion_ubo_data) : Prop :=
  (n ≤ length data.(ubo.views))%nat ∧
  (n ≤ length data.(ubo.pre_transforms))%nat ∧
  (n ≤ length data.(ubo.transforms))%nat ∧
  (n ≤ length data.(ubo.post_transforms))%nat.

Definition dispatchable (views : list render_viewport_data) (view_count : Z) : Prop :=
  ∃ gw gh : Z,
    calc_dispatch_dims_views views view_count = Ok (gw, gh) ∧ gw ≠ 0 ∧ gh ≠ 0.

Definition layers_ready (render : render_compute)
    (src_samplers src_image_views : list Z) (num_srcs : Z)
    (view : render_viewport_data) : Prop :=
  is_Some render.(r) ∧
  0 ≤ num_srcs ∧
  (Z.to_nat num_srcs ≤ RENDER_MAX_IMAGES_SIZE)%nat ∧
  (Z.to_nat num_srcs ≤ length src_samplers)%nat ∧
  (Z.to_nat num_srcs ≤ length src_image_views)%nat ∧
  (calc_dispatch_dims_1_view view).1 ≠ 0 ∧
  (calc_dispatch_dims_1_view view).2 ≠ 0.

Definition projection_ready (render : render_compute)
    (src_samplers src_image_views : list Z)
    (src_norm_rects : list xrt_normalized_rect)
    (views : list render_viewport_data) (σ : world) : Prop :=
  ∃ rs data,
    render.(r) = Some rs ∧
    views_fit rs.(view_count) ∧
    σ.(mapped_memory) !! rs.(compute_distortion_ubo_mapped) = Some data ∧
    ubo_fits (Z.to_nat rs.(view_count)) data ∧
    (Z.to_nat rs.(view_count) ≤ length src_samplers)%nat ∧
    (Z.to_nat rs.(view_count) ≤ length src_image_views)%nat ∧
    (Z.to_nat rs.(view_count) ≤ length src_norm_rects)%nat ∧
    (3 * Z.to_nat rs.(view_count) ≤ length rs.(distortion_image_views))%nat ∧
    dispatchable views rs.(view_count).

Definition projection_timewarp_ready (render : render_compute)
    (src_samplers src_image_views : list Z)
    (src_norm_rects : list xrt_normalized_rect)
    (src_poses : list xrt_pose) (src_fovs : list xrt_fov)
    (new_poses : list xrt_pose)
    (views : list render_viewport_data) (σ : world) : Prop :=
  projection_ready render src_samplers src_image_views src_norm_rects views σ ∧
  ∃ rs,
    render.(r) = Some rs ∧
    (Z.to_nat rs.(view_count) ≤ length rs.(distortion_uv_to_tanangle))%nat ∧
    (Z.to_nat rs.(view_count) ≤ length src_poses)%nat ∧
    (Z.to_nat rs.(view_count) ≤ length src_fovs)%nat ∧
    (Z.to_nat rs.(view_count) ≤ length new_poses)%nat.

Definition clear_ready (render : render_compute)
    (views : list render_viewport_data) (σ : world) : Prop :=
  ∃ rs data,
    render.(r) = Some rs ∧
    views_fit rs.(view_count) ∧
    σ.(mapped_memory) !! rs.(compute_clear_ubo_mapped) = Some data ∧
    (Z.to_nat rs.(view_count) ≤ length data.(ubo.views))%nat ∧
    (3 * Z.to_nat rs.(view_count) ≤ length rs.(distortion_image_views))%nat ∧
    dispatchable views rs.(view_count).

(** A call of one of the four passes, with its arguments. *)
Inductive pass_call : Type :=
  | LayersCall (descriptor_set ubo : Z) (src_samplers src_image_views : list Z)
      (num_srcs target_image_view : Z) (view : render_viewport_data)
      (do_timewarp : bool)
  | ProjectionCall (src_samplers src_image_views : list Z)
      (src_norm_rects : list xrt_normalized_rect)
      (target_image target_image_view : Z) (views : list render_viewport_data)
  | ProjectionTimewarpCall (src_samplers src_image_views : list Z)
      (src_norm_rects : list xrt_normalized_rect)
      (src_poses : list xrt_pose) (src_fovs : list xrt_fov)
      (new_poses : list xrt_pose)
      (target_image target_image_view : Z) (views : list render_viewport_data)
  | ClearCall (target_image target_image_view : Z)
      (views : list render_viewport_data).

Definition run_pass (render : render_compute) (call : pass_call) (σ : world)
  : result world :=
  match call with
  | LayersCall descriptor_set ubo src_samplers src_image_views num_srcs
      target_image_view view do_timewarp =>
      render_compute_layers render descriptor_set ubo src_samplers
        src_image_views num_srcs target_image_view view do_timewarp σ
  | ProjectionCall src_samplers src_image_views src_norm_rects target_image
      target_image_view views =>
      render_compute_projection render src_samplers src_image_views
        src_norm_rects target_image target_image_view views σ
  | ProjectionTimewarpCall src_samplers src_image_views src_norm_rects
      src_poses src_fovs new_poses target_image target_image_view views =>
      render_compute_projection_timewarp render src_samplers src_image_views
        src_norm_rects src_poses src_fovs new_poses target_image
        target_image_view views σ
  | ClearCall target_image target_image_view views =>
      render_compute_clear render target_image target_image_view views σ
  end.

Definition pass_ready (render : render_compute) (call : pass_call) (σ : world)
  : Prop :=
  match call with
  | LayersCall _ _ src_samplers src_image_views num_srcs _ view _ =>
      layers_ready render src_samplers src_image_views num_srcs view
  | ProjectionCall src_samplers src_image_views src_norm_rects _ _ views =>
      projection_ready render src_samplers src_image_views src_norm_rects views σ
  | ProjectionTimewarpCall src_samplers src_image_views src_norm_rects
      src_poses src_fovs new_poses _ _ views =>
      projection_timewarp_ready render src_samplers src_image_views
        src_norm_rects src_poses src_fovs new_poses views σ
  | ClearCall _ _ views => clear_ready render views σ
  end.

(** The target image a pass is given; the layers pass is given only the
    target's image view. *)
Definition pass_target_image (call : pass_call) : option Z :=
  match call with
  | LayersCall _ _ _ _ _ _ _ _ => None
  | ProjectionCall _ _ _ target_image _ _ => Some target_image
  | ProjectionTimewarpCall _ _ _ _ _ _ target_image _ _ => Some target_image
  | ClearCall target_image _ _ => Some target_image
  end.

(** The dispatch depth the specification gives each pass. *)
Definition pass_depth (call : pass_call) : Z :=
  match call with
  | LayersCall _ _ _ _ _ _ _ _ => 1
  | _ => 2
  end.

(** The first [n] entries of [dst] are those of [src]. *)
Definition first_written {A} (n : nat) (src dst : list A) : Prop :=
  ∀ i : nat, (i < n)%nat → ∃ v, src !! i = Some v ∧ dst !! i = Some v.

(** The first [n] entries of [dst] are the time warp matrices of the first
    [n] views. *)
Definition time_warp_written (n : nat) (src_poses : list xrt_pose)
    (src_fovs : list xrt_fov) (new_poses : list xrt_pose)
    (dst : list xrt_matrix_4x4) : Prop :=
  ∀ i : nat, (i < n)%nat →
    ∃ src_pose src_fov new_pose,
      src_poses !! i = Some src_pose ∧ src_fovs !! i = Some src_fov ∧
      new_poses !! i = Some new_pose ∧
      dst !! i = Some (render_calc_time_warp_matrix src_pose src_fov new_pose).

End Contracts.

(** ** The shape of a pass call

    What a pass takes from its arguments and from the resources: how many
    array elements it handles and how many its local arrays hold, which
    descriptor set, pipeline and pipeline layout it binds, which mapped
    uniform record it writes, and which viewports it dispatches for. *)

Section CallShapes.
Context `{RenderInterface}.

Definition pass_element_count (rs : render_resources) (call : pass_call) : Z :=
  match call with
  | LayersCall _ _ _ _ num_srcs _ _ _ => num_srcs
  | _ => rs.(view_count)
  end.

Definition pass_array_bound (call : pass_call) : nat :=
  match call with
  | LayersCall _ _ _ _ _ _ _ _ => RENDER_MAX_IMAGES_SIZE
  | _ => XRT_MAX_VIEWS
  end.

Definition pass_descriptor_set (render : render_compute) (call : pass_call) : Z :=
  match call with
  | LayersCall descriptor_set _ _ _ _ _ _ _ => descriptor_set
  | _ => render.(shared_descriptor_set)
  end.

Definition pass_pipeline (rs : render_resources) (call : pass_call) : Z :=
  match call with
  | LayersCall _ _ _ _ _ _ _ do_timewarp =>
      if do_timewarp then rs.(compute_layer_timewarp_pipeline)
      else rs.(compute_layer_non_timewarp_pipeline)
  | ProjectionCall _ _ _ _ _ _ => rs.(compute_distortion_pipeline)
  | ProjectionTimewarpCall _ _ _ _ _ _ _ _ _ =>
      rs.(compute_distortion_timewarp_pipeline)
  | ClearCall _ _ _ => rs.(compute_clear_pipeline)
  end.

Definition pass_pipeline_layout (rs : render_resources) (call : pass_call) : Z :=
  match call with
  | LayersCall _ _ _ _ _ _ _ _ => rs.(compute_layer_pipeline_layout)
  | _ => rs.(compute_distortion_pipeline_layout)
  end.

Definition pass_ubo_mapped (rs : render_resources) (call : pass_call) : option Z :=
  match call with
  | LayersCall _ _ _ _ _ _ _ _ => None
  | ProjectionCall _ _ _ _ _ _ => Some rs.(compute_distortion_ubo_mapped)
  | ProjectionTimewarpCall _ _ _ _ _ _ _ _ _ =>
      Some rs.(compute_distortion_ubo_mapped)
  | ClearCall _ _ _ => Some rs.(compute_clear_ubo_mapped)
  end.

Definition pass_ubo_buffer (rs : render_resources) (call : pass_call) : Z :=
  match call with
  | LayersCall _ ubo _ _ _ _ _ _ => ubo
  | ProjectionCall _ _ _ _ _ _ => rs.(compute_distortion_ubo_buffer)
  | ProjectionTimewarpCall _ _ _ _ _ _ _ _ _ => rs.(compute_distortion_ubo_buffer)
  | ClearCall _ _ _ => rs.(compute_clear_ubo_buffer)
  end.

(** The viewports a pass dispatches for: the one viewport of a layers call,
    the first [view_count] viewports of the others. *)
Definition pass_views (rs : render_resources) (call : pass_call)
  : list render_viewport_data :=
  match call with
  | LayersCall _ _ _ _ _ _ view _ => [view]
  | ProjectionCall _ _ _ _ _ views => take (Z.to_nat rs.(view_count)) views
  | ProjectionTimewarpCall _ _ _ _ _ _ _ _ views =>
      take (Z.to_nat rs.(view_count)) views
  | ClearCall _ _ views => take (Z.to_nat rs.(view_count)) views
  end.

End CallShapes.

(** ** The state a returning pass leaves

    The three writes of the layer shape and the four of the shared shape,
    and the device state after a pass in terms of the values the pass
    computed on its way. *)

Section PassResults.
Context `{RenderInterface}.

Definition layer_shape_writes (descriptor_set src_binding target_binding
    ubo_binding image_count target_image_view ubo_buffer ubo_size : Z)
    (src_image_info : list (option VkDescriptorImageInfo))
  : list VkWriteDescriptorSet := [
    {| dstSet := descriptor_set; dstBinding := src_binding;
       dstArrayElement := 0; descriptorCount := image_count;
       descriptorType := VK_DESCRIPTOR_TYPE_COMBINED_IMAGE_SAMPLER;
       pImageInfo := src_image_info; pBufferInfo := [] |};
    {| dstSet := descriptor_set; dstBinding := target_binding;
       dstArrayElement := 0; descriptorCount := 1;
       descriptorType := VK_DESCRIPTOR_TYPE_STORAGE_IMAGE;
       pImageInfo := [Some (target_info target_image_view)];
       pBufferInfo := [] |};
    {| dstSet := descriptor_set; dstBinding := ubo_binding;
       dstArrayElement := 0; descriptorCount := 1;
       descriptorType := VK_DESCRIPTOR_TYPE_UNIFORM_BUFFER;
       pImageInfo := []; pBufferInfo := [ubo_info ubo_buffer ubo_size] |}
  ].

Definition shared_shape_writes (descriptor_set src_binding distortion_binding
    target_binding ubo_binding view_count target_image_view ubo_buffer
    ubo_size : Z)
    (src_image_info distortion_image_info : list (option VkDescriptorImageInfo))
  : list VkWriteDescriptorSet := [
    {| dstSet := descriptor_set; dstBinding := src_binding;
       dstArrayElement := 0; descriptorCount := view_count;
       descriptorType := VK_DESCRIPTOR_TYPE_COMBINED_IMAGE_SAMPLER;
       pImageInfo := src_image_info; pBufferInfo := [] |};
    {| dstSet := descriptor_set; dstBinding := distortion_binding;
       dstArrayElement := 0; descriptorCount := uint32_wrap (3 * view_count);
       descriptorType := VK_DESCRIPTOR_TYPE_COMBINED_IMAGE_SAMPLER;
       pImageInfo := distortion_image_info; pBufferInfo := [] |};
    {| dstSet := descriptor_set; dstBinding := target_binding;
       dstArrayElement := 0; descriptorCount := 1;
       descriptorType := VK_DESCRIPTOR_TYPE_STORAGE_IMAGE;
       pImageInfo := [Some (target_info target_image_view)];
       pBufferInfo := [] |};
    {| dstSet := descriptor_set; dstBinding := ubo_binding;
       dstArrayElement := 0; descriptorCount := 1;
       descriptorType := VK_DESCRIPTOR_TYPE_UNIFORM_BUFFER;
       pImageInfo := []; pBufferInfo := [ubo_info ubo_buffer ubo_size] |}
  ].

(** The writes a pass hands to [vkUpdateDescriptorSets], given the local
    arrays it has filled. *)
Definition pass_writes (render : render_compute) (rs : render_resources)
    (call : pass_call)
    (src_image_info distortion_image_info : list (option VkDescriptorImageInfo))
  : list VkWriteDescriptorSet :=
  match call with
  | LayersCall descriptor_set ubo _ _ num_srcs target_image_view _ _ =>
      layer_shape_writes descriptor_set rs.(compute_src_binding)
        rs.(compute_target_binding) rs.(compute_ubo_binding) num_srcs
        target_image_view ubo VK_WHOLE_SIZE src_image_info
  | ProjectionCall _ _ _ _ target_image_view _
  | ProjectionTimewarpCall _ _ _ _ _ _ _ target_image_view _
  | ClearCall _ target_image_view _ =>
      shared_shape_writes render.(shared_descriptor_set)
        rs.(compute_src_binding) rs.(compute_distortion_binding)
        rs.(compute_target_binding) rs.(compute_ubo_binding) rs.(view_count)
        target_image_view (pass_ubo_buffer rs call) VK_WHOLE_SIZE
        src_image_info distortion_image_info
  end.

(** The commands a returning pass records, for a dispatch of [gw] by [gh]
    work groups. *)
Definition pass_commands (render : render_compute) (rs : render_resources)
    (call : pass_call) (gw gh : Z) : list vk_command :=
  match pass_target_image call with
  | None => []
  | Some target_image =>
      [CmdImageBarrierGpuLocked target_image 0 VK_ACCESS_SHADER_WRITE_BIT
         VK_IMAGE_LAYOUT_UNDEFINED VK_IMAGE_LAYOUT_GENERAL whole_color_image]
  end ++
  [CmdBindPipeline VK_PIPELINE_BIND_POINT_COMPUTE (pass_pipeline rs call);
   CmdBindDescriptorSets VK_PIPELINE_BIND_POINT_COMPUTE
     (pass_pipeline_layout rs call) 0 [pass_descriptor_set render call] [];
   CmdDispatch gw gh (pass_depth call)] ++
  match pass_target_image call with
  | None => []
  | Some target_image =>
      [CmdPipelineBarrier VK_PIPELINE_STAGE_COMPUTE_SHADER_BIT
         VK_PIPELINE_STAGE_TOP_OF_PIPE_BIT 0 0 0
         [present_barrier target_image whole_color_image]]
  end.

End PassResults.

(** ** What a pass binds

    The image infos a pass binds at the source binding and at the distortion
    binding, in array order, and the pairwise distinctness of the four
    binding numbers. *)

Section PassBindings.
Context `{RenderInterface}.

Definition pass_sources (rs : render_resources) (call : pass_call)
  : list VkDescriptorImageInfo :=
  match call with
  | LayersCall _ _ src_samplers src_image_views num_srcs _ _ _ =>
      zip_with image_info (take (Z.to_nat num_srcs) src_samplers)
        (take (Z.to_nat num_srcs) src_image_views)
  | ProjectionCall src_samplers src_image_views _ _ _ _
  | ProjectionTimewarpCall src_samplers src_image_views _ _ _ _ _ _ _ =>
      zip_with image_info (take (Z.to_nat rs.(view_count)) src_samplers)
        (take (Z.to_nat rs.(view_count)) src_image_views)
  | ClearCall _ _ _ =>
      replicate (Z.to_nat rs.(view_count))
        (image_info rs.(samplers_mock) rs.(mock_color_image_view))
  end.

Definition pass_distortion_images (rs : render_resources) (call : pass_call)
  : list VkDescriptorImageInfo :=
  match call with
  | LayersCall _ _ _ _ _ _ _ _ => []
  | ProjectionCall _ _ _ _ _ _
  | ProjectionTimewarpCall _ _ _ _ _ _ _ _ _ =>
      image_info rs.(samplers_clamp_to_edge)
        <$> take (3 * Z.to_nat rs.(view_count)) rs.(distortion_image_views)
  | ClearCall _ _ _ =>
      image_info rs.(samplers_mock)
        <$> take (3 * Z.to_nat rs.(view_count)) rs.(distortion_image_views)
  end.

Definition pass_target_image_view (call : pass_call) : Z :=
  match call with
  | LayersCall _ _ _ _ _ target_image_view _ _ => target_image_view
  | ProjectionCall _ _ _ _ target_image_view _ => target_image_view
  | ProjectionTimewarpCall _ _ _ _ _ _ _ target_image_view _ => target_image_view
  | ClearCall _ target_image_view _ => target_image_view
  end.

Definition bindings_distinct (rs : render_resources) : Prop :=
  rs.(compute_src_binding) ≠ rs.(compute_distortion_binding) ∧
  rs.(compute_src_binding) ≠ rs.(compute_target_binding) ∧
  rs.(compute_src_binding) ≠ rs.(compute_ubo_binding) ∧
  rs.(compute_distortion_binding) ≠ rs.(compute_target_binding) ∧
  rs.(compute_distortion_binding) ≠ rs.(compute_ubo_binding) ∧
  rs.(compute_target_binding) ≠ rs.(compute_ubo_binding).

End PassBindings.

(** ** What a pass leaves of a uniform record *)

Section UboFrame.
Context `{RenderInterface}.

(** [dst] has the length of [src] and its entries from index [n] on. *)
Definition kept_from {A} (n : nat) (src dst : list A) : Prop :=
  length dst = length src ∧ ∀ i : nat, (n ≤ i)%nat → dst !! i = src !! i.

(** The fields of the uniform record a pass does not store to. *)
Definition pass_fields_untouched (call : pass_call)
    (data data' : render_compute_distortion_ubo_data) : Prop :=
  match call with
  | LayersCall _ _ _ _ _ _ _ _ => data' = data
  | ProjectionCall _ _ _ _ _ _ =>
      data'.(ubo.pre_transforms) = data.(ubo.pre_transforms) ∧
      data'.(ubo.transforms) = data.(ubo.transforms)
  | ProjectionTimewarpCall _ _ _ _ _ _ _ _ _ => True
  | ClearCall _ _ _ =>
      data'.(ubo.pre_transforms) = data.(ubo.pre_transforms) ∧
      data'.(ubo.transforms) = data.(ubo.transforms) ∧
      data'.(ubo.post_transforms) = data.(ubo.post_transforms)
  end.

End UboFrame.

(** ** The images of a pass in a descriptor map *)

Section PassImages.
Context `{RenderInterface}.

(** The descriptor map [d] holds, in the descriptor set of the call, the
    source images, the distortion images and the target image of the
    call. *)
Definition holds_pass_images (render : render_compute) (rs : render_resources)
    (call : pass_call) (d : gmap slot descriptor) : Prop :=
  (∀ (i : nat) info, pass_sources rs call !! i = Some info →
     d !! (pass_descriptor_set render call, rs.(compute_src_binding), Z.of_nat i)
     = Some (ImageDescriptor VK_DESCRIPTOR_TYPE_COMBINED_IMAGE_SAMPLER info)) ∧
  (∀ (j : nat) info, pass_distortion_images rs call !! j = Some info →
     d !! (pass_descriptor_set render call, rs.(compute_distortion_binding),
           Z.of_nat j)
     = Some (ImageDescriptor VK_DESCRIPTOR_TYPE_COMBINED_IMAGE_SAMPLER info)) ∧
  d !! (pass_descriptor_set render call, rs.(compute_target_binding), 0)
  = Some (ImageDescriptor VK_DESCRIPTOR_TYPE_STORAGE_IMAGE
            (target_info (pass_target_image_view call))).

End PassImages.

(** ** What a pass needs to reach its assertion

    The contract of each pass without its condition on the dispatch
    dimensions, stated on the arguments alone; the extent the pass
    dispatches for; and the range of extents the work-group division
    handles. *)

Section DispatchRange.
Context `{RenderInterface}.

Definition in_dispatch_range (extent : Z) : Prop := 1 ≤ extent ≤ 2 ^ 32 - 8.

Definition layers_set_up (render : render_compute)
    (src_samplers src_image_views : list Z) (num_srcs : Z) : Prop :=
  is_Some render.(r) ∧
  0 ≤ num_srcs ∧
  (Z.to_nat num_srcs ≤ RENDER_MAX_IMAGES_SIZE)%nat ∧
  (Z.to_nat num_srcs ≤ length src_samplers)%nat ∧
  (Z.to_nat num_srcs ≤ length src_image_views)%nat.

Definition projection_set_up (render : render_compute)
    (src_samplers src_image_views : list Z)
    (src_norm_rects : list xrt_normalized_rect)
    (views : list render_viewport_data) (σ : world) : Prop :=
  ∃ rs data,
    render.(r) = Some rs ∧
    views_fit rs.(view_count) ∧
    σ.(mapped_memory) !! rs.(compute_distortion_ubo_mapped) = Some data ∧
    ubo_fits (Z.to_nat rs.(view_count)) data ∧
    (Z.to_nat rs.(view_count) ≤ length src_samplers)%nat ∧
    (Z.to_nat rs.(view_count) ≤ length src_image_views)%nat ∧
    (Z.to_nat rs.(view_count) ≤ length src_norm_rects)%nat ∧
    (3 * Z.to_nat rs.(view_count) ≤ length rs.(distortion_image_views))%nat ∧
    (Z.to_nat rs.(view_count) ≤ length views)%nat.

Definition projection_timewarp_set_up (render : render_compute)
    (src_samplers src_image_views : list Z)
    (src_norm_rects : list xrt_normalized_rect)
    (src_poses : list xrt_pose) (src_fovs : list xrt_fov)
    (new_poses : list xrt_pose)
    (views : list render_viewport_data) (σ : world) : Prop :=
  projection_set_up render src_samplers src_image_views src_norm_rects views σ ∧
  ∃ rs,
    render.(r) = Some rs ∧
    (Z.to_nat rs.(view_count) ≤ length rs.(distortion_uv_to_tanangle))%nat ∧
    (Z.to_nat rs.(view_count) ≤ length src_poses)%nat ∧
    (Z.to_nat rs.(view_count) ≤ length src_fovs)%nat ∧
    (Z.to_nat rs.(view_count) ≤ length new_poses)%nat.

Definition clear_set_up (render : render_compute)
    (views : list render_viewport_data) (σ : world) : Prop :=
  ∃ rs data,
    render.(r) = Some rs ∧
    views_fit rs.(view_count) ∧
    σ.(mapped_memory) !! rs.(compute_clear_ubo_mapped) = Some data ∧
    (Z.to_nat rs.(view_count) ≤ length data.(ubo.views))%nat ∧
    (3 * Z.to_nat rs.(view_count) ≤ length rs.(distortion_image_views))%nat ∧
    (Z.to_nat rs.(view_count) ≤ length views)%nat.

Definition pass_set_up (render : render_compute) (call : pass_call) (σ : world)
  : Prop :=
  match call with
  | LayersCall _ _ src_samplers src_image_views num_srcs _ _ _ =>
      layers_set_up render src_samplers src_image_views num_srcs
  | ProjectionCall src_samplers src_image_views src_norm_rects _ _ views =>
      projection_set_up render src_samplers src_image_views src_norm_rects views σ
  | ProjectionTimewarpCall src_samplers src_image_views src_norm_rects
      src_poses src_fovs new_poses _ _ views =>
      projection_timewarp_set_up render src_samplers src_image_views
        src_norm_rects src_poses src_fovs new_poses views σ
  | ClearCall _ _ views => clear_set_up render views σ
  end.

(** The dispatch dimensions as the pass computes them. *)
Definition pass_dispatch_dims (rs : render_resources) (call : pass_call)
  : result (Z * Z) :=
  match call with
  | LayersCall _ _ _ _ _ _ view _ => Ok (calc_dispatch_dims_1_view view)
  | ProjectionCall _ _ _ _ _ views =>
      calc_dispatch_dims_views views rs.(view_count)
  | ProjectionTimewarpCall _ _ _ _ _ _ _ _ views =>
      calc_dispatch_dims_views views rs.(view_count)
  | ClearCall _ _ views => calc_dispatch_dims_views views rs.(view_count)
  end.

(** The extent a pass dispatches for: the width and height of the viewport
    of a layers call; the largest width and the largest height among the
    first [view_count] viewports of the other calls (0 when there are
    none). *)
Definition pass_extent (rs : render_resources) (call : pass_call) : Z * Z :=
  match call with
  | LayersCall _ _ _ _ _ _ view _ => (view.(w), view.(h))
  | _ => (foldl Z.max 0 (w <$> pass_views rs call),
          foldl Z.max 0 (h <$> pass_views rs call))
  end.

Definition extent_in_range (rs : render_resources) (call : pass_call) : Prop :=
  in_dispatch_range (pass_extent rs call).1 ∧
  in_dispatch_range (pass_extent rs call).2.

End DispatchRange.

(** ** Concrete inputs

    A stereo configuration used to run the model: two views, payloads
    replaced by integer tokens. *)

Definition stereo_interface : RenderInterface :=
  {| XRT_MAX_VIEWS := 2;
     RENDER_MAX_IMAGES_SIZE := 4;
     RENDER_MAX_LAYER_RUNS_COUNT := 3;
     xrt_pose := Z;
     xrt_fov := Z;
     xrt_matrix_4x4 := Z;
     xrt_normalized_rect := Z;
     render_calc_time_warp_matrix := λ src_pose src_fov new_pose,
       1000 + 100 * src_pose + 10 * src_fov + new_pose;
     math_matrix_4x4_identity := 1 |}.

Definition full_hd : render_viewport_data := {| x := 0; y := 0; w := 1920; h := 1080 |}.
Definition one_pixel : render_viewport_data := {| x := 0; y := 0; w := 1; h := 1 |}.
Definition empty_viewport : render_viewport_data := {| x := 0; y := 0; w := 0; h := 0 |}.

Section Stereo.
#[local] Existing Instance stereo_interface.
Definition stereo_resources : render_resources :=
  {| view_count := 2;
     cmd := 10;
     samplers_clamp_to_edge := 20;
     samplers_mock := 21;
     mock_color_image_view := 30;
     distortion_image_views := [40; 41; 42; 43; 44; 45];
     distortion_uv_to_tanangle := [50; 51];
     compute_descriptor_pool := 60;
     compute_src_binding := 0;
     compute_distortion_binding := 1;
     compute_target_binding := 2;
     compute_ubo_binding := 3;
     compute_layer_descriptor_set_layout := 70;
     compute_layer_pipeline_layout := 71;
     compute_layer_non_timewarp_pipeline := 72;
     compute_layer_timewarp_pipeline := 73;
     compute_distortion_descriptor_set_layout := 80;
     compute_distortion_pipeline_layout := 81;
     compute_distortion_pipeline := 82;
     compute_distortion_timewarp_pipeline := 83;
     compute_distortion_ubo_buffer := 84;
     compute_distortion_ubo_mapped := 85;
     compute_clear_pipeline := 90;
     compute_clear_ubo_buffer := 91;
     compute_clear_ubo_mapped := 92 |}.

Definition stale_ubo : render_compute_distortion_ubo_data :=
  {| ubo.views := [empty_viewport; empty_viewport];
     ubo.pre_transforms := [7; 7];
     ubo.transforms := [7; 7];
     ubo.post_transforms := [7; 7] |}.

Definition stereo_world (max_sets : nat) : world :=
  {| command_buffers := ∅;
     descriptors := ∅;
     descriptor_updates := [];
     descriptor_pools := {[ 60 := {| max_sets := max_sets; allocated_sets := [] |} ]};
     next_handle := 100;
     mapped_memory := {[ 85 := stale_ubo; 92 := stale_ubo ]} |}.

Definition detached : render_compute :=
  {| r := None; layer_descriptor_sets := [0; 0; 0]; shared_descriptor_set := 0 |}.

Definition attached : render_compute :=
  {| r := Some stereo_resources; layer_descriptor_sets := [100; 101; 102];
     shared_descriptor_set := 103 |}.

Definition stereo_views : list render_viewport_data := [full_hd; full_hd].

Definition stereo_projection : pass_call :=
  ProjectionCall [1; 2] [3; 4] [5; 6] 200 201 stereo_views.

Definition stereo_layers (view : render_viewport_data) : pass_call :=
  LayersCall 100 300 [1; 2; 3] [4; 5; 6] 3 201 view true.

(** The stereo device with no view at all. *)
Definition no_view_resources : render_resources :=
  {| view_count := 0;
     cmd := 10;
     samplers_clamp_to_edge := 20;
     samplers_mock := 21;
     mock_color_image_view := 30;
     distortion_image_views := [];
     distortion_uv_to_tanangle := [];
     compute_descriptor_pool := 60;
     compute_src_binding := 0;
     compute_distortion_binding := 1;
     compute_target_binding := 2;
     compute_ubo_binding := 3;
     compute_layer_descriptor_set_layout := 70;
     compute_layer_pipeline_layout := 71;
     compute_layer_non_timewarp_pipeline := 72;
     compute_layer_timewarp_pipeline := 73;
     compute_distortion_descriptor_set_layout := 80;
     compute_distortion_pipeline_layout := 81;
     compute_distortion_pipeline := 82;
     compute_distortion_timewarp_pipeline := 83;
     compute_distortion_ubo_buffer := 84;
     compute_distortion_ubo_mapped := 85;
     compute_clear_pipeline := 90;
     compute_clear_ubo_buffer := 91;
     compute_clear_ubo_mapped := 92 |}.

Definition attached_no_view : render_compute :=
  {| r := Some no_view_resources; layer_descriptor_sets := [100; 101; 102];
     shared_descriptor_set := 103 |}.

Definition stereo_clear : pass_call := ClearCall 200 201 stereo_views.

Definition second_layers : pass_call :=
  LayersCall 101 301 [7; 8] [9; 10] 2 202 one_pixel false.

Definition oversized_layers : pass_call :=
  LayersCall 100 300 [1; 2; 3; 4; 5] [6; 7; 8; 9; 10] 5 201 full_hd true.

(** The stereo device with one view more than [XRT_MAX_VIEWS]. *)
Definition three_view_resources : render_resources :=
  {| view_count := 3;
     cmd := 10;
     samplers_clamp_to_edge := 20;
     samplers_mock := 21;
     mock_color_image_view := 30;
     distortion_image_views := [40; 41; 42; 43; 44; 45; 46; 47; 48];
     distortion_uv_to_tanangle := [50; 51; 52];
     compute_descriptor_pool := 60;
     compute_src_binding := 0;
     compute_distortion_binding := 1;
     compute_target_binding := 2;
     compute_ubo_binding := 3;
     compute_layer_descriptor_set_layout := 70;
     compute_layer_pipeline_layout := 71;
     compute_layer_non_timewarp_pipeline := 72;
     compute_layer_timewarp_pipeline := 73;
     compute_distortion_descriptor_set_layout := 80;
     compute_distortion_pipeline_layout := 81;
     compute_distortion_pipeline := 82;
     compute_distortion_timewarp_pipeline := 83;
     compute_distortion_ubo_buffer := 84;
     compute_distortion_ubo_mapped := 85;
     compute_clear_pipeline := 90;
     compute_clear_ubo_buffer := 91;
     compute_clear_ubo_mapped := 92 |}.

Definition attached_three_views : render_compute :=
  {| r := Some three_view_resources; layer_descriptor_sets := [100; 101; 102];
     shared_descriptor_set := 103 |}.

Definition three_view_projection : pass_call :=
  ProjectionCall [1; 2; 3] [4; 5; 6] [7; 8; 9] 200 201
    [full_hd; full_hd; full_hd].

(** A viewport wider than the work-group division handles. *)
Definition too_wide : render_viewport_data :=
  {| x := 0; y := 0; w := 4294967295; h := 8 |}.

Definition projection_of (views : list render_viewport_data) : pass_call :=
  ProjectionCall [1; 2] [3; 4] [5; 6] 200 201 views.

Definition clear_of (views : list render_viewport_data) : pass_call :=
  ClearCall 200 201 views.

End Stereo.

(** * Properties *)

(** ** Dispatch geometry *)

Section Geometry.

Lemma uint32_wrap_small a : 0 ≤ a < 2 ^ 32 → uint32_wrap a = a.
Proof. intros Ha. unfold uint32_wrap. by apply Z.mod_small. Qed.

Lemma uint_divide_and_round_up_8 a :
  uint_divide_and_round_up a 8 = ((a + 7) `mod` 2 ^ 32) `div` 8.
Proof. reflexivity. Qed.

Lemma uint_divide_and_round_up_no_wrap a :
  0 ≤ a ≤ 2 ^ 32 - 8 → uint_divide_and_round_up a 8 = (a + 7) `div` 8.
Proof.
  intros Ha. rewrite uint_divide_and_round_up_8.
  rewrite Z.mod_small; [done | lia].
Qed.

Lemma uint_divide_and_round_up_wrapped a :
  2 ^ 32 - 7 ≤ a ≤ UINT32_MAX → uint_divide_and_round_up a 8 = 0.
Proof.
  unfold UINT32_MAX. intros Ha. rewrite uint_divide_and_round_up_8.
  replace (a + 7) with ((a + 7 - 2 ^ 32) + 1 * 2 ^ 32) by lia.
  rewrite Z.mod_add by lia.
  rewrite Z.mod_small by lia.
  apply Z.div_small. lia.
Qed.

Lemma ceil_div8_bounds a : a ≤ ceil_div8 a * 8 ∧ (ceil_div8 a - 1) * 8 < a.
Proof.
  unfold ceil_div8.
  pose proof (Z.mul_div_le (- a) 8). pose proof (Z.mul_succ_div_gt (- a) 8). lia.
Qed.

Lemma uint_divide_and_round_up_ceil a :
  0 ≤ a ≤ 2 ^ 32 - 8 → uint_divide_and_round_up a 8 = ceil_div8 a.
Proof.
  intros Ha. rewrite uint_divide_and_round_up_no_wrap by done.
  pose proof (ceil_div8_bounds a) as [Hc1 Hc2].
  pose proof (Z.mul_div_le (a + 7) 8). pose proof (Z.mul_succ_div_gt (a + 7) 8).
  lia.
Qed.

Lemma uint_divide_and_round_up_nonzero a :
  is_uint32 a → uint_divide_and_round_up a 8 ≠ 0 ↔ 1 ≤ a ≤ 2 ^ 32 - 8.
Proof.
  unfold is_uint32, UINT32_MAX. intros Ha.
  destruct (decide (a ≤ 2 ^ 32 - 8)) as [Hle|Hgt].
  - rewrite uint_divide_and_round_up_ceil by lia.
    pose proof (ceil_div8_bounds a). lia.
  - rewrite uint_divide_and_round_up_wrapped by (unfold UINT32_MAX; lia). lia.
Qed.

Lemma array_get_middle {A} (pre rest : list A) v :
  array_get (pre ++ v :: rest) (length pre) = Ok v.
Proof. unfold array_get. by rewrite list_lookup_middle. Qed.

Lemma IMAX_max a b : IMAX a b = Z.max a b.
Proof. unfold IMAX. case_bool_decide; lia. Qed.

Lemma list_maximum_elem l m : list_maximum l = Some m → m ∈ l.
Proof.
  revert m. induction l as [|a l IH]; intros m Hm; simpl in Hm; [done|].
  destruct (list_maximum l) as [m'|]; simplify_eq.
  - destruct (decide (a ≤ m')).
    + rewrite Z.max_r by done. right. by apply IH.
    + rewrite Z.max_l by lia. left.
  - left.
Qed.

Lemma list_maximum_upper l m a : list_maximum l = Some m → a ∈ l → a ≤ m.
Proof.
  revert m. induction l as [|b l IH]; intros m Hm Ha; [by inversion Ha|].
  simpl in Hm. inversion Ha; subst.
  - destruct (list_maximum l); simplify_eq; lia.
  - destruct (list_maximum l) as [m'|] eqn:Hl; simplify_eq.
    + specialize (IH m' eq_refl H1). lia.
    + destruct l; [by inversion H1 | done].
Qed.

Lemma list_maximum_perm l1 l2 : l1 ≡ₚ l2 → list_maximum l1 = list_maximum l2.
Proof.
  induction 1 as [|a l1 l2 _ IH|a b l|l1 l2 l3 _ IH1 _ IH2]; simpl.
  - done.
  - by rewrite IH.
  - destruct (list_maximum l); f_equal; lia.
  - congruence.
Qed.

Lemma foldl_max_list_maximum l a :
  foldl Z.max a l = match list_maximum l with
                    | Some m => Z.max a m
                    | None => a
                    end.
Proof.
  revert a. induction l as [|b l IH]; intros a; simpl; [done|].
  rewrite IH. destruct (list_maximum l); lia.
Qed.

(** The loop of [calc_dispatch_dims_views] run over the rest of the array. *)
Lemma max_extent_loop (pre rest : list render_viewport_data) mw mh :
  for_range (length pre) (length rest) (λ i (wh : Z * Z),
      v ← array_get (pre ++ rest) i;
      Ok (IMAX wh.1 v.(w), IMAX wh.2 v.(h))) (mw, mh)
  = Ok (foldl Z.max mw (w <$> rest), foldl Z.max mh (h <$> rest)).
Proof.
  revert pre mw mh. induction rest as [|v rest IH]; intros pre mw mh; [done|].
  simpl. rewrite array_get_middle. simpl.
  replace (pre ++ v :: rest) with ((pre ++ [v]) ++ rest) by by rewrite <-app_assoc.
  replace (S (length pre)) with (length (pre ++ [v]))
    by (rewrite length_app; simpl; lia).
  rewrite IH. by rewrite !IMAX_max.
Qed.

Lemma calc_dispatch_dims_views_all (views : list render_viewport_data) :
  calc_dispatch_dims_views views (Z.of_nat (length views))
  = Ok (uint_divide_and_round_up (foldl Z.max 0 (w <$> views)) 8,
        uint_divide_and_round_up (foldl Z.max 0 (h <$> views)) 8).
Proof.
  unfold calc_dispatch_dims_views, for_upto. rewrite Nat2Z.id.
  pose proof (max_extent_loop [] views 0 0) as Hloop. simpl in Hloop.
  by rewrite Hloop.
Qed.

Lemma foldl_max_valid (f : render_viewport_data → Z) views m :
  Forall (λ v, 0 ≤ f v) views →
  list_maximum (f <$> views) = Some m → foldl Z.max 0 (f <$> views) = m.
Proof.
  intros Hall Hm. rewrite foldl_max_list_maximum, Hm.
  apply list_maximum_elem in Hm.
  apply list_elem_of_fmap in Hm as (v & -> & Hv).
  rewrite Forall_forall in Hall. specialize (Hall v Hv). lia.
Qed.

(** C10: the work-group count is [(a + 7) / 8] taken modulo [2^32]; from
    [2^32 - 7] on the sum wraps, the count is 0 and so below the true
    ceiling of [a / 8]; the count times 8 reaches the extent exactly when
    the extent is at most [2^32 - 8]. *)
Theorem uint_divide_and_round_up_modular (a : Z) :
  is_uint32 a →
  uint_divide_and_round_up a 8 = ((a + 7) `mod` 2 ^ 32) `div` 8 ∧
  (2 ^ 32 - 7 ≤ a →
     uint_divide_and_round_up a 8 = 0 ∧
     uint_divide_and_round_up a 8 < ceil_div8 a) ∧
  (a ≤ uint_divide_and_round_up a 8 * 8 ↔ a ≤ 2 ^ 32 - 8).
Proof.
  unfold is_uint32, UINT32_MAX. intros Ha. split; [reflexivity|]. split.
  - intros Hbig.
    rewrite uint_divide_and_round_up_wrapped by (unfold UINT32_MAX; lia).
    split; [done|]. pose proof (ceil_div8_bounds a). lia.
  - destruct (decide (a ≤ 2 ^ 32 - 8)) as [Hle|Hgt].
    + rewrite uint_divide_and_round_up_ceil by lia.
      pose proof (ceil_div8_bounds a). lia.
    + rewrite uint_divide_and_round_up_wrapped by (unfold UINT32_MAX; lia). lia.
Qed.

(** C1 (amended): for every extent [w] with [1 ≤ w ≤ 2^32 - 8] the
    work-group count [g] is the ceiling of [w / 8]: [w ≤ g * 8] and
    [(g - 1) * 8 < w]; a 1920x1080 viewport gives (240, 135) and a 1x1
    viewport gives (1, 1). *)
Theorem dispatch_covers_extent :
  (∀ w : Z, 1 ≤ w ≤ 2 ^ 32 - 8 →
     w ≤ uint_divide_and_round_up w 8 * 8 ∧
     (uint_divide_and_round_up w 8 - 1) * 8 < w) ∧
  calc_dispatch_dims_1_view full_hd = (240, 135) ∧
  calc_dispatch_dims_1_view one_pixel = (1, 1).
Proof.
  split; [|done].
  intros w Hw. rewrite uint_divide_and_round_up_ceil by lia.
  apply ceil_div8_bounds.
Qed.

(** C2: for a non-empty list of viewports (each field a [uint32_t]) whose
    largest width is [mw] and largest height is [mh], the multi-view
    dispatch dimensions are the single-view dispatch dimensions of a
    viewport of width [mw] and height [mh], and every permutation of the
    list gives the same dimensions. *)
Theorem calc_dispatch_dims_views_max (views : list render_viewport_data)
    (mw mh : Z) (v : render_viewport_data) :
  views ≠ [] →
  Forall viewport_valid views →
  list_maximum (w <$> views) = Some mw →
  list_maximum (h <$> views) = Some mh →
  v.(w) = mw → v.(h) = mh →
  calc_dispatch_dims_views views (Z.of_nat (length views))
    = Ok (calc_dispatch_dims_1_view v) ∧
  ∀ views', views' ≡ₚ views →
    calc_dispatch_dims_views views' (Z.of_nat (length views'))
    = calc_dispatch_dims_views views (Z.of_nat (length views)).
Proof.
  intros _ Hvalid Hmw Hmh Hw Hh. split.
  - rewrite calc_dispatch_dims_views_all. unfold calc_dispatch_dims_1_view.
    rewrite Hw, Hh.
    rewrite (foldl_max_valid w views mw), (foldl_max_valid h views mh); try done.
    + eapply Forall_impl; [exact Hvalid|]. intros ? (_ & _ & _ & []). done.
    + eapply Forall_impl; [exact Hvalid|]. intros ? (_ & _ & [] & _). done.
  - intros views' Hperm. rewrite !calc_dispatch_dims_views_all.
    rewrite !foldl_max_list_maximum.
    by rewrite (list_maximum_perm (w <$> views') (w <$> views)),
               (list_maximum_perm (h <$> views') (h <$> views))
      by by apply fmap_Permutation.
Qed.

End Geometry.

(** ** Outcomes, loops and the state behind the device *)

Section Passes.
Context `{RenderInterface}.

Lemma bind_Ok {A B} (m : result A) (f : A → result B) (b : B) :
  m ≫= f = Ok b → ∃ a, m = Ok a ∧ f a = Ok b.
Proof. destruct m; simpl; [eauto | done | done]. Qed.

Lemma fmap_Ok {A B} (m : result A) (f : A → B) (b : B) :
  f <$> m = Ok b → ∃ a, m = Ok a ∧ b = f a.
Proof. destruct m; simpl; intros; simplify_eq; eauto. Qed.

Lemma c_assert_Ok c u : c_assert c = Ok u → c = true.
Proof. by destruct c. Qed.

Lemma array_get_Ok {A} (a : list A) i v : array_get a i = Ok v ↔ a !! i = Some v.
Proof. unfold array_get. destruct (a !! i); split; intros; by simplify_eq. Qed.

Lemma array_set_Ok {A} (a a' : list A) i v :
  array_set a i v = Ok a' ↔ (i < length a)%nat ∧ a' = <[i := v]> a.
Proof. unfold array_set. case_decide; split; intros; destruct_and?; by simplify_eq. Qed.

Lemma uarray_get_Ok {A} (a : list (option A)) i v :
  uarray_get a i = Ok v ↔ a !! i = Some (Some v).
Proof.
  unfold uarray_get. destruct (a !! i) as [[]|]; split; intros; by simplify_eq.
Qed.

Lemma for_range_inv {St} (P : nat → St → Prop) body start count (s s' : St) :
  P start s →
  (∀ i a a', (start ≤ i < start + count)%nat → P i a → body i a = Ok a' → P (S i) a') →
  for_range start count body s = Ok s' → P (start + count)%nat s'.
Proof.
  revert start s. induction count as [|count IH]; intros start s Hs Hstep Hrun.
  - simpl in Hrun. simplify_eq. by rewrite Nat.add_0_r.
  - simpl in Hrun. apply bind_Ok in Hrun as (a & Ha & Hrun).
    replace (start + S count)%nat with (S start + count)%nat by lia.
    apply (IH (S start) a); [|intros i b b' Hi; apply Hstep; lia|done].
    apply (Hstep start s a); [lia|done|done].
Qed.

Lemma for_range_inv0 {St} (P : nat → St → Prop) body count (s s' : St) :
  P 0%nat s →
  (∀ i a a', (i < count)%nat → P i a → body i a = Ok a' → P (S i) a') →
  for_range 0 count body s = Ok s' → P count s'.
Proof.
  intros Hs Hstep Hrun.
  apply (for_range_inv P body 0 count s s' Hs); [|done].
  intros i a a' Hi. apply Hstep. lia.
Qed.

Lemma for_range_ok {St} (P : nat → St → Prop) body start count (s : St) :
  P start s →
  (∀ i a, (start ≤ i < start + count)%nat → P i a →
     ∃ a', body i a = Ok a' ∧ P (S i) a') →
  ∃ s', for_range start count body s = Ok s' ∧ P (start + count)%nat s'.
Proof.
  revert start s. induction count as [|count IH]; intros start s Hs Hstep.
  - exists s. simpl. by rewrite Nat.add_0_r.
  - destruct (Hstep start s) as (a & Ha & HP); [lia|done|].
    destruct (IH (S start) a) as (s' & Hs' & HP'); [done|intros i b Hi; apply Hstep; lia|].
    exists s'. simpl. rewrite Ha. simpl.
    by replace (start + S count)%nat with (S start + count)%nat by lia.
Qed.

Lemma recorded_record cmd c σ :
  recorded cmd (record cmd c σ) = recorded cmd σ ++ [c].
Proof. unfold recorded at 1, record. simpl. by rewrite lookup_insert_eq. Qed.

Lemma recorded_store_ubo cmd mapped data σ :
  recorded cmd (store_ubo mapped data σ) = recorded cmd σ.
Proof. done. Qed.

Lemma vkUpdateDescriptorSets_Ok writes σ σ' :
  vkUpdateDescriptorSets writes σ = Ok σ' →
  ∃ d, apply_writes writes σ.(descriptors) = Ok d ∧
       σ' = set_descriptor_updates (σ.(descriptor_updates) ++ [writes])
              (set_descriptors d σ).
Proof.
  unfold vkUpdateDescriptorSets. intros (d & Hd & Hσ)%bind_Ok.
  exists d. by simplify_eq.
Qed.

Lemma update_compute_layer_descriptor_set_Ok src_binding src_samplers
    src_image_views image_count target_binding target_image_view ubo_binding
    ubo_buffer ubo_size descriptor_set σ σ' :
  update_compute_layer_descriptor_set src_binding src_samplers src_image_views
    image_count target_binding target_image_view ubo_binding ubo_buffer ubo_size
    descriptor_set σ = Ok σ' →
  ∃ writes d, apply_writes writes σ.(descriptors) = Ok d ∧
       σ' = set_descriptor_updates (σ.(descriptor_updates) ++ [writes])
              (set_descriptors d σ).
Proof.
  unfold update_compute_layer_descriptor_set.
  intros (info & _ & Hu)%bind_Ok.
  apply vkUpdateDescriptorSets_Ok in Hu as (d & Hd & ->). eauto.
Qed.

Lemma update_compute_shared_descriptor_set_Ok src_binding src_samplers
    src_image_views distortion_binding distortion_samplers
    distortion_image_views target_binding target_image_view ubo_binding
    ubo_buffer ubo_size descriptor_set view_count σ σ' :
  update_compute_shared_descriptor_set src_binding src_samplers src_image_views
    distortion_binding distortion_samplers distortion_image_views
    target_binding target_image_view ubo_binding ubo_buffer ubo_size
    descriptor_set view_count σ = Ok σ' →
  ∃ writes d, apply_writes writes σ.(descriptors) = Ok d ∧
       σ' = set_descriptor_updates (σ.(descriptor_updates) ++ [writes])
              (set_descriptors d σ).
Proof.
  unfold update_compute_shared_descriptor_set.
  intros (info & _ & (dinfo & _ & Hu)%bind_Ok)%bind_Ok.
  apply vkUpdateDescriptorSets_Ok in Hu as (d & Hd & ->). eauto.
Qed.

Lemma recorded_descriptor_update cmd u d σ :
  recorded cmd (set_descriptor_updates u (set_descriptors d σ)) = recorded cmd σ.
Proof. done. Qed.

Lemma assert_attached_Ok render rs : assert_attached render = Ok rs → render.(r) = Some rs.
Proof. unfold assert_attached. destruct (r render); intros; by simplify_eq. Qed.

(** Splits a hypothesis [m ≫= f = Ok b] into its steps. *)
Ltac invert_steps Hp :=
  repeat (let a := fresh "a" in
          let E := fresh "E" in
          apply bind_Ok in Hp as (a & E & Hp);
          repeat match type of a with
                 | (_ * _)%type => destruct a as [a ?]
                 end;
          simpl in Hp).

Ltac invert_pass Hp :=
  invert_steps Hp;
  repeat match goal with
  | E : assert_attached _ = Ok _ |- _ => apply assert_attached_Ok in E
  | E : c_assert (_ && _) = Ok _ |- _ =>
      apply c_assert_Ok, andb_prop in E as [?%bool_decide_eq_true ?%bool_decide_eq_true]
  | E : update_compute_shared_descriptor_set _ _ _ _ _ _ _ _ _ _ _ _ _ _ = Ok _ |- _ =>
      apply update_compute_shared_descriptor_set_Ok in E as (? & ? & ? & ->)
  | E : update_compute_layer_descriptor_set _ _ _ _ _ _ _ _ _ _ _ = Ok _ |- _ =>
      apply update_compute_layer_descriptor_set_Ok in E as (? & ? & ? & ->)
  end;
  simplify_eq.

Ltac solve_recorded :=
  unfold vkCmdPipelineBarrier, vkCmdDispatch, vkCmdBindDescriptorSets,
    vkCmdBindPipeline, vk_cmd_image_barrier_gpu_locked;
  rewrite ?recorded_record, ?recorded_descriptor_update, ?recorded_record,
    ?recorded_store_ubo;
  by rewrite <-?app_assoc.

(** What each pass records into [r->cmd], given that it returns. *)
Lemma render_compute_projection_recorded render src_samplers src_image_views
    src_norm_rects target_image target_image_view views σ σ' :
  render_compute_projection render src_samplers src_image_views src_norm_rects
    target_image target_image_view views σ = Ok σ' →
  ∃ rs gw gh,
    render.(r) = Some rs ∧
    calc_dispatch_dims_views views rs.(view_count) = Ok (gw, gh) ∧
    gw ≠ 0 ∧ gh ≠ 0 ∧
    recorded rs.(cmd) σ' = recorded rs.(cmd) σ ++ [
      CmdImageBarrierGpuLocked target_image 0 VK_ACCESS_SHADER_WRITE_BIT
        VK_IMAGE_LAYOUT_UNDEFINED VK_IMAGE_LAYOUT_GENERAL whole_color_image;
      CmdBindPipeline VK_PIPELINE_BIND_POINT_COMPUTE rs.(compute_distortion_pipeline);
      CmdBindDescriptorSets VK_PIPELINE_BIND_POINT_COMPUTE
        rs.(compute_distortion_pipeline_layout) 0 [render.(shared_descriptor_set)] [];
      CmdDispatch gw gh 2;
      CmdPipelineBarrier VK_PIPELINE_STAGE_COMPUTE_SHADER_BIT
        VK_PIPELINE_STAGE_TOP_OF_PIPE_BIT 0 0 0
        [present_barrier target_image whole_color_image]].
Proof.
  unfold render_compute_projection. intros Hp. invert_pass Hp.
  eexists _, _, _. repeat split; try done. solve_recorded.
Qed.

Lemma render_compute_projection_timewarp_recorded render src_samplers
    src_image_views src_norm_rects src_poses src_fovs new_poses target_image
    target_image_view views σ σ' :
  render_compute_projection_timewarp render src_samplers src_image_views
    src_norm_rects src_poses src_fovs new_poses target_image target_image_view
    views σ = Ok σ' →
  ∃ rs gw gh,
    render.(r) = Some rs ∧
    calc_dispatch_dims_views views rs.(view_count) = Ok (gw, gh) ∧
    gw ≠ 0 ∧ gh ≠ 0 ∧
    recorded rs.(cmd) σ' = recorded rs.(cmd) σ ++ [
      CmdImageBarrierGpuLocked target_image 0 VK_ACCESS_SHADER_WRITE_BIT
        VK_IMAGE_LAYOUT_UNDEFINED VK_IMAGE_LAYOUT_GENERAL whole_color_image;
      CmdBindPipeline VK_PIPELINE_BIND_POINT_COMPUTE
        rs.(compute_distortion_timewarp_pipeline);
      CmdBindDescriptorSets VK_PIPELINE_BIND_POINT_COMPUTE
        rs.(compute_distortion_pipeline_layout) 0 [render.(shared_descriptor_set)] [];
      CmdDispatch gw gh 2;
      CmdPipelineBarrier VK_PIPELINE_STAGE_COMPUTE_SHADER_BIT
        VK_PIPELINE_STAGE_TOP_OF_PIPE_BIT 0 0 0
        [present_barrier target_image whole_color_image]].
Proof.
  unfold render_compute_projection_timewarp. intros Hp. invert_pass Hp.
  eexists _, _, _. repeat split; try done. solve_recorded.
Qed.

Lemma render_compute_clear_recorded render target_image target_image_view
    views σ σ' :
  render_compute_clear render target_image target_image_view views σ = Ok σ' →
  ∃ rs gw gh,
    render.(r) = Some rs ∧
    calc_dispatch_dims_views views rs.(view_count) = Ok (gw, gh) ∧
    gw ≠ 0 ∧ gh ≠ 0 ∧
    recorded rs.(cmd) σ' = recorded rs.(cmd) σ ++ [
      CmdImageBarrierGpuLocked target_image 0 VK_ACCESS_SHADER_WRITE_BIT
        VK_IMAGE_LAYOUT_UNDEFINED VK_IMAGE_LAYOUT_GENERAL whole_color_image;
      CmdBindPipeline VK_PIPELINE_BIND_POINT_COMPUTE rs.(compute_clear_pipeline);
      CmdBindDescriptorSets VK_PIPELINE_BIND_POINT_COMPUTE
        rs.(compute_distortion_pipeline_layout) 0 [render.(shared_descriptor_set)] [];
      CmdDispatch gw gh 2;
      CmdPipelineBarrier VK_PIPELINE_STAGE_COMPUTE_SHADER_BIT
        VK_PIPELINE_STAGE_TOP_OF_PIPE_BIT 0 0 0
        [present_barrier target_image whole_color_image]].
Proof.
  unfold render_compute_clear. intros Hp. invert_pass Hp.
  eexists _, _, _. repeat split; try done. solve_recorded.
Qed.

Lemma render_compute_layers_recorded render descriptor_set ubo src_samplers
    src_image_views num_srcs target_image_view view do_timewarp σ σ' :
  render_compute_layers render descriptor_set ubo src_samplers src_image_views
    num_srcs target_image_view view do_timewarp σ = Ok σ' →
  ∃ rs gw gh,
    render.(r) = Some rs ∧
    calc_dispatch_dims_1_view view = (gw, gh) ∧
    gw ≠ 0 ∧ gh ≠ 0 ∧
    recorded rs.(cmd) σ' = recorded rs.(cmd) σ ++ [
      CmdBindPipeline VK_PIPELINE_BIND_POINT_COMPUTE
        (if do_timewarp then rs.(compute_layer_timewarp_pipeline)
         else rs.(compute_layer_non_timewarp_pipeline));
      CmdBindDescriptorSets VK_PIPELINE_BIND_POINT_COMPUTE
        rs.(compute_layer_pipeline_layout) 0 [descriptor_set] [];
      CmdDispatch gw gh 1].
Proof.
  unfold render_compute_layers. intros Hp. invert_pass Hp.
  eexists _, _, _. repeat split; try done. solve_recorded.
Qed.
(** ** Descriptor writes *)

Lemma read_image_infos_Ok a n l :
  read_image_infos a n = Ok l ↔ take n a = Some <$> l ∧ length l = n.
Proof.
  revert a l. induction n as [|n IH]; intros a l; simpl.
  - rewrite take_0. split.
    + intros. by simplify_eq.
    + intros [Ht Hl]. by destruct l.
  - destruct a as [|[info|] a]; simpl.
    + split; [done|]. intros [Ht Hl]. by destruct l.
    + split.
      * intros (l' & Hl' & ->)%fmap_Ok. apply IH in Hl' as [-> <-]. done.
      * intros [Ht Hl]. destruct l as [|info' l]; simplify_eq/=.
        assert (read_image_infos a (length l) = Ok l) as -> by by apply IH.
        done.
    + split; [done|]. intros [Ht Hl]. destruct l; simplify_eq/=.
Qed.

Lemma write_contents_length write ds :
  write_contents write = Ok ds → length ds = Z.to_nat write.(descriptorCount).
Proof.
  unfold write_contents. destruct (descriptorType write).
  - intros (l & [_ Hl]%read_image_infos_Ok & ->)%fmap_Ok. by rewrite length_fmap.
  - intros (l & [_ Hl]%read_image_infos_Ok & ->)%fmap_Ok. by rewrite length_fmap.
  - case_decide; [|done]. intros. simplify_eq.
    rewrite length_fmap, length_take. lia.
Qed.

Lemma write_slots_targets write ds :
  length ds = Z.to_nat write.(descriptorCount) →
  (write_slots write ds).*1 = write_targets write.
Proof.
  intros Hlen. unfold write_slots, write_targets. rewrite <-Hlen.
  apply list_eq. intros j.
  rewrite !list_lookup_fmap, list_lookup_imap.
  destruct (ds !! j) as [d|] eqn:Hd; simpl.
  - rewrite lookup_seq_lt; [done|]. by apply lookup_lt_Some in Hd.
  - rewrite lookup_seq_ge; [done|]. by apply lookup_ge_None in Hd.
Qed.

(** Storing the same pairs into two tables makes them agree wherever they
    agreed before and at every key that is stored. *)
Lemma store_descriptors_agree (kvs : list (slot * descriptor))
    (d1 d2 : gmap slot descriptor) (k : slot) :
  d1 !! k = d2 !! k ∨ k ∈ kvs.*1 →
  store_descriptors kvs d1 !! k = store_descriptors kvs d2 !! k.
Proof.
  revert d1 d2. induction kvs as [|[k' v] kvs IH]; intros d1 d2 Hk; simpl.
  - destruct Hk as [Hk|Hk]; [done|]. by apply elem_of_nil in Hk.
  - apply IH. destruct (decide (k' = k)) as [->|Hne].
    + left. by rewrite !lookup_insert_eq.
    + rewrite !lookup_insert_ne by done.
      destruct Hk as [Hk|Hk]; [by left|]. right.
      simpl in Hk. apply elem_of_cons in Hk as [Hk|Hk]; [done|done].
Qed.

Lemma store_descriptors_other (kvs : list (slot * descriptor))
    (d : gmap slot descriptor) (k : slot) :
  k ∉ kvs.*1 → store_descriptors kvs d !! k = d !! k.
Proof.
  revert d. induction kvs as [|[k' v] kvs IH]; intros d Hk; simpl; [done|].
  simpl in Hk. apply not_elem_of_cons in Hk as [Hne Hk].
  rewrite IH by done. by rewrite lookup_insert_ne.
Qed.

Lemma store_descriptors_stored (kvs : list (slot * descriptor))
    (d : gmap slot descriptor) (j : nat) (k : slot) (v : descriptor) :
  NoDup kvs.*1 → kvs !! j = Some (k, v) → store_descriptors kvs d !! k = Some v.
Proof.
  revert d j. induction kvs as [|[k' v'] kvs IH]; intros d j Hnd Hj; [done|].
  simpl in *. apply NoDup_cons in Hnd as [Hk' Hnd].
  destruct j as [|j]; simplify_eq/=.
  - rewrite store_descriptors_other by done. by rewrite lookup_insert_eq.
  - by eapply IH.
Qed.

Lemma apply_writes_agree (writes : list VkWriteDescriptorSet)
    (d1 d2 d1' d2' : gmap slot descriptor) (k : slot) :
  apply_writes writes d1 = Ok d1' →
  apply_writes writes d2 = Ok d2' →
  d1 !! k = d2 !! k ∨ k ∈ writes ≫= write_targets →
  d1' !! k = d2' !! k.
Proof.
  revert d1 d2. induction writes as [|write writes IH]; intros d1 d2 H1 H2 Hk.
  - simpl in *. simplify_eq. destruct Hk as [Hk|Hk]; [done|].
    by apply elem_of_nil in Hk.
  - simpl in H1, H2.
    apply bind_Ok in H1 as (ds & Hds & H1). rewrite Hds in H2. simpl in H2.
    apply (IH _ _ H1 H2).
    rewrite bind_cons, elem_of_app in Hk.
    destruct Hk as [Hk|[Hk|Hk]]; [| |by right].
    + left. apply store_descriptors_agree. by left.
    + left. apply store_descriptors_agree. right.
      rewrite write_slots_targets; [done|]. by apply write_contents_length.
Qed.

Lemma apply_writes_other (writes : list VkWriteDescriptorSet)
    (d d' : gmap slot descriptor) (k : slot) :
  apply_writes writes d = Ok d' →
  k ∉ writes ≫= write_targets →
  d' !! k = d !! k.
Proof.
  revert d. induction writes as [|write writes IH]; intros d Hd Hk.
  - simpl in Hd. by simplify_eq.
  - simpl in Hd. apply bind_Ok in Hd as (ds & Hds & Hd).
    rewrite bind_cons, not_elem_of_app in Hk. destruct Hk as [Hk1 Hk2].
    rewrite (IH _ Hd Hk2). apply store_descriptors_other.
    rewrite write_slots_targets; [done|]. by apply write_contents_length.
Qed.

(** ** The loops filling local arrays *)

Lemma take_fmap_lookup {A} (a : list (option A)) (l : list A) n i :
  take n a = Some <$> l → length l = n → (i < n)%nat →
  ∃ v, l !! i = Some v ∧ a !! i = Some (Some v).
Proof.
  intros Ht Hl Hi.
  destruct (lookup_lt_is_Some_2 l i) as [v Hv]; [lia|].
  exists v. split; [done|].
  rewrite <-(lookup_take_lt a n i) by done. by rewrite Ht, list_lookup_fmap, Hv.
Qed.

Lemma image_info_loop (samplers image_views : list (option Z))
    (ss vs : list Z) (n M : nat) :
  (n ≤ M)%nat →
  take n samplers = Some <$> ss → length ss = n →
  take n image_views = Some <$> vs → length vs = n →
  for_range 0 n (λ i a,
      s ← uarray_get samplers i;
      v ← uarray_get image_views i;
      array_set a i
        (Some {| sampler := s; imageView := v;
                 imageLayout := VK_IMAGE_LAYOUT_SHADER_READ_ONLY_OPTIMAL |}))
    (replicate M None)
  = Ok ((Some <$> zip_with image_info ss vs) ++ replicate (M - n) None).
Proof.
  intros HM HS Hss HV Hvs.
  edestruct (for_range_ok
    (λ i a, a = (Some <$> zip_with image_info (take i ss) (take i vs))
                ++ replicate (M - i) None)) as (a & Ha & HP);
    [| |rewrite Ha; f_equal; rewrite HP].
  - simpl. by rewrite Nat.sub_0_r.
  - intros i a Hi ->.
    destruct (take_fmap_lookup samplers ss n i) as (s & Hs & HSi); [done|done|lia|].
    destruct (take_fmap_lookup image_views vs n i) as (v & Hv & HVi); [done|done|lia|].
    eexists. split.
    + apply uarray_get_Ok in HSi, HVi. rewrite HSi. simpl. rewrite HVi. simpl.
      apply array_set_Ok. split; [|done].
      rewrite length_app, length_fmap, length_zip_with, !length_take,
        length_replicate. lia.
    + rewrite (take_S_r ss i s), (take_S_r vs i v) by done.
      rewrite zip_with_app by (rewrite !length_take; lia).
      rewrite fmap_app, <-app_assoc. simpl.
      replace (M - i)%nat with (S (M - S i)) by lia. simpl.
      set (pre := Some <$> zip_with image_info (take i ss) (take i vs)).
      assert (length pre = i) as Hpre.
      { unfold pre. rewrite length_fmap, length_zip_with, !length_take. lia. }
      rewrite insert_app_r_alt by lia. by rewrite Hpre, Nat.sub_diag.
  - simpl. by rewrite !take_ge by lia.
Qed.

Lemma read_image_infos_prefix (l : list VkDescriptorImageInfo) rest :
  read_image_infos ((Some <$> l) ++ rest) (length l) = Ok l.
Proof.
  apply read_image_infos_Ok. split; [|done].
  rewrite take_app_le by (rewrite length_fmap; lia).
  rewrite take_ge by (rewrite length_fmap; lia). done.
Qed.

Lemma write_targets_NoDup write : NoDup (write_targets write).
Proof.
  unfold write_targets. apply NoDup_fmap_2; [|apply NoDup_seq].
  intros i j Hij. simplify_eq. lia.
Qed.

Lemma elem_of_write_targets write (k : slot) :
  k ∈ write_targets write ↔
  ∃ j : nat, (j < Z.to_nat write.(descriptorCount))%nat ∧
    k = (write.(dstSet), write.(dstBinding), write.(dstArrayElement) + Z.of_nat j).
Proof.
  unfold write_targets. rewrite list_elem_of_fmap. split.
  - intros (j & -> & Hj). apply elem_of_seq in Hj. exists j. split; [lia|done].
  - intros (j & Hj & ->). exists j. split; [done|]. apply elem_of_seq. lia.
Qed.

(** The descriptors a write of image infos stores, slot by slot. *)
Lemma store_write_lookup (write : VkWriteDescriptorSet) (ds : list descriptor)
    (d : gmap slot descriptor) (j : nat) (v : descriptor) :
  length ds = Z.to_nat write.(descriptorCount) →
  ds !! j = Some v →
  store_descriptors (write_slots write ds) d
    !! (write.(dstSet), write.(dstBinding), write.(dstArrayElement) + Z.of_nat j)
  = Some v.
Proof.
  intros Hlen Hj. apply (store_descriptors_stored _ _ j).
  - rewrite write_slots_targets by done. apply write_targets_NoDup.
  - unfold write_slots. by rewrite list_lookup_imap, Hj.
Qed.

Lemma store_write_other (write : VkWriteDescriptorSet) (ds : list descriptor)
    (d : gmap slot descriptor) (k : slot) :
  length ds = Z.to_nat write.(descriptorCount) →
  k ∉ write_targets write →
  store_descriptors (write_slots write ds) d !! k = d !! k.
Proof.
  intros Hlen Hk. apply store_descriptors_other. by rewrite write_slots_targets.
Qed.

(** The layer-shape update as the single call it makes. *)
Lemma update_compute_layer_descriptor_set_call src_binding
    (src_samplers src_image_views : list Z) image_count target_binding
    target_image_view ubo_binding ubo_buffer ubo_size descriptor_set σ :
  0 ≤ image_count →
  (Z.to_nat image_count ≤ RENDER_MAX_IMAGES_SIZE)%nat →
  (Z.to_nat image_count ≤ length src_samplers)%nat →
  (Z.to_nat image_count ≤ length src_image_views)%nat →
  update_compute_layer_descriptor_set src_binding
    (Some <$> src_samplers) (Some <$> src_image_views) image_count
    target_binding target_image_view ubo_binding ubo_buffer ubo_size
    descriptor_set σ
  = vkUpdateDescriptorSets [
      {| dstSet := descriptor_set; dstBinding := src_binding;
         dstArrayElement := 0; descriptorCount := image_count;
         descriptorType := VK_DESCRIPTOR_TYPE_COMBINED_IMAGE_SAMPLER;
         pImageInfo :=
           (Some <$> zip_with image_info
                       (take (Z.to_nat image_count) src_samplers)
                       (take (Z.to_nat image_count) src_image_views))
           ++ replicate (RENDER_MAX_IMAGES_SIZE - Z.to_nat image_count) None;
         pBufferInfo := [] |};
      {| dstSet := descriptor_set; dstBinding := target_binding;
         dstArrayElement := 0; descriptorCount := 1;
         descriptorType := VK_DESCRIPTOR_TYPE_STORAGE_IMAGE;
         pImageInfo := [Some (target_info target_image_view)];
         pBufferInfo := [] |};
      {| dstSet := descriptor_set; dstBinding := ubo_binding;
         dstArrayElement := 0; descriptorCount := 1;
         descriptorType := VK_DESCRIPTOR_TYPE_UNIFORM_BUFFER;
         pImageInfo := []; pBufferInfo := [ubo_info ubo_buffer ubo_size] |}
    ] σ.
Proof.
  intros Hn HM Hs Hv. unfold update_compute_layer_descriptor_set, for_upto.
  rewrite (image_info_loop _ _ (take (Z.to_nat image_count) src_samplers)
             (take (Z.to_nat image_count) src_image_views)); [done|done|..].
  - by rewrite fmap_take.
  - by rewrite length_take_le.
  - by rewrite fmap_take.
  - by rewrite length_take_le.
Qed.


(** C9: for an image count [N] within [RENDER_MAX_IMAGES_SIZE] (and source
    arrays holding at least [N] entries, bindings pairwise distinct) the
    layer-shape update makes one [vkUpdateDescriptorSets] call with three
    writes: [N] combined image-samplers at the source binding, one storage
    image at the target binding and one uniform buffer at the uniform
    binding; afterwards exactly these [N + 2] slots hold the given entries
    and every other slot is as before. *)
Theorem layer_descriptor_update_exact src_binding
    (src_samplers src_image_views : list Z) image_count target_binding
    target_image_view ubo_binding ubo_buffer ubo_size descriptor_set σ :
  0 ≤ image_count →
  (Z.to_nat image_count ≤ RENDER_MAX_IMAGES_SIZE)%nat →
  (Z.to_nat image_count ≤ length src_samplers)%nat →
  (Z.to_nat image_count ≤ length src_image_views)%nat →
  src_binding ≠ target_binding →
  src_binding ≠ ubo_binding →
  target_binding ≠ ubo_binding →
  ∃ σ' src_image_info,
    update_compute_layer_descriptor_set src_binding
      (Some <$> src_samplers) (Some <$> src_image_views) image_count
      target_binding target_image_view ubo_binding ubo_buffer ubo_size
      descriptor_set σ = Ok σ' ∧
    σ'.(descriptor_updates) = σ.(descriptor_updates) ++ [[
      {| dstSet := descriptor_set; dstBinding := src_binding;
         dstArrayElement := 0; descriptorCount := image_count;
         descriptorType := VK_DESCRIPTOR_TYPE_COMBINED_IMAGE_SAMPLER;
         pImageInfo := src_image_info; pBufferInfo := [] |};
      {| dstSet := descriptor_set; dstBinding := target_binding;
         dstArrayElement := 0; descriptorCount := 1;
         descriptorType := VK_DESCRIPTOR_TYPE_STORAGE_IMAGE;
         pImageInfo := [Some (target_info target_image_view)];
         pBufferInfo := [] |};
      {| dstSet := descriptor_set; dstBinding := ubo_binding;
         dstArrayElement := 0; descriptorCount := 1;
         descriptorType := VK_DESCRIPTOR_TYPE_UNIFORM_BUFFER;
         pImageInfo := []; pBufferInfo := [ubo_info ubo_buffer ubo_size] |}]] ∧
    (∀ (j : nat) s v,
       (j < Z.to_nat image_count)%nat →
       src_samplers !! j = Some s → src_image_views !! j = Some v →
       σ'.(descriptors) !! (descriptor_set, src_binding, Z.of_nat j)
       = Some (ImageDescriptor VK_DESCRIPTOR_TYPE_COMBINED_IMAGE_SAMPLER
                 (image_info s v))) ∧
    σ'.(descriptors) !! (descriptor_set, target_binding, 0)
    = Some (ImageDescriptor VK_DESCRIPTOR_TYPE_STORAGE_IMAGE
              (target_info target_image_view)) ∧
    σ'.(descriptors) !! (descriptor_set, ubo_binding, 0)
    = Some (BufferDescriptor VK_DESCRIPTOR_TYPE_UNIFORM_BUFFER
              (ubo_info ubo_buffer ubo_size)) ∧
    length (layer_shape_slots descriptor_set src_binding target_binding
              ubo_binding image_count) = (Z.to_nat image_count + 2)%nat ∧
    (∀ k : slot,
       k ∉ layer_shape_slots descriptor_set src_binding target_binding
             ubo_binding image_count →
       σ'.(descriptors) !! k = σ.(descriptors) !! k).
Proof.
  intros Hn HM Hs Hv Hst Hsu Htu.
  rewrite update_compute_layer_descriptor_set_call by done.
  set (n := Z.to_nat image_count).
  set (infos := zip_with image_info (take n src_samplers) (take n src_image_views)).
  assert (length infos = n) as Hinfos.
  { unfold infos. rewrite length_zip_with, !length_take. lia. }
  unfold vkUpdateDescriptorSets, apply_writes, write_contents. simpl.
  fold n.
  pose proof (read_image_infos_prefix infos
                (replicate (RENDER_MAX_IMAGES_SIZE - n) None)) as Hread.
  rewrite Hinfos in Hread. fold infos. rewrite Hread. simpl.
  eexists _, _. split; [reflexivity|]. simpl. split; [reflexivity|].
  set (w1 := {| dstSet := descriptor_set; dstBinding := src_binding;
                dstArrayElement := 0; descriptorCount := image_count;
                descriptorType := VK_DESCRIPTOR_TYPE_COMBINED_IMAGE_SAMPLER;
                pImageInfo := _; pBufferInfo := [] |}).
  set (ds := ImageDescriptor VK_DESCRIPTOR_TYPE_COMBINED_IMAGE_SAMPLER <$> infos).
  assert (length ds = Z.to_nat (descriptorCount w1)) as Hds.
  { unfold ds. by rewrite length_fmap. }
  repeat split.
  - intros j s v Hj Hsj Hvj.
    rewrite lookup_insert_ne by (intros ?; simplify_eq).
    rewrite lookup_insert_ne by (intros ?; simplify_eq).
    apply (store_write_lookup w1 ds _ j); [done|].
    unfold ds, infos. rewrite list_lookup_fmap, lookup_zip_with.
    rewrite !lookup_take_lt by done. by rewrite Hsj, Hvj.
  - rewrite lookup_insert_ne by (intros ?; simplify_eq).
    by rewrite lookup_insert_eq.
  - by rewrite lookup_insert_eq.
  - unfold layer_shape_slots. rewrite length_app, length_fmap, length_seq. simpl. lia.
  - intros k Hk. unfold layer_shape_slots in Hk.
    rewrite !not_elem_of_app, !not_elem_of_cons in Hk.
    destruct Hk as (Hk1 & Hk2 & Hk3 & _).
    rewrite !lookup_insert_ne by done.
    apply (store_write_other w1 ds); [done|]. done.
Qed.


Lemma index3_no_wrap (i : nat) (k : Z) :
  (i < XRT_MAX_VIEWS)%nat → 3 * Z.of_nat XRT_MAX_VIEWS ≤ UINT32_MAX → 0 ≤ k ≤ 2 →
  index3 i k = (3 * i + Z.to_nat k)%nat.
Proof.
  unfold UINT32_MAX. intros Hi HM Hk. unfold index3.
  rewrite (uint32_wrap_small (3 * Z.of_nat i)) by lia.
  rewrite uint32_wrap_small by lia. lia.
Qed.

Lemma insert_three {A} (pre rest : list (option A)) (v : A) (i : nat) :
  length pre = i →
  <[(i + 2)%nat := Some v]>
    (<[(i + 1)%nat := Some v]>
       (<[(i + 0)%nat := Some v]> (pre ++ None :: None :: None :: rest)))
  = pre ++ Some v :: Some v :: Some v :: rest.
Proof.
  intros <-. rewrite !insert_app_r. done.
Qed.

(** The three-per-view loop stores [sampler] into the first [3 * n] entries. *)
Lemma fill_distortion_samplers_closed (view_count sampler : Z) :
  views_fit view_count →
  fill_distortion_samplers view_count sampler
  = Ok (replicate (3 * Z.to_nat view_count) (Some sampler) ++
        replicate (3 * XRT_MAX_VIEWS - 3 * Z.to_nat view_count) None).
Proof.
  intros (Hvc & Hn & HM). unfold fill_distortion_samplers, for_upto.
  set (n := Z.to_nat view_count) in *.
  edestruct (for_range_ok
    (λ i (a : list (option Z)),
       a = replicate (3 * i) (Some sampler) ++
           replicate (3 * XRT_MAX_VIEWS - 3 * i) None)) as (a & Ha & HP);
    [| |rewrite Ha; f_equal; exact HP].
  - simpl. by rewrite Nat.sub_0_r.
  - intros i a Hi ->.
    rewrite !index3_no_wrap by lia.
    replace (3 * XRT_MAX_VIEWS - 3 * i)%nat
      with (3 + (3 * XRT_MAX_VIEWS - 3 * S i))%nat by lia.
    cbn [replicate Nat.add].
    set (pre := replicate (3 * i) (Some sampler)).
    set (rest := replicate (3 * XRT_MAX_VIEWS - 3 * S i) None).
    assert (length pre = (3 * i)%nat) as Hpre by apply length_replicate.
    assert (length (pre ++ None :: None :: None :: rest) = (3 * XRT_MAX_VIEWS)%nat)
      as Hlen.
    { rewrite length_app, Hpre. simpl. unfold rest. rewrite length_replicate. lia. }
    eexists. split.
    + unfold array_set. rewrite decide_True by lia. simpl.
      rewrite decide_True by (rewrite length_insert; lia). simpl.
      rewrite decide_True by (rewrite !length_insert; lia). reflexivity.
    + change (Z.to_nat 0) with 0%nat. change (Z.to_nat 1) with 1%nat.
      change (Z.to_nat 2) with 2%nat.
      etrans; [exact (insert_three pre rest sampler (3 * i) Hpre)|].
      replace (3 * S i)%nat with (3 * i + 3)%nat by lia.
      rewrite replicate_add. unfold pre. by rewrite <-app_assoc.
Qed.


Lemma fill_clear_arrays_closed (view_count sampler image_view : Z) :
  views_fit view_count →
  fill_clear_arrays view_count sampler image_view
  = Ok (replicate (Z.to_nat view_count) (Some sampler) ++
          replicate (XRT_MAX_VIEWS - Z.to_nat view_count) None,
        replicate (Z.to_nat view_count) (Some image_view) ++
          replicate (XRT_MAX_VIEWS - Z.to_nat view_count) None,
        replicate (3 * Z.to_nat view_count) (Some sampler) ++
          replicate (3 * XRT_MAX_VIEWS - 3 * Z.to_nat view_count) None).
Proof.
  intros (Hvc & Hn & HM). unfold fill_clear_arrays, for_upto.
  set (n := Z.to_nat view_count) in *.
  edestruct (for_range_ok
    (λ i (a : list (option Z) * list (option Z) * list (option Z)),
       a = (replicate i (Some sampler) ++ replicate (XRT_MAX_VIEWS - i) None,
            replicate i (Some image_view) ++ replicate (XRT_MAX_VIEWS - i) None,
            replicate (3 * i) (Some sampler) ++
              replicate (3 * XRT_MAX_VIEWS - 3 * i) None)))
    as (a & Ha & HP); [| |rewrite Ha; f_equal; exact HP].
  - simpl. by rewrite !Nat.sub_0_r.
  - intros i a Hi ->.
    rewrite !index3_no_wrap by lia.
    replace (3 * XRT_MAX_VIEWS - 3 * i)%nat
      with (3 + (3 * XRT_MAX_VIEWS - 3 * S i))%nat by lia.
    replace (XRT_MAX_VIEWS - i)%nat with (S (XRT_MAX_VIEWS - S i)) by lia.
    cbn [replicate Nat.add].
    eexists. split.
    + unfold array_set.
      repeat (rewrite decide_True
                by (rewrite ?length_insert, ?length_app; simpl;
                    rewrite ?length_replicate; lia);
              cbn [mbind result_bind]).
      reflexivity.
    + change (Z.to_nat 0) with 0%nat. change (Z.to_nat 1) with 1%nat.
      change (Z.to_nat 2) with 2%nat.
      rewrite (insert_three (replicate (3 * i) (Some sampler)))
        by apply length_replicate.
      assert (∀ (v : Z) (rest : list (option Z)),
                <[i := Some v]> (replicate i (Some v) ++ None :: rest)
                = replicate (S i) (Some v) ++ rest) as Hone.
      { intros v rest. rewrite insert_app_r_alt by (rewrite length_replicate; lia).
        rewrite length_replicate, Nat.sub_diag, replicate_S_end, <-app_assoc.
        done. }
      rewrite !Hone. f_equal.
      replace (3 * S i)%nat with (3 * i + 3)%nat by lia.
      by rewrite (replicate_add (3 * i) 3), <-app_assoc.
Qed.


Lemma views_fit_distortion_count (view_count : Z) :
  views_fit view_count →
  uint32_wrap (3 * view_count) = 3 * view_count ∧
  Z.to_nat (3 * view_count) = (3 * Z.to_nat view_count)%nat.
Proof.
  unfold views_fit, UINT32_MAX. intros (Hvc & Hn & HM).
  split; [apply uint32_wrap_small|]; lia.
Qed.

(** The shared-shape update as the single call it makes. *)
Lemma update_compute_shared_descriptor_set_call src_binding
    (src_samplers src_image_views : list (option Z)) distortion_binding
    (distortion_samplers distortion_image_views : list (option Z))
    target_binding target_image_view ubo_binding ubo_buffer ubo_size
    descriptor_set view_count (ss vs dss dvs : list Z) σ :
  views_fit view_count →
  take (Z.to_nat view_count) src_samplers = Some <$> ss →
  length ss = Z.to_nat view_count →
  take (Z.to_nat view_count) src_image_views = Some <$> vs →
  length vs = Z.to_nat view_count →
  take (3 * Z.to_nat view_count) distortion_samplers = Some <$> dss →
  length dss = (3 * Z.to_nat view_count)%nat →
  take (3 * Z.to_nat view_count) distortion_image_views = Some <$> dvs →
  length dvs = (3 * Z.to_nat view_count)%nat →
  update_compute_shared_descriptor_set src_binding src_samplers src_image_views
    distortion_binding distortion_samplers distortion_image_views
    target_binding target_image_view ubo_binding ubo_buffer ubo_size
    descriptor_set view_count σ
  = vkUpdateDescriptorSets [
      {| dstSet := descriptor_set; dstBinding := src_binding;
         dstArrayElement := 0; descriptorCount := view_count;
         descriptorType := VK_DESCRIPTOR_TYPE_COMBINED_IMAGE_SAMPLER;
         pImageInfo :=
           (Some <$> zip_with image_info ss vs)
           ++ replicate (XRT_MAX_VIEWS - Z.to_nat view_count) None;
         pBufferInfo := [] |};
      {| dstSet := descriptor_set; dstBinding := distortion_binding;
         dstArrayElement := 0; descriptorCount := 3 * view_count;
         descriptorType := VK_DESCRIPTOR_TYPE_COMBINED_IMAGE_SAMPLER;
         pImageInfo :=
           (Some <$> zip_with image_info dss dvs)
           ++ replicate (3 * XRT_MAX_VIEWS - 3 * Z.to_nat view_count) None;
         pBufferInfo := [] |};
      {| dstSet := descriptor_set; dstBinding := target_binding;
         dstArrayElement := 0; descriptorCount := 1;
         descriptorType := VK_DESCRIPTOR_TYPE_STORAGE_IMAGE;
         pImageInfo := [Some (target_info target_image_view)];
         pBufferInfo := [] |};
      {| dstSet := descriptor_set; dstBinding := ubo_binding;
         dstArrayElement := 0; descriptorCount := 1;
         descriptorType := VK_DESCRIPTOR_TYPE_UNIFORM_BUFFER;
         pImageInfo := []; pBufferInfo := [ubo_info ubo_buffer ubo_size] |}
    ] σ.
Proof.
  intros Hfit Hss Hssl Hvs Hvsl Hdss Hdssl Hdvs Hdvsl.
  destruct (views_fit_distortion_count _ Hfit) as [Hwrap Hnat].
  destruct Hfit as (Hvc & Hn & HM).
  unfold update_compute_shared_descriptor_set, for_upto.
  rewrite Hwrap, Hnat.
  rewrite (image_info_loop _ _ ss vs (Z.to_nat view_count) XRT_MAX_VIEWS)
    by done.
  cbn [mbind result_bind].
  rewrite (image_info_loop _ _ dss dvs (3 * Z.to_nat view_count)
             (3 * XRT_MAX_VIEWS)) by (done || lia).
  reflexivity.
Qed.

(** The four writes of the shared shape go through. *)
Lemma shared_writes_apply descriptor_set src_binding distortion_binding
    target_binding ubo_binding view_count
    (infos dinfos : list VkDescriptorImageInfo)
    (rest drest : list (option VkDescriptorImageInfo))
    target_image_view ubo_buffer ubo_size σ :
  length infos = Z.to_nat view_count →
  length dinfos = Z.to_nat (3 * view_count) →
  ∃ σ', vkUpdateDescriptorSets [
      {| dstSet := descriptor_set; dstBinding := src_binding;
         dstArrayElement := 0; descriptorCount := view_count;
         descriptorType := VK_DESCRIPTOR_TYPE_COMBINED_IMAGE_SAMPLER;
         pImageInfo := (Some <$> infos) ++ rest; pBufferInfo := [] |};
      {| dstSet := descriptor_set; dstBinding := distortion_binding;
         dstArrayElement := 0; descriptorCount := 3 * view_count;
         descriptorType := VK_DESCRIPTOR_TYPE_COMBINED_IMAGE_SAMPLER;
         pImageInfo := (Some <$> dinfos) ++ drest; pBufferInfo := [] |};
      {| dstSet := descriptor_set; dstBinding := target_binding;
         dstArrayElement := 0; descriptorCount := 1;
         descriptorType := VK_DESCRIPTOR_TYPE_STORAGE_IMAGE;
         pImageInfo := [Some (target_info target_image_view)];
         pBufferInfo := [] |};
      {| dstSet := descriptor_set; dstBinding := ubo_binding;
         dstArrayElement := 0; descriptorCount := 1;
         descriptorType := VK_DESCRIPTOR_TYPE_UNIFORM_BUFFER;
         pImageInfo := []; pBufferInfo := [ubo_info ubo_buffer ubo_size] |}
    ] σ = Ok σ'.
Proof.
  intros Hinfos Hdinfos.
  unfold vkUpdateDescriptorSets, apply_writes, write_contents.
  cbn [descriptorType descriptorCount pImageInfo pBufferInfo].
  rewrite <-Hinfos, <-Hdinfos, !read_image_infos_prefix.
  simpl. eauto.
Qed.


(** ** The passes return *)

Lemma calc_dispatch_dims_views_reads (views : list render_viewport_data)
    (view_count : Z) (wh : Z * Z) :
  calc_dispatch_dims_views views view_count = Ok wh →
  (Z.to_nat view_count ≤ length views)%nat.
Proof.
  unfold calc_dispatch_dims_views, for_upto.
  intros (acc & Hloop & _)%bind_Ok.
  apply (for_range_inv (λ i _, (i ≤ length views)%nat)) in Hloop; [done|simpl; lia|].
  intros i a a' Hi _ (v & Hv%array_get_Ok & _)%bind_Ok.
  apply lookup_lt_Some in Hv. lia.
Qed.

Lemma array_set_lt {A} (a : list A) (i : nat) (v : A) :
  (i < length a)%nat → array_set a i v = Ok (<[i := v]> a).
Proof. intros Hi. unfold array_set. by rewrite decide_True. Qed.

Lemma take_fmap_Some {A} (l : list A) (n : nat) :
  take n (Some <$> l) = Some <$> take n l.
Proof. by rewrite fmap_take. Qed.

Lemma take_filled {A} (v : A) (n : nat) (rest : list (option A)) :
  take n (replicate n (Some v) ++ rest) = Some <$> replicate n v.
Proof.
  rewrite take_app_length' by by rewrite length_replicate.
  by rewrite fmap_replicate.
Qed.

Lemma c_assert_nonzero (gw gh : Z) :
  gw ≠ 0 → gh ≠ 0 → c_assert (bool_decide (gw ≠ 0) && bool_decide (gh ≠ 0)) = Ok ().
Proof. intros. by rewrite !bool_decide_eq_true_2. Qed.

Lemma ubo_views_loop_ok (views : list render_viewport_data) (n : nat)
    (data : render_compute_distortion_ubo_data) :
  (n ≤ length views)%nat → (n ≤ length data.(ubo.views))%nat →
  ∃ data', for_range 0 n (λ i data,
      view ← array_get views i;
      data_views ← array_set data.(ubo.views) i view;
      Ok {| ubo.views := data_views;
            ubo.pre_transforms := data.(ubo.pre_transforms);
            ubo.transforms := data.(ubo.transforms);
            ubo.post_transforms := data.(ubo.post_transforms) |}) data = Ok data'.
Proof.
  intros Hv Hd.
  edestruct (for_range_ok
    (λ (i : nat) (d : render_compute_distortion_ubo_data),
       length d.(ubo.views) = length data.(ubo.views))) as (d & Hd' & _);
    [| |eauto]; [done|].
  intros i d Hi Hlen.
  destruct (lookup_lt_is_Some_2 views i) as [view Hview]; [lia|].
  eexists. split.
  - apply array_get_Ok in Hview. rewrite Hview. cbn [mbind result_bind].
    rewrite array_set_lt by lia. reflexivity.
  - simpl. by rewrite length_insert.
Qed.

Lemma ubo_projection_loop_ok (views : list render_viewport_data)
    (src_norm_rects : list xrt_normalized_rect) (n : nat)
    (data : render_compute_distortion_ubo_data) :
  (n ≤ length views)%nat → (n ≤ length src_norm_rects)%nat → ubo_fits n data →
  ∃ data', for_range 0 n (λ i data,
      view ← array_get views i;
      data_views ← array_set data.(ubo.views) i view;
      post_transform ← array_get src_norm_rects i;
      data_post_transforms ← array_set data.(ubo.post_transforms) i post_transform;
      Ok {| ubo.views := data_views;
            ubo.pre_transforms := data.(ubo.pre_transforms);
            ubo.transforms := data.(ubo.transforms);
            ubo.post_transforms := data_post_transforms |}) data = Ok data'.
Proof.
  intros Hv Hr (Hd1 & _ & _ & Hd4).
  edestruct (for_range_ok
    (λ (i : nat) (d : render_compute_distortion_ubo_data),
       length d.(ubo.views) = length data.(ubo.views) ∧
       length d.(ubo.post_transforms) = length data.(ubo.post_transforms)))
    as (d & Hd' & _); [| |eauto]; [done|].
  intros i d Hi [Hlen1 Hlen4].
  destruct (lookup_lt_is_Some_2 views i) as [view Hview]; [lia|].
  destruct (lookup_lt_is_Some_2 src_norm_rects i) as [rect Hrect]; [lia|].
  eexists. split.
  - apply array_get_Ok in Hview, Hrect. rewrite Hview. cbn [mbind result_bind].
    rewrite array_set_lt by lia. cbn [mbind result_bind].
    rewrite Hrect. cbn [mbind result_bind].
    rewrite array_set_lt by lia. reflexivity.
  - simpl. by rewrite !length_insert.
Qed.

Lemma time_warp_loop_closed (src_poses : list xrt_pose) (src_fovs : list xrt_fov)
    (new_poses : list xrt_pose) (n : nat) :
  (n ≤ XRT_MAX_VIEWS)%nat →
  (n ≤ length src_poses)%nat → (n ≤ length src_fovs)%nat →
  (n ≤ length new_poses)%nat →
  ∃ time_warp_matrix,
    for_range 0 n (λ i time_warp_matrix,
      src_pose ← array_get src_poses i;
      src_fov ← array_get src_fovs i;
      new_pose ← array_get new_poses i;
      array_set time_warp_matrix i
        (Some (render_calc_time_warp_matrix src_pose src_fov new_pose)))
      (replicate XRT_MAX_VIEWS None) = Ok time_warp_matrix ∧
    ∀ i, (i < n)%nat → is_Some (time_warp_matrix !! i ≫= id).
Proof.
  intros HM Hp Hf Hn.
  edestruct (for_range_ok
    (λ (i : nat) (m : list (option xrt_matrix_4x4)),
       length m = XRT_MAX_VIEWS ∧
       ∀ j, (j < i)%nat → is_Some (m !! j ≫= id))) as (m & Hm & _ & HP);
    [| |eauto].
  - split; [apply length_replicate|]. intros j Hj. lia.
  - intros i m Hi [Hlen Hdone].
    destruct (lookup_lt_is_Some_2 src_poses i) as [p Hpi]; [lia|].
    destruct (lookup_lt_is_Some_2 src_fovs i) as [f Hfi]; [lia|].
    destruct (lookup_lt_is_Some_2 new_poses i) as [np Hni]; [lia|].
    eexists. split.
    + apply array_get_Ok in Hpi, Hfi, Hni. rewrite Hpi. cbn [mbind result_bind].
      rewrite Hfi. cbn [mbind result_bind]. rewrite Hni. cbn [mbind result_bind].
      rewrite array_set_lt by lia. reflexivity.
    + split; [by rewrite length_insert|].
      intros j Hj. destruct (decide (j = i)) as [->|Hne].
      * rewrite list_lookup_insert_eq by lia. by eexists.
      * rewrite list_lookup_insert_ne by done. apply Hdone. lia.
Qed.

Lemma ubo_timewarp_loop_ok (views : list render_viewport_data)
    (pre : list xrt_normalized_rect)
    (time_warp_matrix : list (option xrt_matrix_4x4))
    (src_norm_rects : list xrt_normalized_rect) (n : nat)
    (data : render_compute_distortion_ubo_data) :
  (n ≤ length views)%nat → (n ≤ length pre)%nat →
  (∀ i, (i < n)%nat → is_Some (time_warp_matrix !! i ≫= id)) →
  (n ≤ length src_norm_rects)%nat → ubo_fits n data →
  ∃ data', for_range 0 n (λ i data,
      view ← array_get views i;
      data_views ← array_set data.(ubo.views) i view;
      pre_transform ← array_get pre i;
      data_pre_transforms ← array_set data.(ubo.pre_transforms) i pre_transform;
      transform ← uarray_get time_warp_matrix i;
      data_transforms ← array_set data.(ubo.transforms) i transform;
      post_transform ← array_get src_norm_rects i;
      data_post_transforms ← array_set data.(ubo.post_transforms) i post_transform;
      Ok {| ubo.views := data_views;
            ubo.pre_transforms := data_pre_transforms;
            ubo.transforms := data_transforms;
            ubo.post_transforms := data_post_transforms |}) data = Ok data'.
Proof.
  intros Hv Hp Htw Hr (Hd1 & Hd2 & Hd3 & Hd4).
  edestruct (for_range_ok
    (λ (i : nat) (d : render_compute_distortion_ubo_data),
       length d.(ubo.views) = length data.(ubo.views) ∧
       length d.(ubo.pre_transforms) = length data.(ubo.pre_transforms) ∧
       length d.(ubo.transforms) = length data.(ubo.transforms) ∧
       length d.(ubo.post_transforms) = length data.(ubo.post_transforms)))
    as (d & Hd' & _); [| |eauto]; [done|].
  intros i d Hi (Hlen1 & Hlen2 & Hlen3 & Hlen4).
  destruct (lookup_lt_is_Some_2 views i) as [view Hview]; [lia|].
  destruct (lookup_lt_is_Some_2 pre i) as [p Hpi]; [lia|].
  destruct (lookup_lt_is_Some_2 src_norm_rects i) as [rect Hrect]; [lia|].
  destruct (Htw i) as [m Hm]; [lia|].
  assert (uarray_get time_warp_matrix i = Ok m) as Hmi.
  { apply uarray_get_Ok. destruct (time_warp_matrix !! i) as [[]|]; by simplify_eq/=. }
  eexists. split.
  - apply array_get_Ok in Hview, Hpi, Hrect.
    rewrite Hview. cbn [mbind result_bind].
    rewrite array_set_lt by lia. cbn [mbind result_bind].
    rewrite Hpi. cbn [mbind result_bind].
    rewrite array_set_lt by lia. cbn [mbind result_bind].
    rewrite Hmi. cbn [mbind result_bind].
    rewrite array_set_lt by lia. cbn [mbind result_bind].
    rewrite Hrect. cbn [mbind result_bind].
    rewrite array_set_lt by lia. reflexivity.
  - simpl. by rewrite !length_insert.
Qed.


Lemma shared_update_returns (rs : render_resources) (render : render_compute)
    (src_samplers src_image_views : list (option Z)) (ss vs : list Z)
    (sampler target_image_view ubo_buffer : Z) (rest : list (option Z)) σ :
  views_fit rs.(view_count) →
  take (Z.to_nat rs.(view_count)) src_samplers = Some <$> ss →
  length ss = Z.to_nat rs.(view_count) →
  take (Z.to_nat rs.(view_count)) src_image_views = Some <$> vs →
  length vs = Z.to_nat rs.(view_count) →
  (3 * Z.to_nat rs.(view_count) ≤ length rs.(distortion_image_views))%nat →
  ∃ σ', update_compute_shared_descriptor_set
    rs.(compute_src_binding) src_samplers src_image_views
    rs.(compute_distortion_binding)
    (replicate (3 * Z.to_nat rs.(view_count)) (Some sampler) ++ rest)
    (Some <$> rs.(distortion_image_views))
    rs.(compute_target_binding) target_image_view
    rs.(compute_ubo_binding) ubo_buffer VK_WHOLE_SIZE
    render.(shared_descriptor_set) rs.(view_count) σ = Ok σ'.
Proof.
  intros Hfit Hss Hssl Hvs Hvsl Hdist.
  destruct (views_fit_distortion_count _ Hfit) as [Hwrap Hnat].
  erewrite (update_compute_shared_descriptor_set_call _ _ _ _ _ _ _ _ _ _ _ _ _
              ss vs (replicate (3 * Z.to_nat rs.(view_count)) sampler)
              (take (3 * Z.to_nat rs.(view_count)) rs.(distortion_image_views)));
    try done.
  - apply shared_writes_apply.
    + rewrite length_zip_with. lia.
    + rewrite length_zip_with, length_replicate, length_take. lia.
  - apply take_filled.
  - apply length_replicate.
  - apply take_fmap_Some.
  - by rewrite length_take_le.
Qed.

Lemma render_compute_projection_returns render src_samplers src_image_views
    src_norm_rects target_image target_image_view views σ :
  projection_ready render src_samplers src_image_views src_norm_rects views σ →
  ∃ σ', render_compute_projection render src_samplers src_image_views
          src_norm_rects target_image target_image_view views σ = Ok σ'.
Proof.
  intros (rs & data & Hr & Hfit & Hmap & Hubo & Hss & Hvs & Hrects & Hdist &
          gw & gh & Hdims & Hgw & Hgh).
  pose proof (calc_dispatch_dims_views_reads _ _ _ Hdims) as Hviews.
  unfold render_compute_projection, assert_attached, load_ubo.
  rewrite Hr. cbn [mbind result_bind]. rewrite Hmap. cbn [mbind result_bind].
  destruct (ubo_projection_loop_ok views src_norm_rects
              (Z.to_nat rs.(view_count)) data) as (data' & Hdata'); [done..|].
  unfold for_upto. rewrite Hdata'. cbn [mbind result_bind].
  rewrite fill_distortion_samplers_closed by done. cbn [mbind result_bind].
  edestruct (shared_update_returns rs render
               (Some <$> src_samplers) (Some <$> src_image_views)
               (take (Z.to_nat rs.(view_count)) src_samplers)
               (take (Z.to_nat rs.(view_count)) src_image_views))
    as (σu & Hσu);
    [done|apply take_fmap_Some|by rewrite length_take_le
    |apply take_fmap_Some|by rewrite length_take_le|done|].
  rewrite Hσu. cbn [mbind result_bind]. rewrite Hdims. cbn [mbind result_bind].
  rewrite c_assert_nonzero by done. cbn [mbind result_bind]. eauto.
Qed.

Lemma render_compute_projection_timewarp_returns render src_samplers
    src_image_views src_norm_rects src_poses src_fovs new_poses target_image
    target_image_view views σ :
  projection_timewarp_ready render src_samplers src_image_views src_norm_rects
    src_poses src_fovs new_poses views σ →
  ∃ σ', render_compute_projection_timewarp render src_samplers src_image_views
          src_norm_rects src_poses src_fovs new_poses target_image
          target_image_view views σ = Ok σ'.
Proof.
  intros [(rs & data & Hr & Hfit & Hmap & Hubo & Hss & Hvs & Hrects & Hdist &
           gw & gh & Hdims & Hgw & Hgh)
          (rs' & Hr' & Hpre & Hposes & Hfovs & Hnew)].
  assert (rs' = rs) as -> by congruence.
  pose proof (calc_dispatch_dims_views_reads _ _ _ Hdims) as Hviews.
  unfold render_compute_projection_timewarp, assert_attached, load_ubo.
  rewrite Hr. cbn [mbind result_bind].
  destruct (time_warp_loop_closed src_poses src_fovs new_poses
              (Z.to_nat rs.(view_count))) as (tw & Htw & Htwi);
    [apply Hfit|done..|].
  unfold for_upto. rewrite Htw. cbn [mbind result_bind].
  rewrite Hmap. cbn [mbind result_bind].
  destruct (ubo_timewarp_loop_ok views rs.(distortion_uv_to_tanangle) tw
              src_norm_rects (Z.to_nat rs.(view_count)) data)
    as (data' & Hdata'); [done..|].
  unfold for_upto. rewrite Hdata'. cbn [mbind result_bind].
  rewrite fill_distortion_samplers_closed by done. cbn [mbind result_bind].
  edestruct (shared_update_returns rs render
               (Some <$> src_samplers) (Some <$> src_image_views)
               (take (Z.to_nat rs.(view_count)) src_samplers)
               (take (Z.to_nat rs.(view_count)) src_image_views))
    as (σu & Hσu);
    [done|apply take_fmap_Some|by rewrite length_take_le
    |apply take_fmap_Some|by rewrite length_take_le|done|].
  rewrite Hσu. cbn [mbind result_bind]. rewrite Hdims. cbn [mbind result_bind].
  rewrite c_assert_nonzero by done. cbn [mbind result_bind]. eauto.
Qed.

Lemma identity_loop_ok (n : nat) :
  (n ≤ XRT_MAX_VIEWS)%nat →
  ∃ transforms, for_range 0 n (λ i transforms,
      array_set transforms i (Some math_matrix_4x4_identity))
    (replicate XRT_MAX_VIEWS None) = Ok transforms.
Proof.
  intros Hn.
  edestruct (for_range_ok
    (λ (i : nat) (m : list (option xrt_matrix_4x4)), length m = XRT_MAX_VIEWS))
    as (m & Hm & _); [| |eauto]; [apply length_replicate|].
  intros i m Hi Hlen. eexists. split.
  - rewrite array_set_lt by lia. reflexivity.
  - by rewrite length_insert.
Qed.

Lemma render_compute_clear_returns render target_image target_image_view
    views σ :
  clear_ready render views σ →
  ∃ σ', render_compute_clear render target_image target_image_view views σ
        = Ok σ'.
Proof.
  intros (rs & data & Hr & Hfit & Hmap & Hubo & Hdist &
          gw & gh & Hdims & Hgw & Hgh).
  pose proof (calc_dispatch_dims_views_reads _ _ _ Hdims) as Hviews.
  unfold render_compute_clear, assert_attached, load_ubo.
  rewrite Hr. cbn [mbind result_bind].
  destruct (identity_loop_ok (Z.to_nat rs.(view_count))) as (tr & Htr);
    [apply Hfit|].
  unfold for_upto. rewrite Htr. cbn [mbind result_bind].
  rewrite Hmap. cbn [mbind result_bind].
  destruct (ubo_views_loop_ok views (Z.to_nat rs.(view_count)) data)
    as (data' & Hdata'); [done..|].
  unfold for_upto. rewrite Hdata'. cbn [mbind result_bind].
  rewrite fill_clear_arrays_closed by done. cbn [mbind result_bind].
  edestruct (shared_update_returns rs render
               (replicate (Z.to_nat rs.(view_count)) (Some rs.(samplers_mock)) ++
                replicate (XRT_MAX_VIEWS - Z.to_nat rs.(view_count)) None)
               (replicate (Z.to_nat rs.(view_count))
                          (Some rs.(mock_color_image_view)) ++
                replicate (XRT_MAX_VIEWS - Z.to_nat rs.(view_count)) None)
               (replicate (Z.to_nat rs.(view_count)) rs.(samplers_mock))
               (replicate (Z.to_nat rs.(view_count)) rs.(mock_color_image_view)))
    as (σu & Hσu);
    [done|apply take_filled|apply length_replicate
    |apply take_filled|apply length_replicate|done|].
  rewrite Hσu. cbn [mbind result_bind]. rewrite Hdims. cbn [mbind result_bind].
  rewrite c_assert_nonzero by done. cbn [mbind result_bind]. eauto.
Qed.

Lemma render_compute_layers_returns render descriptor_set ubo src_samplers
    src_image_views num_srcs target_image_view view do_timewarp σ :
  layers_ready render src_samplers src_image_views num_srcs view →
  ∃ σ', render_compute_layers render descriptor_set ubo src_samplers
          src_image_views num_srcs target_image_view view do_timewarp σ = Ok σ'.
Proof.
  intros ([rs Hr] & Hn & HM & Hss & Hvs & Hgw & Hgh).
  unfold render_compute_layers, assert_attached.
  rewrite Hr. cbn [mbind result_bind].
  rewrite update_compute_layer_descriptor_set_call by done.
  unfold vkUpdateDescriptorSets, apply_writes, write_contents.
  cbn [descriptorType descriptorCount pImageInfo pBufferInfo].
  set (infos := zip_with image_info _ _).
  assert (length infos = Z.to_nat num_srcs) as Hinfos.
  { unfold infos. rewrite length_zip_with, !length_take. lia. }
  pose proof (read_image_infos_prefix infos
                (replicate (RENDER_MAX_IMAGES_SIZE - Z.to_nat num_srcs) None))
    as Hread.
  rewrite Hinfos in Hread. rewrite Hread. simpl.
  simpl in Hgw, Hgh. rewrite c_assert_nonzero by done. simpl. eauto.
Qed.


(** ** Initialisation and teardown *)

Lemma vk_create_descriptor_set_Ok descriptor_pool layout out σ ret set σ' pool :
  σ.(descriptor_pools) !! descriptor_pool = Some pool →
  vk_create_descriptor_set descriptor_pool layout out σ = Ok (ret, set, σ') →
  (ret = VK_SUCCESS ∧
   (length pool.(allocated_sets) < pool.(max_sets))%nat ∧
   set = σ.(next_handle) ∧
   σ'.(descriptor_pools) !! descriptor_pool
   = Some {| max_sets := pool.(max_sets);
             allocated_sets := set :: pool.(allocated_sets) |}) ∨
  (ret = VK_ERROR_OUT_OF_POOL_MEMORY ∧
   (pool.(max_sets) ≤ length pool.(allocated_sets))%nat ∧
   set = out ∧ σ' = σ).
Proof.
  intros Hpool. unfold vk_create_descriptor_set. rewrite Hpool.
  case_decide; intros; simplify_eq.
  - left. repeat split; [done|]. simpl. by rewrite lookup_insert_eq.
  - right. repeat split. lia.
Qed.

Lemma init_layer_descriptor_sets_Ok rs (count : nat) : ∀ i render σ ret render' σ' pool,
  σ.(descriptor_pools) !! rs.(compute_descriptor_pool) = Some pool →
  init_layer_descriptor_sets rs i count render σ = Ok (ret, render', σ') →
  render'.(r) = render.(r) ∧
  ∃ new,
    σ'.(descriptor_pools) !! rs.(compute_descriptor_pool)
    = Some {| max_sets := pool.(max_sets);
              allocated_sets := new ++ pool.(allocated_sets) |} ∧
    (length new ≤ count)%nat ∧
    (ret = VK_SUCCESS ∨
     (pool.(max_sets) ≤ length (new ++ pool.(allocated_sets)))%nat).
Proof.
  induction count as [|count IH]; intros i render σ ret render' σ' pool Hpool Hinit.
  - simpl in Hinit. simplify_eq. split; [done|]. exists []. simpl.
    destruct pool. eauto.
  - simpl in Hinit. invert_steps Hinit.
    destruct (vk_create_descriptor_set_Ok _ _ _ _ _ _ _ _ Hpool E0) as
      [(-> & Hcap & -> & Hpool')|(-> & Hfull & -> & ->)].
    + rewrite decide_True in Hinit by done.
      apply (IH _ _ _ _ _ _ _ Hpool') in Hinit as (Hr & new & Hnew & Hlen & Hret).
      split; [done|]. exists (new ++ [next_handle σ]). simpl in *.
      rewrite <-app_assoc. simpl. split; [done|]. split.
      * rewrite length_app. simpl. lia.
      * done.
    + rewrite decide_False in Hinit by done. simplify_eq.
      split; [done|]. exists []. simpl. destruct pool. simpl in *. eauto with lia.
Qed.

Lemma null_handles_loop (sets : list Z) :
  for_range 0 (length sets) (λ i sets, array_set sets i VK_NULL_HANDLE) sets
  = Ok (replicate (length sets) VK_NULL_HANDLE).
Proof.
  edestruct (for_range_ok
    (λ (i : nat) (a : list Z),
       a = replicate i VK_NULL_HANDLE ++ drop i sets)) as (a & Ha & HP);
    [| |rewrite Ha; f_equal; rewrite HP].
  - simpl. by rewrite drop_0.
  - intros i a Hi ->.
    destruct (lookup_lt_is_Some_2 sets i) as [v Hv]; [lia|].
    eexists. split.
    + rewrite array_set_lt; [done|].
      rewrite length_app, length_replicate, length_drop. lia.
    + rewrite (drop_S sets v i) by done.
      rewrite insert_app_r_alt by (rewrite length_replicate; lia).
      rewrite length_replicate, Nat.sub_diag.
      by rewrite replicate_S_end, <-app_assoc.
  - simpl. by rewrite drop_all, app_nil_r.
Qed.

Lemma render_compute_fini_attached render rs σ pool :
  render.(r) = Some rs →
  σ.(descriptor_pools) !! rs.(compute_descriptor_pool) = Some pool →
  ∃ render' σ',
    render_compute_fini render σ = Ok (render', σ') ∧
    render'.(r) = None ∧
    render'.(shared_descriptor_set) = VK_NULL_HANDLE ∧
    render'.(layer_descriptor_sets)
    = replicate (length render.(layer_descriptor_sets)) VK_NULL_HANDLE ∧
    σ'.(descriptor_pools) !! rs.(compute_descriptor_pool)
    = Some {| max_sets := pool.(max_sets); allocated_sets := [] |}.
Proof.
  intros Hr Hpool. unfold render_compute_fini, assert_attached.
  rewrite Hr. cbn [mbind result_bind].
  cbn [set_shared_descriptor_set layer_descriptor_sets].
  rewrite null_handles_loop. cbn [mbind result_bind].
  unfold vkResetDescriptorPool. rewrite Hpool. cbn [mbind result_bind].
  eexists _, _. split; [reflexivity|]. simpl. by rewrite lookup_insert_eq.
Qed.

(** C5 (amended): when [render_compute_init] returns [false] the
    back-reference to the resources object is set, and the descriptor sets
    allocated before the failing allocation are still allocated from the
    (now exhausted) pool; it is a following [render_compute_fini] that
    returns them to the pool and clears the back-reference. *)
Theorem render_compute_init_failure render rs σ render' σ' pool :
  σ.(descriptor_pools) !! rs.(compute_descriptor_pool) = Some pool →
  render_compute_init render rs σ = Ok (false, render', σ') →
  render'.(r) = Some rs ∧
  (∃ new,
     σ'.(descriptor_pools) !! rs.(compute_descriptor_pool)
     = Some {| max_sets := pool.(max_sets);
               allocated_sets := new ++ pool.(allocated_sets) |} ∧
     (length new ≤ RENDER_MAX_LAYER_RUNS_COUNT)%nat ∧
     (pool.(max_sets) ≤ length (new ++ pool.(allocated_sets)))%nat) ∧
  ∃ render'' σ'',
    render_compute_fini render' σ' = Ok (render'', σ'') ∧
    render''.(r) = None ∧
    σ''.(descriptor_pools) !! rs.(compute_descriptor_pool)
    = Some {| max_sets := pool.(max_sets); allocated_sets := [] |}.
Proof.
  intros Hpool Hinit. unfold render_compute_init in Hinit.
  invert_steps Hinit.
  destruct (init_layer_descriptor_sets_Ok _ _ _ _ _ _ _ _ _ Hpool E0)
    as (Hr & new & Hnew & Hlen & Hret).
  simpl in Hr.
  assert (render'.(r) = Some rs ∧
          σ'.(descriptor_pools) !! rs.(compute_descriptor_pool)
          = Some {| max_sets := pool.(max_sets);
                    allocated_sets := new ++ pool.(allocated_sets) |} ∧
          (pool.(max_sets) ≤ length (new ++ pool.(allocated_sets)))%nat)
    as (Hr' & Hpool' & Hfull).
  { case_decide as Hsucc.
    - invert_steps Hinit.
      destruct (vk_create_descriptor_set_Ok _ _ _ _ _ _ _ _ Hnew E1) as
        [(-> & Hcap & -> & Hpool')|(-> & Hfull & -> & ->)].
      + rewrite decide_True in Hinit by done. simplify_eq.
      + rewrite decide_False in Hinit by done. simplify_eq. simpl in *. done.
    - simplify_eq. destruct Hret as [?|Hfull]; [done|]. done. }
  split; [done|]. split; [eauto|].
  destruct (render_compute_fini_attached render' rs σ' _ Hr' Hpool')
    as (render'' & σ'' & Hfini & Hr'' & _ & _ & Hpool'').
  eauto.
Qed.


Lemma vk_create_descriptor_set_returns descriptor_pool layout out σ pool :
  σ.(descriptor_pools) !! descriptor_pool = Some pool →
  ∃ ret set σ' pool',
    vk_create_descriptor_set descriptor_pool layout out σ = Ok (ret, set, σ') ∧
    σ'.(descriptor_pools) !! descriptor_pool = Some pool'.
Proof.
  intros Hpool. unfold vk_create_descriptor_set. rewrite Hpool.
  case_decide.
  - eexists _, _, _, _. split; [done|]. simpl. by rewrite lookup_insert_eq.
  - by eexists _, _, _, _.
Qed.

Lemma init_layer_descriptor_sets_returns rs (count : nat) : ∀ i render σ pool,
  σ.(descriptor_pools) !! rs.(compute_descriptor_pool) = Some pool →
  (i + count ≤ length render.(layer_descriptor_sets))%nat →
  ∃ ret render' σ',
    init_layer_descriptor_sets rs i count render σ = Ok (ret, render', σ').
Proof.
  induction count as [|count IH]; intros i render σ pool Hpool Hlen; simpl.
  - eauto.
  - destruct (lookup_lt_is_Some_2 render.(layer_descriptor_sets) i) as [out Hout];
      [lia|].
    apply array_get_Ok in Hout. rewrite Hout. cbn [mbind result_bind].
    destruct (vk_create_descriptor_set_returns rs.(compute_descriptor_pool)
                rs.(compute_layer_descriptor_set_layout) out σ pool Hpool)
      as (ret & set & σ1 & pool1 & Hcreate & Hpool1).
    rewrite Hcreate. cbn [mbind result_bind].
    rewrite array_set_lt by lia. cbn [mbind result_bind].
    case_decide; [|eauto].
    apply (IH _ _ _ pool1); [done|]. simpl. rewrite length_insert. lia.
Qed.

(** [render_compute_init] returns, with [true] or [false], whenever the
    context is detached and the pool exists. *)
Lemma render_compute_init_returns render rs σ pool :
  render.(r) = None →
  σ.(descriptor_pools) !! rs.(compute_descriptor_pool) = Some pool →
  (RENDER_MAX_LAYER_RUNS_COUNT ≤ length render.(layer_descriptor_sets))%nat →
  ∃ ok render' σ', render_compute_init render rs σ = Ok (ok, render', σ').
Proof.
  intros Hr Hpool Hlen. unfold render_compute_init, assert_detached.
  rewrite Hr. cbn [mbind result_bind].
  destruct (init_layer_descriptor_sets_returns rs RENDER_MAX_LAYER_RUNS_COUNT 0
              (set_r (Some rs) render) σ pool Hpool) as (ret & render1 & σ1 & Hloop);
    [simpl; lia|].
  rewrite Hloop. cbn [mbind result_bind].
  case_decide; [|eauto].
  destruct (init_layer_descriptor_sets_Ok _ _ _ _ _ _ _ _ _ Hpool Hloop)
    as (_ & new & Hpool1 & _).
  destruct (vk_create_descriptor_set_returns rs.(compute_descriptor_pool)
              rs.(compute_distortion_descriptor_set_layout)
              render1.(shared_descriptor_set) σ1 _ Hpool1)
    as (ret2 & set & σ2 & pool2 & Hcreate & _).
  rewrite Hcreate. cbn [mbind result_bind]. case_decide; eauto.
Qed.


(** ** What the passes record *)

Lemma run_pass_returns render call σ :
  pass_ready render call σ → ∃ σ', run_pass render call σ = Ok σ'.
Proof.
  destruct call; simpl.
  - apply render_compute_layers_returns.
  - apply render_compute_projection_returns.
  - apply render_compute_projection_timewarp_returns.
  - apply render_compute_clear_returns.
Qed.

Lemma shared_pass_barriers (target : Z)
    (bind_pipeline bind_sets : vk_command) (gw gh : Z) :
  barriers_around_dispatch target [
    CmdImageBarrierGpuLocked target 0 VK_ACCESS_SHADER_WRITE_BIT
      VK_IMAGE_LAYOUT_UNDEFINED VK_IMAGE_LAYOUT_GENERAL whole_color_image;
    bind_pipeline; bind_sets;
    CmdDispatch gw gh 2;
    CmdPipelineBarrier VK_PIPELINE_STAGE_COMPUTE_SHADER_BIT
      VK_PIPELINE_STAGE_TOP_OF_PIPE_BIT 0 0 0
      [present_barrier target whole_color_image]].
Proof.
  exists 0%nat, 3%nat, 4%nat. eexists _, _, _.
  split; [lia|]. repeat split; simpl.
  - by rewrite bool_decide_eq_true_2.
  - rewrite bool_decide_eq_true_2; [done|]. by left.
Qed.

Lemma for_range_ext {St} (f g : nat → St → result St) start count (s : St) :
  (∀ i a, (start ≤ i < start + count)%nat → f i a = g i a) →
  for_range start count f s = for_range start count g s.
Proof.
  revert start s. induction count as [|count IH]; intros start s Hfg; [done|].
  simpl. rewrite Hfg by lia. destruct (g start s); simpl; [|done..].
  apply IH. intros i b Hi. apply Hfg. lia.
Qed.

Lemma calc_dispatch_dims_views_take (views : list render_viewport_data)
    (view_count : Z) :
  (Z.to_nat view_count ≤ length views)%nat →
  calc_dispatch_dims_views views view_count
  = Ok (uint_divide_and_round_up
          (foldl Z.max 0 (w <$> take (Z.to_nat view_count) views)) 8,
        uint_divide_and_round_up
          (foldl Z.max 0 (h <$> take (Z.to_nat view_count) views)) 8).
Proof.
  intros Hn.
  rewrite <-(calc_dispatch_dims_views_all (take (Z.to_nat view_count) views)).
  unfold calc_dispatch_dims_views, for_upto.
  rewrite Nat2Z.id, length_take_le by done.
  rewrite (for_range_ext _ (λ i wh,
      v ← array_get (take (Z.to_nat view_count) views) i;
      Ok (IMAX wh.1 v.(w), IMAX wh.2 v.(h)))); [done|].
  intros i a Hi. unfold array_get. rewrite lookup_take_lt by lia. done.
Qed.

Lemma foldl_max_uint32 (f : render_viewport_data → Z) (views : list render_viewport_data) :
  Forall (λ v, is_uint32 (f v)) views → is_uint32 (foldl Z.max 0 (f <$> views)).
Proof.
  intros Hall. rewrite foldl_max_list_maximum.
  destruct (list_maximum (f <$> views)) as [m|] eqn:Hm.
  - apply list_maximum_elem, list_elem_of_fmap in Hm as (v & -> & Hv).
    rewrite Forall_forall in Hall. specialize (Hall v Hv).
    unfold is_uint32 in *. lia.
  - unfold is_uint32, UINT32_MAX. lia.
Qed.

(** ** Reaching the assertion *)

Lemma c_assert_zero (gw gh : Z) :
  ¬ (gw ≠ 0 ∧ gh ≠ 0) →
  c_assert (bool_decide (gw ≠ 0) && bool_decide (gh ≠ 0)) = AssertFailed.
Proof.
  intros Hz.
  destruct (bool_decide (gw ≠ 0)) eqn:Hw; destruct (bool_decide (gh ≠ 0)) eqn:Hh;
    simpl; try done.
  apply bool_decide_eq_true in Hw, Hh. by destruct Hz.
Qed.

Lemma in_dispatch_range_uint32 (a : Z) : in_dispatch_range a → is_uint32 a.
Proof. unfold in_dispatch_range, is_uint32, UINT32_MAX. lia. Qed.

Lemma in_dispatch_range_nonzero (a : Z) :
  in_dispatch_range a → uint_divide_and_round_up a 8 ≠ 0.
Proof.
  intros Ha. by apply uint_divide_and_round_up_nonzero;
    [apply in_dispatch_range_uint32|].
Qed.

(** The dimensions a pass computes are the work-group counts of its
    extent. *)
Lemma pass_dispatch_dims_extent render rs call σ :
  render.(r) = Some rs →
  pass_set_up render call σ →
  pass_dispatch_dims rs call
  = Ok (uint_divide_and_round_up (pass_extent rs call).1 8,
        uint_divide_and_round_up (pass_extent rs call).2 8).
Proof.
  intros Hr Hset. destruct call; simpl in *.
  - reflexivity.
  - destruct Hset as (rs' & data & Hr' & _ & _ & _ & _ & _ & _ & _ & Hviews).
    assert (rs' = rs) as -> by congruence.
    by apply calc_dispatch_dims_views_take.
  - destruct Hset as [(rs' & data & Hr' & _ & _ & _ & _ & _ & _ & _ & Hviews) _].
    assert (rs' = rs) as -> by congruence.
    by apply calc_dispatch_dims_views_take.
  - destruct Hset as (rs' & data & Hr' & _ & _ & _ & _ & Hviews).
    assert (rs' = rs) as -> by congruence.
    by apply calc_dispatch_dims_views_take.
Qed.

Lemma pass_extent_uint32 rs call :
  Forall viewport_valid (pass_views rs call) →
  is_uint32 (pass_extent rs call).1 ∧ is_uint32 (pass_extent rs call).2.
Proof.
  intros Hvalid.
  assert (Forall (λ v, is_uint32 v.(w)) (pass_views rs call) ∧
          Forall (λ v, is_uint32 v.(h)) (pass_views rs call)) as [Hw Hh].
  { split; eapply Forall_impl; try exact Hvalid; by intros v (_ & _ & ? & ?). }
  destruct call; simpl in *.
  - apply Forall_cons in Hw as [Hw _]. apply Forall_cons in Hh as [Hh _]. done.
  - split; by apply foldl_max_uint32.
  - split; by apply foldl_max_uint32.
  - split; by apply foldl_max_uint32.
Qed.

(** A pass that is set up and whose dimensions are not zero meets its
    contract. *)
Lemma pass_set_up_ready render rs call σ gw gh :
  render.(r) = Some rs →
  pass_set_up render call σ →
  pass_dispatch_dims rs call = Ok (gw, gh) →
  gw ≠ 0 → gh ≠ 0 →
  pass_ready render call σ.
Proof.
  intros Hr Hset Hdims Hgw Hgh. destruct call; simpl in *.
  - destruct Hset as (Hs & Hn & HM & Hss & Hvs). injection Hdims as <- <-.
    by repeat split.
  - destruct Hset as (rs' & data & Hr' & Hfit & Hmap & Hubo & Hss & Hvs & Hrects &
                      Hdist & Hviews).
    assert (rs' = rs) as -> by congruence.
    exists rs, data. repeat split; try done; try apply Hfit; try apply Hubo.
    by exists gw, gh.
  - destruct Hset as [(rs' & data & Hr' & Hfit & Hmap & Hubo & Hss & Hvs & Hrects &
                       Hdist & Hviews) Htw].
    assert (rs' = rs) as -> by congruence.
    split; [|exact Htw].
    exists rs, data. repeat split; try done; try apply Hfit; try apply Hubo.
    by exists gw, gh.
  - destruct Hset as (rs' & data & Hr' & Hfit & Hmap & Hubo & Hdist & Hviews).
    assert (rs' = rs) as -> by congruence.
    exists rs, data. repeat split; try done; try apply Hfit.
    by exists gw, gh.
Qed.

(** A pass that is set up and whose dimensions are not both non-zero gets
    as far as its assertion and fails it. *)
Lemma run_pass_asserts render rs call σ gw gh :
  render.(r) = Some rs →
  pass_set_up render call σ →
  pass_dispatch_dims rs call = Ok (gw, gh) →
  ¬ (gw ≠ 0 ∧ gh ≠ 0) →
  run_pass render call σ = AssertFailed.
Proof.
  intros Hr Hset Hdims Hzero. destruct call; simpl in *.
  - destruct Hset as (_ & Hn & HM & Hss & Hvs). injection Hdims as <- <-.
    unfold render_compute_layers, assert_attached.
    rewrite Hr. cbn [mbind result_bind].
    rewrite update_compute_layer_descriptor_set_call by done.
    unfold vkUpdateDescriptorSets, apply_writes, write_contents.
    cbn [descriptorType descriptorCount pImageInfo pBufferInfo].
    set (infos := zip_with image_info _ _).
    assert (length infos = Z.to_nat num_srcs) as Hinfos.
    { unfold infos. rewrite length_zip_with, !length_take. lia. }
    pose proof (read_image_infos_prefix infos
                  (replicate (RENDER_MAX_IMAGES_SIZE - Z.to_nat num_srcs) None))
      as Hread.
    rewrite Hinfos in Hread. rewrite Hread. simpl.
    by rewrite c_assert_zero.
  - destruct Hset as (rs' & data & Hr' & Hfit & Hmap & Hubo & Hss & Hvs & Hrects &
                      Hdist & Hviews).
    assert (rs' = rs) as -> by congruence.
    unfold render_compute_projection, assert_attached, load_ubo.
    rewrite Hr. cbn [mbind result_bind]. rewrite Hmap. cbn [mbind result_bind].
    destruct (ubo_projection_loop_ok views src_norm_rects
                (Z.to_nat rs.(view_count)) data) as (data' & Hdata'); [done..|].
    unfold for_upto. rewrite Hdata'. cbn [mbind result_bind].
    rewrite fill_distortion_samplers_closed by done. cbn [mbind result_bind].
    edestruct (shared_update_returns rs render
                 (Some <$> src_samplers) (Some <$> src_image_views)
                 (take (Z.to_nat rs.(view_count)) src_samplers)
                 (take (Z.to_nat rs.(view_count)) src_image_views))
      as (σu & Hσu);
      [done|apply take_fmap_Some|by rewrite length_take_le
      |apply take_fmap_Some|by rewrite length_take_le|done|].
    rewrite Hσu. cbn [mbind result_bind]. rewrite Hdims. cbn [mbind result_bind].
    by rewrite c_assert_zero.
  - destruct Hset as [(rs' & data & Hr' & Hfit & Hmap & Hubo & Hss & Hvs & Hrects &
                       Hdist & Hviews)
                      (rs'' & Hr'' & Hpre & Hposes & Hfovs & Hnew)].
    assert (rs' = rs) as -> by congruence.
    assert (rs'' = rs) as -> by congruence.
    unfold render_compute_projection_timewarp, assert_attached, load_ubo.
    rewrite Hr. cbn [mbind result_bind].
    destruct (time_warp_loop_closed src_poses src_fovs new_poses
                (Z.to_nat rs.(view_count))) as (tw & Htw & Htwi);
      [apply Hfit|done..|].
    unfold for_upto. rewrite Htw. cbn [mbind result_bind].
    rewrite Hmap. cbn [mbind result_bind].
    destruct (ubo_timewarp_loop_ok views rs.(distortion_uv_to_tanangle) tw
                src_norm_rects (Z.to_nat rs.(view_count)) data)
      as (data' & Hdata'); [done..|].
    unfold for_upto. rewrite Hdata'. cbn [mbind result_bind].
    rewrite fill_distortion_samplers_closed by done. cbn [mbind result_bind].
    edestruct (shared_update_returns rs render
                 (Some <$> src_samplers) (Some <$> src_image_views)
                 (take (Z.to_nat rs.(view_count)) src_samplers)
                 (take (Z.to_nat rs.(view_count)) src_image_views))
      as (σu & Hσu);
      [done|apply take_fmap_Some|by rewrite length_take_le
      |apply take_fmap_Some|by rewrite length_take_le|done|].
    rewrite Hσu. cbn [mbind result_bind]. rewrite Hdims. cbn [mbind result_bind].
    by rewrite c_assert_zero.
  - destruct Hset as (rs' & data & Hr' & Hfit & Hmap & Hubo & Hdist & Hviews).
    assert (rs' = rs) as -> by congruence.
    unfold render_compute_clear, assert_attached, load_ubo.
    rewrite Hr. cbn [mbind result_bind].
    destruct (identity_loop_ok (Z.to_nat rs.(view_count))) as (tr & Htr);
      [apply Hfit|].
    unfold for_upto. rewrite Htr. cbn [mbind result_bind].
    rewrite Hmap. cbn [mbind result_bind].
    destruct (ubo_views_loop_ok views (Z.to_nat rs.(view_count)) data)
      as (data' & Hdata'); [done..|].
    unfold for_upto. rewrite Hdata'. cbn [mbind result_bind].
    rewrite fill_clear_arrays_closed by done. cbn [mbind result_bind].
    edestruct (shared_update_returns rs render
                 (replicate (Z.to_nat rs.(view_count)) (Some rs.(samplers_mock)) ++
                  replicate (XRT_MAX_VIEWS - Z.to_nat rs.(view_count)) None)
                 (replicate (Z.to_nat rs.(view_count))
                            (Some rs.(mock_color_image_view)) ++
                  replicate (XRT_MAX_VIEWS - Z.to_nat rs.(view_count)) None)
                 (replicate (Z.to_nat rs.(view_count)) rs.(samplers_mock))
                 (replicate (Z.to_nat rs.(view_count)) rs.(mock_color_image_view)))
      as (σu & Hσu);
      [done|apply take_filled|apply length_replicate
      |apply take_filled|apply length_replicate|done|].
    rewrite Hσu. cbn [mbind result_bind]. rewrite Hdims. cbn [mbind result_bind].
    by rewrite c_assert_zero.
Qed.

(** A pass that is set up, for an extent in the range the work-group
    division handles, returns. *)
Lemma run_pass_in_range_returns render rs call σ :
  render.(r) = Some rs →
  pass_set_up render call σ →
  extent_in_range rs call →
  ∃ σ', run_pass render call σ = Ok σ'.
Proof.
  intros Hr Hset [Hw Hh]. apply run_pass_returns.
  eapply (pass_set_up_ready render rs call σ); [done|done| | |].
  - by eapply pass_dispatch_dims_extent.
  - by apply in_dispatch_range_nonzero.
  - by apply in_dispatch_range_nonzero.
Qed.


(** C4 (amended): a call of the projection, projection-timewarp or clear
    pass that returns has recorded, in this order, a barrier taking the
    target image from the undefined to the general layout, the dispatch, and
    a barrier taking it from the general to the presentation layout; a call
    of the layers pass that returns has recorded exactly the bind of its
    pipeline, the bind of its descriptor set and its dispatch, in this
    order, and so no barrier; and a call that is set up for an extent
    between 1 and [2^32 - 8] returns. *)
Theorem pass_barrier_order render call σ :
  (∀ rs, render.(r) = Some rs → pass_set_up render call σ →
         extent_in_range rs call →
         ∃ σ', run_pass render call σ = Ok σ') ∧
  (∀ σ', run_pass render call σ = Ok σ' →
     ∃ rs cs,
       render.(r) = Some rs ∧
       recorded rs.(cmd) σ' = recorded rs.(cmd) σ ++ cs ∧
       match pass_target_image call with
       | Some target_image => barriers_around_dispatch target_image cs
       | None =>
           (∃ gw gh,
              cs = [CmdBindPipeline VK_PIPELINE_BIND_POINT_COMPUTE
                      (pass_pipeline rs call);
                    CmdBindDescriptorSets VK_PIPELINE_BIND_POINT_COMPUTE
                      (pass_pipeline_layout rs call) 0
                      [pass_descriptor_set render call] [];
                    CmdDispatch gw gh 1]) ∧
           Forall (λ c, is_barrier c = false) cs
       end).
Proof.
  split; [intros rs; apply run_pass_in_range_returns|].
  intros σ' Hrun. destruct call; simpl in Hrun.
  - apply render_compute_layers_recorded in Hrun
      as (rs & gw & gh & Hr & _ & _ & _ & Hcs).
    eexists _, _. split; [done|]. split; [done|]. simpl. split.
    + by exists gw, gh.
    + by repeat constructor.
  - apply render_compute_projection_recorded in Hrun
      as (rs & gw & gh & Hr & _ & _ & _ & Hcs).
    eexists _, _. split; [done|]. split; [done|].
    simpl. apply shared_pass_barriers.
  - apply render_compute_projection_timewarp_recorded in Hrun
      as (rs & gw & gh & Hr & _ & _ & _ & Hcs).
    eexists _, _. split; [done|]. split; [done|].
    simpl. apply shared_pass_barriers.
  - apply render_compute_clear_recorded in Hrun
      as (rs & gw & gh & Hr & _ & _ & _ & Hcs).
    eexists _, _. split; [done|]. split; [done|].
    simpl. apply shared_pass_barriers.
Qed.

(** C3 (amended): the dispatch dimensions a pass computes are both non-zero
    exactly when the extent it dispatches for -- the width and height of the
    viewport of a layers call, the largest width and the largest height
    among the first [view_count] viewports of a projection,
    projection-timewarp or clear call -- lies between 1 and [2^32 - 8] in
    both directions; a pass that is set up returns in exactly this case and
    fails its assertion in every other (all viewports empty, or a largest
    extent above [2^32 - 8]). The viewports are [uint32_t] values. *)
Theorem dispatch_nonzero_iff_extent_in_range render rs call σ :
  render.(r) = Some rs →
  pass_set_up render call σ →
  Forall viewport_valid (pass_views rs call) →
  ∃ gw gh,
    pass_dispatch_dims rs call = Ok (gw, gh) ∧
    (gw ≠ 0 ∧ gh ≠ 0 ↔ extent_in_range rs call) ∧
    (extent_in_range rs call → ∃ σ', run_pass render call σ = Ok σ') ∧
    (¬ extent_in_range rs call → run_pass render call σ = AssertFailed).
Proof.
  intros Hr Hset Hvalid.
  pose proof (pass_dispatch_dims_extent render rs call σ Hr Hset) as Hdims.
  destruct (pass_extent_uint32 rs call Hvalid) as [Hw Hh].
  eexists _, _. split; [exact Hdims|].
  assert (uint_divide_and_round_up (pass_extent rs call).1 8 ≠ 0 ∧
          uint_divide_and_round_up (pass_extent rs call).2 8 ≠ 0
          ↔ extent_in_range rs call) as Hiff.
  { unfold extent_in_range, in_dispatch_range.
    by rewrite !uint_divide_and_round_up_nonzero. }
  split; [exact Hiff|]. split.
  - by apply run_pass_in_range_returns.
  - intros Hout. eapply run_pass_asserts; [done|done|exact Hdims|].
    by rewrite Hiff.
Qed.


(** ** Uniform data *)

Lemma first_written_0 {A} (src dst : list A) : first_written 0 src dst.
Proof. intros i Hi. lia. Qed.

Lemma first_written_step {A} (n : nat) (src dst : list A) (v : A) :
  first_written n src dst → src !! n = Some v → (n < length dst)%nat →
  first_written (S n) src (<[n := v]> dst).
Proof.
  intros Hn Hv Hlen i Hi. destruct (decide (i = n)) as [->|Hne].
  - exists v. by rewrite list_lookup_insert_eq.
  - rewrite list_lookup_insert_ne by done. apply Hn. lia.
Qed.

Lemma mapped_memory_after_update mapped data cmd c u d σ :
  mapped_memory (set_descriptor_updates u (set_descriptors d
    (record cmd c (store_ubo mapped data σ)))) !! mapped = Some data.
Proof. simpl. by rewrite lookup_insert_eq. Qed.

Lemma time_warp_loop_written (src_poses : list xrt_pose) (src_fovs : list xrt_fov)
    (new_poses : list xrt_pose) (n : nat)
    (time_warp_matrix : list (option xrt_matrix_4x4)) :
  for_range 0 n (λ i time_warp_matrix,
      src_pose ← array_get src_poses i;
      src_fov ← array_get src_fovs i;
      new_pose ← array_get new_poses i;
      array_set time_warp_matrix i
        (Some (render_calc_time_warp_matrix src_pose src_fov new_pose)))
    (replicate XRT_MAX_VIEWS None) = Ok time_warp_matrix →
  ∀ i : nat, (i < n)%nat →
    ∃ src_pose src_fov new_pose,
      src_poses !! i = Some src_pose ∧ src_fovs !! i = Some src_fov ∧
      new_poses !! i = Some new_pose ∧
      time_warp_matrix !! i
      = Some (Some (render_calc_time_warp_matrix src_pose src_fov new_pose)).
Proof.
  apply (for_range_inv0 (λ k (m : list (option xrt_matrix_4x4)),
    ∀ i : nat, (i < k)%nat →
      ∃ src_pose src_fov new_pose,
        src_poses !! i = Some src_pose ∧ src_fovs !! i = Some src_fov ∧
        new_poses !! i = Some new_pose ∧
        m !! i = Some (Some (render_calc_time_warp_matrix src_pose src_fov new_pose))));
    [intros i Hi; lia|].
  intros k m m' Hk Hm Hbody. invert_steps Hbody.
  apply array_get_Ok in E, E0, E1. apply array_set_Ok in Hbody as [Hlen ->].
  intros i Hi. destruct (decide (i = k)) as [->|Hne].
  - eexists _, _, _. by rewrite list_lookup_insert_eq.
  - rewrite list_lookup_insert_ne by done. apply Hm. lia.
Qed.

Lemma ubo_timewarp_loop_written (views : list render_viewport_data)
    (pre : list xrt_normalized_rect)
    (src_poses : list xrt_pose) (src_fovs : list xrt_fov)
    (new_poses : list xrt_pose)
    (time_warp_matrix : list (option xrt_matrix_4x4))
    (src_norm_rects : list xrt_normalized_rect) (n : nat)
    (data data' : render_compute_distortion_ubo_data) :
  (∀ i : nat, (i < n)%nat →
    ∃ src_pose src_fov new_pose,
      src_poses !! i = Some src_pose ∧ src_fovs !! i = Some src_fov ∧
      new_poses !! i = Some new_pose ∧
      time_warp_matrix !! i
      = Some (Some (render_calc_time_warp_matrix src_pose src_fov new_pose))) →
  for_range 0 n (λ i data,
      view ← array_get views i;
      data_views ← array_set data.(ubo.views) i view;
      pre_transform ← array_get pre i;
      data_pre_transforms ← array_set data.(ubo.pre_transforms) i pre_transform;
      transform ← uarray_get time_warp_matrix i;
      data_transforms ← array_set data.(ubo.transforms) i transform;
      post_transform ← array_get src_norm_rects i;
      data_post_transforms ← array_set data.(ubo.post_transforms) i post_transform;
      Ok {| ubo.views := data_views;
            ubo.pre_transforms := data_pre_transforms;
            ubo.transforms := data_transforms;
            ubo.post_transforms := data_post_transforms |}) data = Ok data' →
  first_written n views data'.(ubo.views) ∧
  first_written n pre data'.(ubo.pre_transforms) ∧
  time_warp_written n src_poses src_fovs new_poses data'.(ubo.transforms) ∧
  first_written n src_norm_rects data'.(ubo.post_transforms).
Proof.
  intros Htw.
  apply (for_range_inv0 (λ k (d : render_compute_distortion_ubo_data),
    first_written k views d.(ubo.views) ∧
    first_written k pre d.(ubo.pre_transforms) ∧
    time_warp_written k src_poses src_fovs new_poses d.(ubo.transforms) ∧
    first_written k src_norm_rects d.(ubo.post_transforms))).
  { repeat split; try apply first_written_0. intros i Hi. lia. }
  intros k d d' Hk (Hv & Hp & Ht & Hr) Hbody. invert_steps Hbody.
  apply array_get_Ok in E, E1, E5. apply uarray_get_Ok in E3.
  apply array_set_Ok in E0 as [? ->], E2 as [? ->], E4 as [? ->], E6 as [? ->].
  simplify_eq. simpl. repeat split; try by apply first_written_step.
  intros i Hi. destruct (decide (i = k)) as [->|Hne].
  - destruct (Htw k) as (p & f & np & Hpk & Hfk & Hnk & Htwk); [lia|].
    exists p, f, np. rewrite list_lookup_insert_eq by done.
    repeat split; try done. congruence.
  - rewrite list_lookup_insert_ne by done. apply Ht. lia.
Qed.

Lemma ubo_projection_loop_written (views : list render_viewport_data)
    (src_norm_rects : list xrt_normalized_rect) (n : nat)
    (data data' : render_compute_distortion_ubo_data) :
  for_range 0 n (λ i data,
      view ← array_get views i;
      data_views ← array_set data.(ubo.views) i view;
      post_transform ← array_get src_norm_rects i;
      data_post_transforms ← array_set data.(ubo.post_transforms) i post_transform;
      Ok {| ubo.views := data_views;
            ubo.pre_transforms := data.(ubo.pre_transforms);
            ubo.transforms := data.(ubo.transforms);
            ubo.post_transforms := data_post_transforms |}) data = Ok data' →
  first_written n views data'.(ubo.views) ∧
  first_written n src_norm_rects data'.(ubo.post_transforms) ∧
  data'.(ubo.pre_transforms) = data.(ubo.pre_transforms) ∧
  data'.(ubo.transforms) = data.(ubo.transforms).
Proof.
  apply (for_range_inv0 (λ k (d : render_compute_distortion_ubo_data),
    first_written k views d.(ubo.views) ∧
    first_written k src_norm_rects d.(ubo.post_transforms) ∧
    d.(ubo.pre_transforms) = data.(ubo.pre_transforms) ∧
    d.(ubo.transforms) = data.(ubo.transforms))).
  { repeat split; apply first_written_0. }
  intros k d d' Hk (Hv & Hr & Hp & Ht) Hbody. invert_steps Hbody.
  apply array_get_Ok in E, E1.
  apply array_set_Ok in E0 as [? ->], E2 as [? ->].
  simplify_eq. simpl. repeat split; try done; by apply first_written_step.
Qed.

Lemma ubo_views_loop_written (views : list render_viewport_data) (n : nat)
    (data data' : render_compute_distortion_ubo_data) :
  for_range 0 n (λ i data,
      view ← array_get views i;
      data_views ← array_set data.(ubo.views) i view;
      Ok {| ubo.views := data_views;
            ubo.pre_transforms := data.(ubo.pre_transforms);
            ubo.transforms := data.(ubo.transforms);
            ubo.post_transforms := data.(ubo.post_transforms) |}) data = Ok data' →
  first_written n views data'.(ubo.views).
Proof.
  apply (for_range_inv0 (λ k (d : render_compute_distortion_ubo_data),
    first_written k views d.(ubo.views))).
  { apply first_written_0. }
  intros k d d' Hk Hv Hbody. invert_steps Hbody.
  apply array_get_Ok in E. apply array_set_Ok in E0 as [? ->].
  simplify_eq. simpl. by apply first_written_step.
Qed.


(** C7 (amended): a projection-timewarp call that returns has written, for
    every view below the view count, the viewport data, the pre-transform,
    the computed time warp matrix and the post-transform of the distortion
    uniform record; a projection call that returns has written the viewport
    data and the post-transform only, and the pre-transforms and transforms
    of the record are what they were before the call; a clear call that
    returns has written the viewport data of the clear uniform record. *)
Theorem distortion_ubo_written render src_samplers src_image_views
    src_norm_rects src_poses src_fovs new_poses target_image target_image_view
    views σ :
  (∀ σ',
     render_compute_projection_timewarp render src_samplers src_image_views
       src_norm_rects src_poses src_fovs new_poses target_image
       target_image_view views σ = Ok σ' →
     ∃ rs data',
       render.(r) = Some rs ∧
       σ'.(mapped_memory) !! rs.(compute_distortion_ubo_mapped) = Some data' ∧
       first_written (Z.to_nat rs.(view_count)) views data'.(ubo.views) ∧
       first_written (Z.to_nat rs.(view_count)) rs.(distortion_uv_to_tanangle)
         data'.(ubo.pre_transforms) ∧
       time_warp_written (Z.to_nat rs.(view_count)) src_poses src_fovs new_poses
         data'.(ubo.transforms) ∧
       first_written (Z.to_nat rs.(view_count)) src_norm_rects
         data'.(ubo.post_transforms)) ∧
  (∀ σ',
     render_compute_projection render src_samplers src_image_views
       src_norm_rects target_image target_image_view views σ = Ok σ' →
     ∃ rs data data',
       render.(r) = Some rs ∧
       σ.(mapped_memory) !! rs.(compute_distortion_ubo_mapped) = Some data ∧
       σ'.(mapped_memory) !! rs.(compute_distortion_ubo_mapped) = Some data' ∧
       first_written (Z.to_nat rs.(view_count)) views data'.(ubo.views) ∧
       first_written (Z.to_nat rs.(view_count)) src_norm_rects
         data'.(ubo.post_transforms) ∧
       data'.(ubo.pre_transforms) = data.(ubo.pre_transforms) ∧
       data'.(ubo.transforms) = data.(ubo.transforms)) ∧
  (∀ σ',
     render_compute_clear render target_image target_image_view views σ = Ok σ' →
     ∃ rs data',
       render.(r) = Some rs ∧
       σ'.(mapped_memory) !! rs.(compute_clear_ubo_mapped) = Some data' ∧
       first_written (Z.to_nat rs.(view_count)) views data'.(ubo.views)).
Proof.
  repeat split.
  - intros σ' Hp. unfold render_compute_projection_timewarp in Hp.
    apply bind_Ok in Hp as (rs & Hrs%assert_attached_Ok & Hp).
    apply bind_Ok in Hp as (tw & Htw & Hp).
    apply bind_Ok in Hp as (data & Hdata & Hp).
    apply bind_Ok in Hp as (data' & Hdata' & Hp).
    apply bind_Ok in Hp as (ds & Hds & Hp).
    apply bind_Ok in Hp as (σu & Hσu & Hp).
    apply update_compute_shared_descriptor_set_Ok in Hσu as (writes & d & _ & ->).
    apply bind_Ok in Hp as ([gw gh] & Hdims & Hp).
    apply bind_Ok in Hp as (u & _ & Hp). simplify_eq.
    unfold for_upto in Htw, Hdata'.
    pose proof (time_warp_loop_written _ _ _ _ _ Htw) as Htw'.
    destruct (ubo_timewarp_loop_written _ _ _ _ _ _ _ _ _ _ Htw' Hdata')
      as (Hv & Hpre & Ht & Hpost).
    exists rs, data'. split; [done|].
    split; [simpl; apply lookup_insert_eq|done].
  - intros σ' Hp. unfold render_compute_projection in Hp.
    apply bind_Ok in Hp as (rs & Hrs%assert_attached_Ok & Hp).
    apply bind_Ok in Hp as (data & Hdata & Hp).
    apply bind_Ok in Hp as (data' & Hdata' & Hp).
    apply bind_Ok in Hp as (ds & Hds & Hp).
    apply bind_Ok in Hp as (σu & Hσu & Hp).
    apply update_compute_shared_descriptor_set_Ok in Hσu as (writes & d & _ & ->).
    apply bind_Ok in Hp as ([gw gh] & Hdims & Hp).
    apply bind_Ok in Hp as (u & _ & Hp). simplify_eq.
    unfold for_upto in Hdata'.
    destruct (ubo_projection_loop_written _ _ _ _ _ Hdata')
      as (Hv & Hpost & Hpre & Ht).
    exists rs, data, data'. split; [done|]. split.
    { unfold load_ubo in Hdata.
      destruct (mapped_memory σ !! compute_distortion_ubo_mapped rs);
        by simplify_eq. }
    split; [simpl; apply lookup_insert_eq|done].
  - intros σ' Hp. unfold render_compute_clear in Hp.
    apply bind_Ok in Hp as (rs & Hrs%assert_attached_Ok & Hp).
    apply bind_Ok in Hp as (tr & Htr & Hp).
    apply bind_Ok in Hp as (data & Hdata & Hp).
    apply bind_Ok in Hp as (data' & Hdata' & Hp).
    apply bind_Ok in Hp as ([[ss vs] ds] & Hds & Hp).
    apply bind_Ok in Hp as (σu & Hσu & Hp).
    apply update_compute_shared_descriptor_set_Ok in Hσu as (writes & d & _ & ->).
    apply bind_Ok in Hp as ([gw gh] & Hdims & Hp).
    apply bind_Ok in Hp as (u & _ & Hp). simplify_eq.
    unfold for_upto in Hdata'.
    pose proof (ubo_views_loop_written _ _ _ _ Hdata') as Hv.
    exists rs, data'. split; [done|].
    split; [simpl; apply lookup_insert_eq|done].
Qed.


(** ** Descriptor contents after a pass *)

Lemma store_descriptors_is_Some (kvs : list (slot * descriptor))
    (d : gmap slot descriptor) (k : slot) :
  is_Some (d !! k) ∨ k ∈ kvs.*1 → is_Some (store_descriptors kvs d !! k).
Proof.
  revert d. induction kvs as [|[k' v] kvs IH]; intros d Hk; simpl.
  - destruct Hk as [Hk|Hk]; [done|]. by apply elem_of_nil in Hk.
  - apply IH. destruct (decide (k' = k)) as [->|Hne].
    + left. rewrite lookup_insert_eq. by eexists.
    + rewrite lookup_insert_ne by done.
      destruct Hk as [Hk|Hk]; [by left|]. right.
      simpl in Hk. by apply elem_of_cons in Hk as [Hk|Hk].
Qed.

Lemma apply_writes_is_Some (writes : list VkWriteDescriptorSet)
    (d d' : gmap slot descriptor) (k : slot) :
  apply_writes writes d = Ok d' →
  is_Some (d !! k) ∨ k ∈ writes ≫= write_targets →
  is_Some (d' !! k).
Proof.
  revert d. induction writes as [|write writes IH]; intros d Hd Hk.
  - simpl in *. simplify_eq. destruct Hk as [Hk|Hk]; [done|].
    by apply elem_of_nil in Hk.
  - simpl in Hd. apply bind_Ok in Hd as (ds & Hds & Hd).
    apply (IH _ Hd).
    rewrite bind_cons, elem_of_app in Hk.
    destruct Hk as [Hk|[Hk|Hk]]; [| |by right].
    + left. apply store_descriptors_is_Some. by left.
    + left. apply store_descriptors_is_Some. right.
      rewrite write_slots_targets; [done|]. by apply write_contents_length.
Qed.

(** The writes of the shared-shape update are fixed by its arguments. *)
Lemma update_compute_shared_descriptor_set_writes src_binding src_samplers
    src_image_views distortion_binding distortion_samplers
    distortion_image_views target_binding target_image_view ubo_binding
    ubo_buffer ubo_size descriptor_set view_count σ σ' :
  update_compute_shared_descriptor_set src_binding src_samplers src_image_views
    distortion_binding distortion_samplers distortion_image_views
    target_binding target_image_view ubo_binding ubo_buffer ubo_size
    descriptor_set view_count σ = Ok σ' →
  ∃ src_image_info distortion_image_info,
    ∀ σx,
      update_compute_shared_descriptor_set src_binding src_samplers
        src_image_views distortion_binding distortion_samplers
        distortion_image_views target_binding target_image_view ubo_binding
        ubo_buffer ubo_size descriptor_set view_count σx
      = vkUpdateDescriptorSets [
          {| dstSet := descriptor_set; dstBinding := src_binding;
             dstArrayElement := 0; descriptorCount := view_count;
             descriptorType := VK_DESCRIPTOR_TYPE_COMBINED_IMAGE_SAMPLER;
             pImageInfo := src_image_info; pBufferInfo := [] |};
          {| dstSet := descriptor_set; dstBinding := distortion_binding;
             dstArrayElement := 0;
             descriptorCount := uint32_wrap (3 * view_count);
             descriptorType := VK_DESCRIPTOR_TYPE_COMBINED_IMAGE_SAMPLER;
             pImageInfo := distortion_image_info; pBufferInfo := [] |};
          {| dstSet := descriptor_set; dstBinding := target_binding;
             dstArrayElement := 0; descriptorCount := 1;
             descriptorType := VK_DESCRIPTOR_TYPE_STORAGE_IMAGE;
             pImageInfo := [Some (target_info target_image_view)];
             pBufferInfo := [] |};
          {| dstSet := descriptor_set; dstBinding := ubo_binding;
             dstArrayElement := 0; descriptorCount := 1;
             descriptorType := VK_DESCRIPTOR_TYPE_UNIFORM_BUFFER;
             pImageInfo := [];
             pBufferInfo := [ubo_info ubo_buffer ubo_size] |}
        ] σx.
Proof.
  unfold update_compute_shared_descriptor_set.
  intros (sinfo & Hs & (dinfo & Hd & _)%bind_Ok)%bind_Ok.
  exists sinfo, dinfo. intros σx. rewrite Hs. cbn [mbind result_bind].
  rewrite Hd. reflexivity.
Qed.

Lemma shared_shape_slots_written descriptor_set src_binding distortion_binding
    target_binding ubo_binding view_count
    (src_image_info distortion_image_info : list (option VkDescriptorImageInfo))
    (target : list (option VkDescriptorImageInfo))
    (ubo : list VkDescriptorBufferInfo) (k : slot) :
  uint32_wrap (3 * view_count) = 3 * view_count →
  k ∈ shared_shape_slots descriptor_set src_binding distortion_binding
        target_binding ubo_binding view_count →
  k ∈ [ {| dstSet := descriptor_set; dstBinding := src_binding;
           dstArrayElement := 0; descriptorCount := view_count;
           descriptorType := VK_DESCRIPTOR_TYPE_COMBINED_IMAGE_SAMPLER;
           pImageInfo := src_image_info; pBufferInfo := [] |};
        {| dstSet := descriptor_set; dstBinding := distortion_binding;
           dstArrayElement := 0;
           descriptorCount := uint32_wrap (3 * view_count);
           descriptorType := VK_DESCRIPTOR_TYPE_COMBINED_IMAGE_SAMPLER;
           pImageInfo := distortion_image_info; pBufferInfo := [] |};
        {| dstSet := descriptor_set; dstBinding := target_binding;
           dstArrayElement := 0; descriptorCount := 1;
           descriptorType := VK_DESCRIPTOR_TYPE_STORAGE_IMAGE;
           pImageInfo := target; pBufferInfo := [] |};
        {| dstSet := descriptor_set; dstBinding := ubo_binding;
           dstArrayElement := 0; descriptorCount := 1;
           descriptorType := VK_DESCRIPTOR_TYPE_UNIFORM_BUFFER;
           pImageInfo := []; pBufferInfo := ubo |} ] ≫= write_targets.
Proof.
  intros Hwrap. unfold shared_shape_slots.
  rewrite !bind_cons. change (@nil VkWriteDescriptorSet ≫= write_targets) with (@nil slot).
  rewrite app_nil_r. unfold write_targets at 2.
  cbn [dstSet dstBinding dstArrayElement descriptorCount]. rewrite Hwrap.
  rewrite !elem_of_app. intros [Hk|[Hk|Hk]].
  - left. exact Hk.
  - right. left. exact Hk.
  - right. right.
    apply elem_of_cons in Hk as [->|Hk]; [left; by left|].
    apply elem_of_cons in Hk as [->|Hk]; [right; by left|].
    by apply elem_of_nil in Hk.
Qed.

(** C8: two projection calls with the same context and the same arguments,
    run in any two states of the device (whatever was recorded, bound or
    written before), leave the same descriptor in every slot of the shared
    set that the projection names: the sources and the distortion images of
    each view, the target image and the uniform buffer; each of these slots
    is written by the call. *)
Theorem projection_bindings_independent_of_history render rs src_samplers
    src_image_views src_norm_rects target_image target_image_view views
    σ1 σ2 σ1' σ2' (k : slot) :
  render.(r) = Some rs →
  is_uint32 (3 * rs.(view_count)) →
  render_compute_projection render src_samplers src_image_views src_norm_rects
    target_image target_image_view views σ1 = Ok σ1' →
  render_compute_projection render src_samplers src_image_views src_norm_rects
    target_image target_image_view views σ2 = Ok σ2' →
  k ∈ shared_shape_slots render.(shared_descriptor_set)
        rs.(compute_src_binding) rs.(compute_distortion_binding)
        rs.(compute_target_binding) rs.(compute_ubo_binding) rs.(view_count) →
  is_Some (σ1'.(descriptors) !! k) ∧
  σ1'.(descriptors) !! k = σ2'.(descriptors) !! k.
Proof.
  unfold is_uint32, UINT32_MAX. intros Hr Hvc H1 H2 Hk.
  assert (uint32_wrap (3 * rs.(view_count)) = 3 * rs.(view_count)) as Hwrap
    by (apply uint32_wrap_small; lia).
  unfold render_compute_projection in H1, H2.
  apply bind_Ok in H1 as (rs1 & Hrs1%assert_attached_Ok & H1).
  apply bind_Ok in H1 as (data1 & _ & H1).
  apply bind_Ok in H1 as (data1' & _ & H1).
  apply bind_Ok in H1 as (ds1 & Hds1 & H1).
  apply bind_Ok in H1 as (σu1 & Hσu1 & H1).
  apply bind_Ok in H1 as ([gw1 gh1] & _ & H1).
  apply bind_Ok in H1 as (u1 & _ & H1).
  apply bind_Ok in H2 as (rs2 & Hrs2%assert_attached_Ok & H2).
  apply bind_Ok in H2 as (data2 & _ & H2).
  apply bind_Ok in H2 as (data2' & _ & H2).
  apply bind_Ok in H2 as (ds2 & Hds2 & H2).
  apply bind_Ok in H2 as (σu2 & Hσu2 & H2).
  apply bind_Ok in H2 as ([gw2 gh2] & _ & H2).
  apply bind_Ok in H2 as (u2 & _ & H2).
  simplify_eq.
  assert (ds2 = ds1) as -> by congruence.
  destruct (update_compute_shared_descriptor_set_writes
              _ _ _ _ _ _ _ _ _ _ _ _ _ _ _ Hσu1) as (sinfo & dinfo & Hcall).
  rewrite Hcall in Hσu1, Hσu2.
  apply vkUpdateDescriptorSets_Ok in Hσu1 as (d1 & Hd1 & ->).
  apply vkUpdateDescriptorSets_Ok in Hσu2 as (d2 & Hd2 & ->).
  change (descriptors (store_ubo ?a ?b ?c)) with (descriptors c) in *.
  simpl.
  eapply shared_shape_slots_written in Hk; [|exact Hwrap].
  split.
  - eapply apply_writes_is_Some; [exact Hd1|]. right. exact Hk.
  - eapply apply_writes_agree; [exact Hd1|exact Hd2|]. right. exact Hk.
Qed.


(** ** More on the dispatch geometry *)

(** A loop whose body is undefined at some index, and never fails an
    assertion, is undefined. *)
Lemma for_range_undefined {St} (P : nat → St → Prop) body start count k (s : St) :
  (start ≤ k < start + count)%nat →
  P start s →
  (∀ i a a', (start ≤ i < k)%nat → P i a → body i a = Ok a' → P (S i) a') →
  (∀ i a, (start ≤ i < k)%nat → P i a → body i a ≠ AssertFailed) →
  (∀ a, P k a → body k a = Undefined) →
  for_range start count body s = Undefined.
Proof.
  revert start s. induction count as [|count IH]; intros start s Hk Hs Hstep Hna Hund.
  - lia.
  - simpl. destruct (decide (start = k)) as [->|Hne].
    + by rewrite Hund.
    + destruct (body start s) as [a| |] eqn:Hbody; simpl; [| |done].
      * apply IH; [lia| |intros i b b' Hi; apply Hstep; lia
                   |intros i b Hi; apply Hna; lia|done].
        apply (Hstep start s a); [lia|done|done].
      * by apply Hna in Hbody; [|lia|].
Qed.

Lemma foldl_max_upper (l : list Z) (a x : Z) :
  x ∈ l → x ≤ foldl Z.max a l.
Proof.
  intros Hx. rewrite foldl_max_list_maximum.
  destruct (list_maximum l) as [m|] eqn:Hm.
  - pose proof (list_maximum_upper l m x Hm Hx). lia.
  - destruct l; [by apply elem_of_nil in Hx|done].
Qed.

Lemma foldl_max_attained (f : render_viewport_data → Z)
    (l : list render_viewport_data) :
  1 ≤ foldl Z.max 0 (f <$> l) →
  ∃ v, v ∈ l ∧ foldl Z.max 0 (f <$> l) = f v.
Proof.
  rewrite foldl_max_list_maximum.
  destruct (list_maximum (f <$> l)) as [m|] eqn:Hm; [|lia].
  intros Hle. apply list_maximum_elem, list_elem_of_fmap in Hm as (v & -> & Hv).
  exists v. split; [done|lia].
Qed.

(** X1: the multi-view calculation reads exactly the first [view_count]
    viewports: entries after them do not matter, and a view count larger
    than the array reads past its end. *)
Theorem calc_dispatch_dims_views_reads_prefix (views : list render_viewport_data)
    (view_count : Z) :
  ((Z.to_nat view_count ≤ length views)%nat →
   ∀ more, calc_dispatch_dims_views (take (Z.to_nat view_count) views ++ more)
             view_count
           = calc_dispatch_dims_views views view_count ∧
           ∃ wh, calc_dispatch_dims_views views view_count = Ok wh) ∧
  ((length views < Z.to_nat view_count)%nat →
   calc_dispatch_dims_views views view_count = Undefined).
Proof.
  split.
  - intros Hn more. split; [|rewrite calc_dispatch_dims_views_take by done; eauto].
    rewrite !calc_dispatch_dims_views_take
      by (rewrite ?length_app, ?length_take; lia).
    by rewrite take_app_le, take_take, Nat.min_id by (rewrite length_take; lia).
  - intros Hn. unfold calc_dispatch_dims_views, for_upto.
    rewrite (for_range_undefined (λ _ _, True) _ 0 _ (length views));
      [done|lia|done|done| |].
    + intros i a Hi _. unfold array_get.
      destruct (lookup_lt_is_Some_2 views i) as [v ->]; [lia|]. done.
    + intros a _. unfold array_get. by rewrite lookup_ge_None_2.
Qed.

(** X2: whenever the dispatch dimensions of the first [view_count] viewports
    are both non-zero (the condition every pass asserts), the grid of 8x8
    work groups covers each of these viewports, and is no larger than the
    largest of them needs. *)
Theorem dispatch_covers_active_views (views : list render_viewport_data)
    (view_count gw gh : Z) :
  Forall viewport_valid views →
  calc_dispatch_dims_views views view_count = Ok (gw, gh) →
  gw ≠ 0 → gh ≠ 0 →
  (∀ (i : nat) v, (i < Z.to_nat view_count)%nat → views !! i = Some v →
     v.(w) ≤ gw * 8 ∧ v.(h) ≤ gh * 8) ∧
  (∃ (i j : nat) vi vj,
     (i < Z.to_nat view_count)%nat ∧ views !! i = Some vi ∧
     (j < Z.to_nat view_count)%nat ∧ views !! j = Some vj ∧
     (gw - 1) * 8 < vi.(w) ∧ (gh - 1) * 8 < vj.(h)).
Proof.
  intros Hvalid Hdims Hgw Hgh.
  pose proof (calc_dispatch_dims_views_reads _ _ _ Hdims) as Hn.
  rewrite calc_dispatch_dims_views_take in Hdims by done.
  set (active := take (Z.to_nat view_count) views) in *.
  assert (Forall viewport_valid active) as Hactive by by apply Forall_take.
  assert (is_uint32 (foldl Z.max 0 (w <$> active))) as Hmw.
  { apply foldl_max_uint32. eapply Forall_impl; [exact Hactive|].
    by intros ? (_ & _ & ? & _). }
  assert (is_uint32 (foldl Z.max 0 (h <$> active))) as Hmh.
  { apply foldl_max_uint32. eapply Forall_impl; [exact Hactive|].
    by intros ? (_ & _ & _ & ?). }
  simplify_eq.
  apply uint_divide_and_round_up_nonzero in Hgw, Hgh; [|done..].
  rewrite !uint_divide_and_round_up_ceil by lia.
  pose proof (ceil_div8_bounds (foldl Z.max 0 (w <$> active))) as [Hw1 Hw2].
  pose proof (ceil_div8_bounds (foldl Z.max 0 (h <$> active))) as [Hh1 Hh2].
  split.
  - intros i v Hi Hv.
    assert (v ∈ active) as Hin.
    { apply list_elem_of_lookup. exists i. unfold active.
      by rewrite lookup_take_lt. }
    pose proof (foldl_max_upper (w <$> active) 0 v.(w)) as Hwv.
    pose proof (foldl_max_upper (h <$> active) 0 v.(h)) as Hhv.
    split; [etrans; [apply Hwv|done]|etrans; [apply Hhv|done]];
      apply list_elem_of_fmap; eauto.
  - destruct (foldl_max_attained w active) as (vi & Hvi & Hwi); [lia|].
    destruct (foldl_max_attained h active) as (vj & Hvj & Hhj); [lia|].
    apply list_elem_of_lookup in Hvi as [i Hi], Hvj as [j Hj].
    unfold active in Hi, Hj.
    apply lookup_take_Some in Hi as [Hi Hilt], Hj as [Hj Hjlt].
    exists i, j, vi, vj. repeat split; try done; lia.
Qed.


(** ** Calls outside the contract *)

Lemma for_range_no_assert {St} (body : nat → St → result St) start count (s : St) :
  (∀ i a, body i a ≠ AssertFailed) →
  for_range start count body s ≠ AssertFailed.
Proof.
  intros Hbody. revert start s. induction count as [|count IH]; intros start s; [done|].
  simpl. destruct (body start s) as [a| |] eqn:Ha; simpl; [apply IH| |done].
  by apply Hbody in Ha.
Qed.

Lemma array_get_no_assert {A B} (a : list A) i (f : A → result B) :
  (∀ v, f v ≠ AssertFailed) → array_get a i ≫= f ≠ AssertFailed.
Proof. intros Hf. unfold array_get. destruct (a !! i); simpl; [apply Hf|done]. Qed.

Lemma uarray_get_no_assert {A B} (a : list (option A)) i (f : A → result B) :
  (∀ v, f v ≠ AssertFailed) → uarray_get a i ≫= f ≠ AssertFailed.
Proof.
  intros Hf. unfold uarray_get. destruct (a !! i) as [[]|]; simpl; [apply Hf|done..].
Qed.

Lemma array_set_no_assert {A B} (a : list A) i v (f : list A → result B) :
  (∀ a', f a' ≠ AssertFailed) → array_set a i v ≫= f ≠ AssertFailed.
Proof. intros Hf. unfold array_set. case_decide; simpl; [apply Hf|done]. Qed.

Lemma array_set_no_assert' {A} (a : list A) i v : array_set a i v ≠ AssertFailed.
Proof. unfold array_set. by case_decide. Qed.

Lemma array_set_full {A} (a : list A) v : array_set a (length a) v = Undefined.
Proof. unfold array_set. rewrite decide_False; [done|lia]. Qed.

Lemma array_get_then_undefined {A B} (a : list A) i (f : A → result B) :
  (∀ v, f v = Undefined) → array_get a i ≫= f = Undefined.
Proof. intros Hf. unfold array_get. destruct (a !! i); simpl; [apply Hf|done]. Qed.

Lemma uarray_get_then_undefined {A B} (a : list (option A)) i (f : A → result B) :
  (∀ v, f v = Undefined) → uarray_get a i ≫= f = Undefined.
Proof.
  intros Hf. unfold uarray_get. destruct (a !! i) as [[]|]; simpl; [apply Hf|done..].
Qed.

(** The image-info loop of the descriptor updates overflows its local array
    when asked for more elements than the array holds. *)
Lemma image_info_loop_overflow (samplers image_views : list (option Z)) (n M : nat) :
  (M < n)%nat →
  for_range 0 n (λ i a,
      s ← uarray_get samplers i;
      v ← uarray_get image_views i;
      array_set a i
        (Some {| sampler := s; imageView := v;
                 imageLayout := VK_IMAGE_LAYOUT_SHADER_READ_ONLY_OPTIMAL |}))
    (replicate M None) = Undefined.
Proof.
  intros Hn.
  apply (for_range_undefined
           (λ _ (a : list (option VkDescriptorImageInfo)), length a = M) _ 0 n M);
    [lia|apply length_replicate| | |].
  - intros i a a' Hi Hlen Hbody.
    apply bind_Ok in Hbody as (s & _ & Hbody).
    apply bind_Ok in Hbody as (v & _ & Hbody).
    apply array_set_Ok in Hbody as [_ ->]. by rewrite length_insert.
  - intros i a Hi Hlen.
    apply uarray_get_no_assert. intros s.
    apply uarray_get_no_assert. intros v. apply array_set_no_assert'.
  - intros a Hlen.
    apply uarray_get_then_undefined. intros s.
    apply uarray_get_then_undefined. intros v.
    rewrite <-Hlen. apply array_set_full.
Qed.

Lemma fill_distortion_samplers_overflow (view_count sampler : Z) :
  (XRT_MAX_VIEWS < Z.to_nat view_count)%nat →
  3 * Z.of_nat XRT_MAX_VIEWS ≤ UINT32_MAX →
  fill_distortion_samplers view_count sampler = Undefined.
Proof.
  intros Hn HM. unfold fill_distortion_samplers, for_upto.
  apply (for_range_undefined
           (λ _ (a : list (option Z)), length a = (3 * XRT_MAX_VIEWS)%nat)
           _ 0 _ XRT_MAX_VIEWS);
    [lia|apply length_replicate| | |].
  - intros i a a' Hi Hlen Hbody.
    apply bind_Ok in Hbody as (a1 & [_ ->]%array_set_Ok & Hbody).
    apply bind_Ok in Hbody as (a2 & [_ ->]%array_set_Ok & Hbody).
    apply array_set_Ok in Hbody as [_ ->]. by rewrite !length_insert.
  - intros i a Hi Hlen.
    apply array_set_no_assert. intros a1.
    apply array_set_no_assert. intros a2. apply array_set_no_assert'.
  - intros a Hlen. unfold index3, UINT32_MAX in *.
    rewrite (uint32_wrap_small (3 * Z.of_nat XRT_MAX_VIEWS)) by lia.
    rewrite (uint32_wrap_small (3 * Z.of_nat XRT_MAX_VIEWS + 0)) by lia.
    replace (Z.to_nat (3 * Z.of_nat XRT_MAX_VIEWS + 0)) with (length a) by lia.
    by rewrite array_set_full.
Qed.

(** X3: a call that asks for more elements than the local arrays of the pass
    hold -- a source count above [RENDER_MAX_IMAGES_SIZE] for the layers
    pass, a view count above [XRT_MAX_VIEWS] for the others -- is not
    rejected: on an attached context it neither fails an assertion nor
    returns; its behaviour is undefined (some memory access of the call is
    invalid; which one comes first depends on the other arguments). *)
Theorem pass_overflows_local_arrays render rs call σ :
  render.(r) = Some rs →
  (pass_array_bound call < Z.to_nat (pass_element_count rs call))%nat →
  3 * Z.of_nat XRT_MAX_VIEWS ≤ UINT32_MAX →
  run_pass render call σ = Undefined.
Proof.
  intros Hr Hn HM. destruct call; simpl in Hn |- *.
  - unfold render_compute_layers, assert_attached. rewrite Hr.
    cbn [mbind result_bind].
    unfold update_compute_layer_descriptor_set, for_upto.
    by rewrite image_info_loop_overflow.
  - unfold render_compute_projection, assert_attached, load_ubo. rewrite Hr.
    cbn [mbind result_bind].
    destruct (mapped_memory σ !! compute_distortion_ubo_mapped rs) as [data|];
      [|done].
    cbn [mbind result_bind].
    match goal with
    | |- (?loop ≫= _) = _ => destruct loop as [data'| |] eqn:Hloop
    end; cbn [mbind result_bind]; [| |done].
    + by rewrite fill_distortion_samplers_overflow.
    + exfalso. revert Hloop. apply for_range_no_assert. intros i a.
      apply array_get_no_assert. intros v.
      apply array_set_no_assert. intros a1.
      apply array_get_no_assert. intros p.
      apply array_set_no_assert. intros a2. done.
  - unfold render_compute_projection_timewarp, assert_attached. rewrite Hr.
    cbn [mbind result_bind]. unfold for_upto.
    rewrite (for_range_undefined
               (λ _ (a : list (option xrt_matrix_4x4)), length a = XRT_MAX_VIEWS)
               _ 0 _ XRT_MAX_VIEWS); [done|lia|apply length_replicate| | |].
    + intros i a a' Hi Hlen Hbody.
      apply bind_Ok in Hbody as (p & _ & Hbody).
      apply bind_Ok in Hbody as (f & _ & Hbody).
      apply bind_Ok in Hbody as (np & _ & Hbody).
      apply array_set_Ok in Hbody as [_ ->]. by rewrite length_insert.
    + intros i a Hi Hlen.
      apply array_get_no_assert. intros p.
      apply array_get_no_assert. intros f.
      apply array_get_no_assert. intros np. apply array_set_no_assert'.
    + intros a Hlen.
      apply array_get_then_undefined. intros p.
      apply array_get_then_undefined. intros f.
      apply array_get_then_undefined. intros np.
      rewrite <-Hlen. apply array_set_full.
  - unfold render_compute_clear, assert_attached. rewrite Hr.
    cbn [mbind result_bind]. unfold for_upto.
    rewrite (for_range_undefined
               (λ _ (a : list (option xrt_matrix_4x4)), length a = XRT_MAX_VIEWS)
               _ 0 _ XRT_MAX_VIEWS); [done|lia|apply length_replicate| | |].
    + intros i a a' Hi Hlen [_ ->]%array_set_Ok. by rewrite length_insert.
    + intros i a Hi Hlen. apply array_set_no_assert'.
    + intros a Hlen. rewrite <-Hlen. apply array_set_full.
Qed.


(** X4: with a view count of zero the projection, projection-timewarp and
    clear passes have nothing to take a maximum of, compute a 0x0 dispatch
    and fail their assertion, whatever viewports they are given. *)
Theorem no_views_no_dispatch render rs call σ :
  render.(r) = Some rs →
  rs.(view_count) = 0 →
  is_Some (pass_target_image call) →
  (∀ mapped, pass_ubo_mapped rs call = Some mapped →
             is_Some (σ.(mapped_memory) !! mapped)) →
  run_pass render call σ = AssertFailed.
Proof.
  intros Hr Hvc [target Htarget] Hmapped.
  destruct call; simpl in Htarget; [done| | |]; simpl.
  - destruct (Hmapped _ eq_refl) as [data Hdata].
    unfold render_compute_projection, assert_attached, load_ubo,
      fill_distortion_samplers, update_compute_shared_descriptor_set,
      calc_dispatch_dims_views, for_upto.
    rewrite Hr. cbn [mbind result_bind]. rewrite Hdata, Hvc. reflexivity.
  - destruct (Hmapped _ eq_refl) as [data Hdata].
    unfold render_compute_projection_timewarp, assert_attached, load_ubo,
      fill_distortion_samplers, update_compute_shared_descriptor_set,
      calc_dispatch_dims_views, for_upto.
    rewrite Hr. cbn [mbind result_bind]. rewrite Hvc. cbn [Z.to_nat for_range].
    cbn [mbind result_bind]. rewrite Hdata. reflexivity.
  - destruct (Hmapped _ eq_refl) as [data Hdata].
    unfold render_compute_clear, assert_attached, load_ubo,
      fill_clear_arrays, update_compute_shared_descriptor_set,
      calc_dispatch_dims_views, for_upto.
    rewrite Hr. cbn [mbind result_bind]. rewrite Hvc. cbn [Z.to_nat for_range].
    cbn [mbind result_bind]. rewrite Hdata. reflexivity.
Qed.

(** X5: the back-reference is the only state the entry points check: every
    pass and [render_compute_fini] fail their assertion on a context that is
    not attached, and [render_compute_init] fails its assertion on one that
    is, so a second init without a fini in between is caught. *)
Theorem attachment_is_asserted render rs call σ :
  (render.(r) = None →
   run_pass render call σ = AssertFailed ∧
   render_compute_fini render σ = AssertFailed) ∧
  (is_Some render.(r) → render_compute_init render rs σ = AssertFailed).
Proof.
  split.
  - intros Hr. split.
    + destruct call; simpl;
        unfold render_compute_layers, render_compute_projection,
          render_compute_projection_timewarp, render_compute_clear,
          assert_attached; by rewrite Hr.
    + unfold render_compute_fini, assert_attached. by rewrite Hr.
  - intros [rs' Hr]. unfold render_compute_init, assert_detached. by rewrite Hr.
Qed.


(** ** The whole effect of a pass *)

Lemma recorded_record_ne cmd cmd' c σ :
  cmd' ≠ cmd → recorded cmd' (record cmd c σ) = recorded cmd' σ.
Proof. intros Hne. unfold recorded, record. simpl. by rewrite lookup_insert_ne. Qed.

Lemma update_compute_layer_descriptor_set_writes src_binding src_samplers
    src_image_views image_count target_binding target_image_view ubo_binding
    ubo_buffer ubo_size descriptor_set σ σ' :
  update_compute_layer_descriptor_set src_binding src_samplers src_image_views
    image_count target_binding target_image_view ubo_binding ubo_buffer ubo_size
    descriptor_set σ = Ok σ' →
  ∃ src_image_info,
    vkUpdateDescriptorSets
      (layer_shape_writes descriptor_set src_binding target_binding ubo_binding
         image_count target_image_view ubo_buffer ubo_size src_image_info) σ
    = Ok σ'.
Proof.
  unfold update_compute_layer_descriptor_set.
  intros (info & _ & Hu)%bind_Ok. by exists info.
Qed.

Lemma update_compute_shared_descriptor_set_writes' src_binding src_samplers
    src_image_views distortion_binding distortion_samplers
    distortion_image_views target_binding target_image_view ubo_binding
    ubo_buffer ubo_size descriptor_set view_count σ σ' :
  update_compute_shared_descriptor_set src_binding src_samplers src_image_views
    distortion_binding distortion_samplers distortion_image_views
    target_binding target_image_view ubo_binding ubo_buffer ubo_size
    descriptor_set view_count σ = Ok σ' →
  ∃ src_image_info distortion_image_info,
    vkUpdateDescriptorSets
      (shared_shape_writes descriptor_set src_binding distortion_binding
         target_binding ubo_binding view_count target_image_view ubo_buffer
         ubo_size src_image_info distortion_image_info) σ
    = Ok σ'.
Proof.
  unfold update_compute_shared_descriptor_set.
  intros (sinfo & _ & (dinfo & _ & Hu)%bind_Ok)%bind_Ok. by exists sinfo, dinfo.
Qed.

(** What a pass that returns has done to the state behind the device, field
    by field. *)
Lemma run_pass_effect render call σ σ' :
  run_pass render call σ = Ok σ' →
  ∃ rs src_image_info distortion_image_info gw gh,
    render.(r) = Some rs ∧
    gw ≠ 0 ∧ gh ≠ 0 ∧
    apply_writes
      (pass_writes render rs call src_image_info distortion_image_info)
      σ.(descriptors) = Ok σ'.(descriptors) ∧
    σ'.(descriptor_updates)
    = σ.(descriptor_updates)
      ++ [pass_writes render rs call src_image_info distortion_image_info] ∧
    σ'.(descriptor_pools) = σ.(descriptor_pools) ∧
    σ'.(next_handle) = σ.(next_handle) ∧
    recorded rs.(cmd) σ'
    = recorded rs.(cmd) σ ++ pass_commands render rs call gw gh ∧
    (∀ cmd', cmd' ≠ rs.(cmd) → recorded cmd' σ' = recorded cmd' σ) ∧
    match pass_ubo_mapped rs call with
    | None => σ'.(mapped_memory) = σ.(mapped_memory)
    | Some mapped =>
        ∃ data', σ'.(mapped_memory) = <[mapped := data']> σ.(mapped_memory)
    end.
Proof.
  intros Hrun. destruct call; simpl in Hrun.
  - unfold render_compute_layers in Hrun.
    apply bind_Ok in Hrun as (rs & Hrs%assert_attached_Ok & Hrun).
    apply bind_Ok in Hrun as (σu & Hσu & Hrun).
    apply update_compute_layer_descriptor_set_writes in Hσu as (info & Hσu).
    apply vkUpdateDescriptorSets_Ok in Hσu as (d & Hd & ->).
    apply bind_Ok in Hrun as (u & Hassert & Hrun).
    apply c_assert_Ok, andb_prop in Hassert
      as [Hgw%bool_decide_eq_true Hgh%bool_decide_eq_true].
    simplify_eq.
    exists rs, info, [], (uint_divide_and_round_up (w view) 8),
      (uint_divide_and_round_up (h view) 8). repeat split; try done.
    + solve_recorded.
    + intros cmd' Hne.
      unfold vkCmdDispatch, vkCmdBindDescriptorSets, vkCmdBindPipeline.
      by rewrite !recorded_record_ne by done.
  - unfold render_compute_projection in Hrun.
    apply bind_Ok in Hrun as (rs & Hrs%assert_attached_Ok & Hrun).
    apply bind_Ok in Hrun as (data & Hdata & Hrun).
    apply bind_Ok in Hrun as (data' & Hdata' & Hrun).
    apply bind_Ok in Hrun as (ds & Hds & Hrun).
    apply bind_Ok in Hrun as (σu & Hσu & Hrun).
    apply update_compute_shared_descriptor_set_writes' in Hσu
      as (sinfo & dinfo & Hσu).
    apply vkUpdateDescriptorSets_Ok in Hσu as (d & Hd & ->).
    apply bind_Ok in Hrun as ([gw gh] & Hdims & Hrun).
    apply bind_Ok in Hrun as (u & Hassert & Hrun).
    apply c_assert_Ok, andb_prop in Hassert
      as [Hgw%bool_decide_eq_true Hgh%bool_decide_eq_true].
    simplify_eq.
    exists rs, sinfo, dinfo, gw, gh. repeat split; try done.
    + solve_recorded.
    + intros cmd' Hne.
      unfold vkCmdPipelineBarrier, vkCmdDispatch, vkCmdBindDescriptorSets,
        vkCmdBindPipeline, vk_cmd_image_barrier_gpu_locked.
      rewrite !recorded_record_ne by done. rewrite recorded_descriptor_update.
      by rewrite recorded_record_ne by done.
    + simpl. by eexists.
  - unfold render_compute_projection_timewarp in Hrun.
    apply bind_Ok in Hrun as (rs & Hrs%assert_attached_Ok & Hrun).
    apply bind_Ok in Hrun as (tw & Htw & Hrun).
    apply bind_Ok in Hrun as (data & Hdata & Hrun).
    apply bind_Ok in Hrun as (data' & Hdata' & Hrun).
    apply bind_Ok in Hrun as (ds & Hds & Hrun).
    apply bind_Ok in Hrun as (σu & Hσu & Hrun).
    apply update_compute_shared_descriptor_set_writes' in Hσu
      as (sinfo & dinfo & Hσu).
    apply vkUpdateDescriptorSets_Ok in Hσu as (d & Hd & ->).
    apply bind_Ok in Hrun as ([gw gh] & Hdims & Hrun).
    apply bind_Ok in Hrun as (u & Hassert & Hrun).
    apply c_assert_Ok, andb_prop in Hassert
      as [Hgw%bool_decide_eq_true Hgh%bool_decide_eq_true].
    simplify_eq.
    exists rs, sinfo, dinfo, gw, gh. repeat split; try done.
    + solve_recorded.
    + intros cmd' Hne.
      unfold vkCmdPipelineBarrier, vkCmdDispatch, vkCmdBindDescriptorSets,
        vkCmdBindPipeline, vk_cmd_image_barrier_gpu_locked.
      rewrite !recorded_record_ne by done. rewrite recorded_descriptor_update.
      by rewrite recorded_record_ne by done.
    + simpl. by eexists.
  - unfold render_compute_clear in Hrun.
    apply bind_Ok in Hrun as (rs & Hrs%assert_attached_Ok & Hrun).
    apply bind_Ok in Hrun as (tr & Htr & Hrun).
    apply bind_Ok in Hrun as (data & Hdata & Hrun).
    apply bind_Ok in Hrun as (data' & Hdata' & Hrun).
    apply bind_Ok in Hrun as ([[ss vs] ds] & Hds & Hrun).
    apply bind_Ok in Hrun as (σu & Hσu & Hrun).
    apply update_compute_shared_descriptor_set_writes' in Hσu
      as (sinfo & dinfo & Hσu).
    apply vkUpdateDescriptorSets_Ok in Hσu as (d & Hd & ->).
    apply bind_Ok in Hrun as ([gw gh] & Hdims & Hrun).
    apply bind_Ok in Hrun as (u & Hassert & Hrun).
    apply c_assert_Ok, andb_prop in Hassert
      as [Hgw%bool_decide_eq_true Hgh%bool_decide_eq_true].
    simplify_eq.
    exists rs, sinfo, dinfo, gw, gh. repeat split; try done.
    + solve_recorded.
    + intros cmd' Hne.
      unfold vkCmdPipelineBarrier, vkCmdDispatch, vkCmdBindDescriptorSets,
        vkCmdBindPipeline, vk_cmd_image_barrier_gpu_locked.
      rewrite !recorded_record_ne by done. rewrite recorded_descriptor_update.
      by rewrite recorded_record_ne by done.
    + simpl. by eexists.
Qed.

Lemma pass_writes_set render rs call src_image_info distortion_image_info :
  Forall (λ write, write.(dstSet) = pass_descriptor_set render call)
    (pass_writes render rs call src_image_info distortion_image_info).
Proof. destruct call; simpl; by repeat constructor. Qed.

Lemma apply_writes_other_set (writes : list VkWriteDescriptorSet)
    (d d' : gmap slot descriptor) (descriptor_set : Z) (k : slot) :
  apply_writes writes d = Ok d' →
  Forall (λ write, write.(dstSet) = descriptor_set) writes →
  k.1.1 ≠ descriptor_set →
  d' !! k = d !! k.
Proof.
  intros Hd Hset Hk. apply (apply_writes_other _ _ _ _ Hd).
  intros (write & Hwrite & Hin)%list_elem_of_bind.
  apply elem_of_write_targets in Hwrite as (j & _ & ->).
  rewrite Forall_forall in Hset. by apply Hk, Hset.
Qed.

(** X6: what a pass never touches. A call that returns has left every
    descriptor pool, every command buffer other than [r->cmd], every mapped
    uniform record other than its own (all of them, for the layers pass) and
    every descriptor set other than the one it updates exactly as they
    were. *)
Theorem pass_leaves_the_rest_alone render call σ σ' :
  run_pass render call σ = Ok σ' →
  ∃ rs,
    render.(r) = Some rs ∧
    σ'.(descriptor_pools) = σ.(descriptor_pools) ∧
    (∀ cmd', cmd' ≠ rs.(cmd) → recorded cmd' σ' = recorded cmd' σ) ∧
    (∀ mapped, pass_ubo_mapped rs call ≠ Some mapped →
       σ'.(mapped_memory) !! mapped = σ.(mapped_memory) !! mapped) ∧
    (∀ k : slot, k.1.1 ≠ pass_descriptor_set render call →
       σ'.(descriptors) !! k = σ.(descriptors) !! k).
Proof.
  intros (rs & sinfo & dinfo & gw & gh & Hrs & _ & _ & Hd & _ & Hpools & _ & _ &
          Hcmds & Hmapped)%run_pass_effect.
  exists rs. repeat split; try done.
  - intros mapped Hne. destruct (pass_ubo_mapped rs call) as [mapped'|].
    + destruct Hmapped as [data' ->]. rewrite lookup_insert_ne; [done|congruence].
    + by rewrite Hmapped.
  - intros k Hk. eapply apply_writes_other_set; [exact Hd| |exact Hk].
    apply pass_writes_set.
Qed.

(** X7: a pass binds what it has just set up. A call that returns has made
    one [vkUpdateDescriptorSets] call, all of whose writes go to one
    descriptor set; it has bound that same set, with the pipeline and the
    pipeline layout of the pass, right before its dispatch; and the uniform
    buffer now bound in the set is the buffer of the pass. *)
Theorem pass_binds_what_it_updated render call σ σ' :
  run_pass render call σ = Ok σ' →
  ∃ rs writes before gw gh after,
    render.(r) = Some rs ∧
    σ'.(descriptor_updates) = σ.(descriptor_updates) ++ [writes] ∧
    Forall (λ write, write.(dstSet) = pass_descriptor_set render call) writes ∧
    recorded rs.(cmd) σ'
    = recorded rs.(cmd) σ ++ before ++ [
        CmdBindPipeline VK_PIPELINE_BIND_POINT_COMPUTE (pass_pipeline rs call);
        CmdBindDescriptorSets VK_PIPELINE_BIND_POINT_COMPUTE
          (pass_pipeline_layout rs call) 0 [pass_descriptor_set render call] [];
        CmdDispatch gw gh (pass_depth call)] ++ after ∧
    σ'.(descriptors)
      !! (pass_descriptor_set render call, rs.(compute_ubo_binding), 0)
    = Some (BufferDescriptor VK_DESCRIPTOR_TYPE_UNIFORM_BUFFER
              (ubo_info (pass_ubo_buffer rs call) VK_WHOLE_SIZE)).
Proof.
  intros (rs & sinfo & dinfo & gw & gh & Hrs & _ & _ & Hd & Hupd & _ & _ & Hrec &
          _ & _)%run_pass_effect.
  eexists rs, _, _, gw, gh, _.
  split; [done|]. split; [exact Hupd|]. split; [apply pass_writes_set|].
  split; [exact Hrec|].
  destruct call; simpl in Hd |- *.
  - apply bind_Ok in Hd as (ds & _ & Hd). simplify_eq.
    rewrite <-Hd. apply lookup_insert_eq.
  - apply bind_Ok in Hd as (ds & _ & Hd).
    apply bind_Ok in Hd as (dds & _ & Hd). simplify_eq.
    rewrite <-Hd. apply lookup_insert_eq.
  - apply bind_Ok in Hd as (ds & _ & Hd).
    apply bind_Ok in Hd as (dds & _ & Hd). simplify_eq.
    rewrite <-Hd. apply lookup_insert_eq.
  - apply bind_Ok in Hd as (ds & _ & Hd).
    apply bind_Ok in Hd as (dds & _ & Hd). simplify_eq.
    rewrite <-Hd. apply lookup_insert_eq.
Qed.


(** ** What ends up in the descriptor sets *)

Lemma not_elem_of_write_targets_binding write (k : slot) :
  k.1.2 ≠ write.(dstBinding) → k ∉ write_targets write.
Proof. intros Hk (j & _ & ->)%elem_of_write_targets. done. Qed.

(** The contents the shared-shape update leaves, given the image infos its
    two loops have gathered. *)
Lemma shared_update_contents src_binding
    (src_samplers src_image_views : list (option Z)) distortion_binding
    (distortion_samplers distortion_image_views : list (option Z))
    target_binding target_image_view ubo_binding ubo_buffer ubo_size
    descriptor_set view_count (ss vs dss dvs : list Z) σ σ' :
  views_fit view_count →
  take (Z.to_nat view_count) src_samplers = Some <$> ss →
  length ss = Z.to_nat view_count →
  take (Z.to_nat view_count) src_image_views = Some <$> vs →
  length vs = Z.to_nat view_count →
  take (3 * Z.to_nat view_count) distortion_samplers = Some <$> dss →
  length dss = (3 * Z.to_nat view_count)%nat →
  take (3 * Z.to_nat view_count) distortion_image_views = Some <$> dvs →
  length dvs = (3 * Z.to_nat view_count)%nat →
  src_binding ≠ distortion_binding → src_binding ≠ target_binding →
  src_binding ≠ ubo_binding → distortion_binding ≠ target_binding →
  distortion_binding ≠ ubo_binding → target_binding ≠ ubo_binding →
  update_compute_shared_descriptor_set src_binding src_samplers src_image_views
    distortion_binding distortion_samplers distortion_image_views
    target_binding target_image_view ubo_binding ubo_buffer ubo_size
    descriptor_set view_count σ = Ok σ' →
  length σ'.(descriptor_updates) = S (length σ.(descriptor_updates)) ∧
  (∀ (i : nat) info, zip_with image_info ss vs !! i = Some info →
     σ'.(descriptors) !! (descriptor_set, src_binding, Z.of_nat i)
     = Some (ImageDescriptor VK_DESCRIPTOR_TYPE_COMBINED_IMAGE_SAMPLER info)) ∧
  (∀ (j : nat) info, zip_with image_info dss dvs !! j = Some info →
     σ'.(descriptors) !! (descriptor_set, distortion_binding, Z.of_nat j)
     = Some (ImageDescriptor VK_DESCRIPTOR_TYPE_COMBINED_IMAGE_SAMPLER info)) ∧
  σ'.(descriptors) !! (descriptor_set, target_binding, 0)
  = Some (ImageDescriptor VK_DESCRIPTOR_TYPE_STORAGE_IMAGE
            (target_info target_image_view)) ∧
  σ'.(descriptors) !! (descriptor_set, ubo_binding, 0)
  = Some (BufferDescriptor VK_DESCRIPTOR_TYPE_UNIFORM_BUFFER
            (ubo_info ubo_buffer ubo_size)) ∧
  (∀ k : slot,
     k ∉ shared_shape_slots descriptor_set src_binding distortion_binding
           target_binding ubo_binding view_count →
     σ'.(descriptors) !! k = σ.(descriptors) !! k).
Proof.
  intros Hfit Hss Hssl Hvs Hvsl Hdss Hdssl Hdvs Hdvsl Hsd Hst Hsu Hdt Hdu Htu Hrun.
  rewrite (update_compute_shared_descriptor_set_call _ _ _ _ _ _ _ _ _ _ _ _ _
             ss vs dss dvs) in Hrun by done.
  destruct (views_fit_distortion_count _ Hfit) as [_ Hnat].
  set (infos := zip_with image_info ss vs) in *.
  set (dinfos := zip_with image_info dss dvs) in *.
  assert (length infos = Z.to_nat view_count) as Hinfos.
  { unfold infos. rewrite length_zip_with. lia. }
  assert (length dinfos = Z.to_nat (3 * view_count)) as Hdinfos.
  { unfold dinfos. rewrite length_zip_with. lia. }
  unfold vkUpdateDescriptorSets, apply_writes, write_contents in Hrun.
  cbn [descriptorType descriptorCount pImageInfo pBufferInfo] in Hrun.
  pose proof (read_image_infos_prefix infos
                (replicate (XRT_MAX_VIEWS - Z.to_nat view_count) None)) as Hread.
  pose proof (read_image_infos_prefix dinfos
                (replicate (3 * XRT_MAX_VIEWS - 3 * Z.to_nat view_count) None))
    as Hdread.
  rewrite Hinfos in Hread. rewrite Hdinfos in Hdread.
  rewrite Hread in Hrun. cbn [fmap result_fmap mbind result_bind] in Hrun.
  rewrite Hdread in Hrun. simpl in Hrun. simplify_eq. simpl.
  set (w1 := {| dstSet := descriptor_set; dstBinding := src_binding;
                dstArrayElement := 0; descriptorCount := view_count;
                descriptorType := VK_DESCRIPTOR_TYPE_COMBINED_IMAGE_SAMPLER;
                pImageInfo := _; pBufferInfo := [] |}).
  set (w2 := {| dstSet := descriptor_set; dstBinding := distortion_binding;
                dstArrayElement := 0; descriptorCount := 3 * view_count;
                descriptorType := VK_DESCRIPTOR_TYPE_COMBINED_IMAGE_SAMPLER;
                pImageInfo := _; pBufferInfo := [] |}).
  set (ds := ImageDescriptor VK_DESCRIPTOR_TYPE_COMBINED_IMAGE_SAMPLER <$> infos).
  set (dds := ImageDescriptor VK_DESCRIPTOR_TYPE_COMBINED_IMAGE_SAMPLER <$> dinfos).
  assert (length ds = Z.to_nat (descriptorCount w1)) as Hds
    by (unfold ds; by rewrite length_fmap).
  assert (length dds = Z.to_nat (descriptorCount w2)) as Hdds
    by (unfold dds; by rewrite length_fmap).
  split; [rewrite length_app; simpl; lia|].
  split; [|split; [|split; [|split]]].
  - intros i info Hi.
    rewrite !lookup_insert_ne by (intros ?; simplify_eq).
    rewrite (store_write_other w2 dds) by
      (done || by apply not_elem_of_write_targets_binding).
    apply (store_write_lookup w1 ds _ i); [done|].
    unfold ds. by rewrite list_lookup_fmap, Hi.
  - intros j info Hj.
    rewrite !lookup_insert_ne by (intros ?; simplify_eq).
    apply (store_write_lookup w2 dds _ j); [done|].
    unfold dds. by rewrite list_lookup_fmap, Hj.
  - rewrite lookup_insert_ne by (intros ?; simplify_eq).
    by rewrite lookup_insert_eq.
  - by rewrite lookup_insert_eq.
  - intros k Hk. unfold shared_shape_slots in Hk.
    rewrite !not_elem_of_app, !not_elem_of_cons in Hk.
    destruct Hk as (Hk1 & Hk2 & Hk3 & Hk4 & _).
    rewrite !lookup_insert_ne by done.
    rewrite (store_write_other w2 dds), (store_write_other w1 ds); done.
Qed.

Lemma layer_update_contents src_binding (src_samplers src_image_views : list Z)
    image_count target_binding target_image_view ubo_binding ubo_buffer ubo_size
    descriptor_set σ σ' :
  0 ≤ image_count →
  (Z.to_nat image_count ≤ RENDER_MAX_IMAGES_SIZE)%nat →
  (Z.to_nat image_count ≤ length src_samplers)%nat →
  (Z.to_nat image_count ≤ length src_image_views)%nat →
  src_binding ≠ target_binding → src_binding ≠ ubo_binding →
  target_binding ≠ ubo_binding →
  update_compute_layer_descriptor_set src_binding
    (Some <$> src_samplers) (Some <$> src_image_views) image_count
    target_binding target_image_view ubo_binding ubo_buffer ubo_size
    descriptor_set σ = Ok σ' →
  (∀ (i : nat) info,
     zip_with image_info (take (Z.to_nat image_count) src_samplers)
       (take (Z.to_nat image_count) src_image_views) !! i = Some info →
     σ'.(descriptors) !! (descriptor_set, src_binding, Z.of_nat i)
     = Some (ImageDescriptor VK_DESCRIPTOR_TYPE_COMBINED_IMAGE_SAMPLER info)) ∧
  σ'.(descriptors) !! (descriptor_set, target_binding, 0)
  = Some (ImageDescriptor VK_DESCRIPTOR_TYPE_STORAGE_IMAGE
            (target_info target_image_view)) ∧
  σ'.(descriptors) !! (descriptor_set, ubo_binding, 0)
  = Some (BufferDescriptor VK_DESCRIPTOR_TYPE_UNIFORM_BUFFER
            (ubo_info ubo_buffer ubo_size)).
Proof.
  intros Hn HM Hs Hv Hst Hsu Htu Hrun.
  rewrite update_compute_layer_descriptor_set_call in Hrun by done.
  set (n := Z.to_nat image_count) in *.
  set (infos := zip_with image_info (take n src_samplers) (take n src_image_views))
    in *.
  assert (length infos = n) as Hinfos.
  { unfold infos. rewrite length_zip_with, !length_take. lia. }
  unfold vkUpdateDescriptorSets, apply_writes, write_contents in Hrun.
  cbn [descriptorType descriptorCount pImageInfo pBufferInfo] in Hrun.
  pose proof (read_image_infos_prefix infos
                (replicate (RENDER_MAX_IMAGES_SIZE - n) None)) as Hread.
  rewrite Hinfos in Hread. fold n in Hrun. rewrite Hread in Hrun.
  simpl in Hrun. simplify_eq. simpl.
  set (w1 := {| dstSet := descriptor_set; dstBinding := src_binding;
                dstArrayElement := 0; descriptorCount := image_count;
                descriptorType := VK_DESCRIPTOR_TYPE_COMBINED_IMAGE_SAMPLER;
                pImageInfo := _; pBufferInfo := [] |}).
  set (ds := ImageDescriptor VK_DESCRIPTOR_TYPE_COMBINED_IMAGE_SAMPLER <$> infos).
  assert (length ds = Z.to_nat (descriptorCount w1)) as Hds
    by (unfold ds; by rewrite length_fmap).
  split; [|split].
  - intros i info Hi.
    rewrite !lookup_insert_ne by (intros ?; simplify_eq).
    apply (store_write_lookup w1 ds _ i); [done|].
    unfold ds. by rewrite list_lookup_fmap, Hi.
  - rewrite lookup_insert_ne by (intros ?; simplify_eq).
    by rewrite lookup_insert_eq.
  - by rewrite lookup_insert_eq.
Qed.

(** The images a ready pass has bound when it returns. *)
Lemma pass_images_bound render rs call σ σ' :
  render.(r) = Some rs →
  pass_ready render call σ →
  bindings_distinct rs →
  run_pass render call σ = Ok σ' →
  (∀ (i : nat) info, pass_sources rs call !! i = Some info →
     σ'.(descriptors) !! (pass_descriptor_set render call,
                          rs.(compute_src_binding), Z.of_nat i)
     = Some (ImageDescriptor VK_DESCRIPTOR_TYPE_COMBINED_IMAGE_SAMPLER info)) ∧
  (∀ (j : nat) info, pass_distortion_images rs call !! j = Some info →
     σ'.(descriptors) !! (pass_descriptor_set render call,
                          rs.(compute_distortion_binding), Z.of_nat j)
     = Some (ImageDescriptor VK_DESCRIPTOR_TYPE_COMBINED_IMAGE_SAMPLER info)) ∧
  σ'.(descriptors) !! (pass_descriptor_set render call,
                       rs.(compute_target_binding), 0)
  = Some (ImageDescriptor VK_DESCRIPTOR_TYPE_STORAGE_IMAGE
            (target_info (pass_target_image_view call))).
Proof.
  intros Hr Hready (Hsd & Hst & Hsu & Hdt & Hdu & Htu) Hrun.
  destruct call; simpl in Hrun, Hready.
  - destruct Hready as (_ & Hn & HM & Hs & Hv & _).
    unfold render_compute_layers in Hrun.
    apply bind_Ok in Hrun as (rs' & Hrs%assert_attached_Ok & Hrun).
    assert (rs' = rs) as -> by congruence.
    apply bind_Ok in Hrun as (σu & Hσu & Hrun).
    apply bind_Ok in Hrun as (u & _ & Hrun). simplify_eq.
    destruct (layer_update_contents _ _ _ _ _ _ _ _ _ _ _ _
                Hn HM Hs Hv Hst Hsu Htu Hσu) as (Hsrc & Htgt & _).
    split; [exact Hsrc|]. split; [|exact Htgt].
    intros j info Hj. simpl in Hj. by destruct j.
  - destruct Hready as (rs' & data0 & Hr' & Hfit & _ & _ & Hs & Hv & _ & Hdist & _).
    assert (rs' = rs) as -> by congruence.
    unfold render_compute_projection in Hrun.
    apply bind_Ok in Hrun as (rs' & Hrs%assert_attached_Ok & Hrun).
    assert (rs' = rs) as -> by congruence.
    apply bind_Ok in Hrun as (data & _ & Hrun).
    apply bind_Ok in Hrun as (data' & _ & Hrun).
    apply bind_Ok in Hrun as (ds & Hds & Hrun).
    apply bind_Ok in Hrun as (σu & Hσu & Hrun).
    apply bind_Ok in Hrun as ([gw gh] & _ & Hrun).
    apply bind_Ok in Hrun as (u & _ & Hrun). simplify_eq.
    rewrite fill_distortion_samplers_closed in Hds by done.
    injection Hds as <-.
    destruct (λ H1 H2 H3 H4 H5 H6 H7 H8,
              shared_update_contents _ _ _ _ _ _ _ _ _ _ _ _ _
                (take (Z.to_nat rs.(view_count)) src_samplers)
                (take (Z.to_nat rs.(view_count)) src_image_views)
                (replicate (3 * Z.to_nat rs.(view_count)) rs.(samplers_clamp_to_edge))
                (take (3 * Z.to_nat rs.(view_count)) rs.(distortion_image_views))
                _ _ Hfit H1 H2 H3 H4 H5 H6 H7 H8 Hsd Hst Hsu Hdt Hdu Htu Hσu)
      as (_ & Hsrc & Hdst & Htgt & _);
      [apply take_fmap_Some|by rewrite length_take_le
      |apply take_fmap_Some|by rewrite length_take_le
      |apply take_filled|apply length_replicate
      |apply take_fmap_Some|by rewrite length_take_le|].
    rewrite zip_with_replicate_l in Hdst by (rewrite length_take; lia).
    done.
  - destruct Hready as [(rs' & data0 & Hr' & Hfit & _ & _ & Hs & Hv & _ & Hdist & _) _].
    assert (rs' = rs) as -> by congruence.
    unfold render_compute_projection_timewarp in Hrun.
    apply bind_Ok in Hrun as (rs' & Hrs%assert_attached_Ok & Hrun).
    assert (rs' = rs) as -> by congruence.
    apply bind_Ok in Hrun as (tw & _ & Hrun).
    apply bind_Ok in Hrun as (data & _ & Hrun).
    apply bind_Ok in Hrun as (data' & _ & Hrun).
    apply bind_Ok in Hrun as (ds & Hds & Hrun).
    apply bind_Ok in Hrun as (σu & Hσu & Hrun).
    apply bind_Ok in Hrun as ([gw gh] & _ & Hrun).
    apply bind_Ok in Hrun as (u & _ & Hrun). simplify_eq.
    rewrite fill_distortion_samplers_closed in Hds by done.
    injection Hds as <-.
    destruct (λ H1 H2 H3 H4 H5 H6 H7 H8,
              shared_update_contents _ _ _ _ _ _ _ _ _ _ _ _ _
                (take (Z.to_nat rs.(view_count)) src_samplers)
                (take (Z.to_nat rs.(view_count)) src_image_views)
                (replicate (3 * Z.to_nat rs.(view_count)) rs.(samplers_clamp_to_edge))
                (take (3 * Z.to_nat rs.(view_count)) rs.(distortion_image_views))
                _ _ Hfit H1 H2 H3 H4 H5 H6 H7 H8 Hsd Hst Hsu Hdt Hdu Htu Hσu)
      as (_ & Hsrc & Hdst & Htgt & _);
      [apply take_fmap_Some|by rewrite length_take_le
      |apply take_fmap_Some|by rewrite length_take_le
      |apply take_filled|apply length_replicate
      |apply take_fmap_Some|by rewrite length_take_le|].
    rewrite zip_with_replicate_l in Hdst by (rewrite length_take; lia).
    done.
  - destruct Hready as (rs' & data0 & Hr' & Hfit & _ & _ & Hdist & _).
    assert (rs' = rs) as -> by congruence.
    unfold render_compute_clear in Hrun.
    apply bind_Ok in Hrun as (rs' & Hrs%assert_attached_Ok & Hrun).
    assert (rs' = rs) as -> by congruence.
    apply bind_Ok in Hrun as (tr & _ & Hrun).
    apply bind_Ok in Hrun as (data & _ & Hrun).
    apply bind_Ok in Hrun as (data' & _ & Hrun).
    apply bind_Ok in Hrun as ([[cs cv] cds] & Hfill & Hrun).
    apply bind_Ok in Hrun as (σu & Hσu & Hrun).
    apply bind_Ok in Hrun as ([gw gh] & _ & Hrun).
    apply bind_Ok in Hrun as (u & _ & Hrun). simplify_eq.
    rewrite fill_clear_arrays_closed in Hfill by done.
    injection Hfill as <- <- <-.
    destruct (λ H1 H2 H3 H4 H5 H6 H7 H8,
              shared_update_contents _ _ _ _ _ _ _ _ _ _ _ _ _
                (replicate (Z.to_nat rs.(view_count)) rs.(samplers_mock))
                (replicate (Z.to_nat rs.(view_count)) rs.(mock_color_image_view))
                (replicate (3 * Z.to_nat rs.(view_count)) rs.(samplers_mock))
                (take (3 * Z.to_nat rs.(view_count)) rs.(distortion_image_views))
                _ _ Hfit H1 H2 H3 H4 H5 H6 H7 H8 Hsd Hst Hsu Hdt Hdu Htu Hσu)
      as (_ & Hsrc & Hdst & Htgt & _);
      [apply take_filled|apply length_replicate
      |apply take_filled|apply length_replicate
      |apply take_filled|apply length_replicate
      |apply take_fmap_Some|by rewrite length_take_le|].
    rewrite zip_with_replicate in Hsrc.
    rewrite zip_with_replicate_l in Hdst by (rewrite length_take; lia).
    done.
Qed.

(** X8: a pass that is ready to run, on a device whose four compute binding
    numbers are pairwise distinct, returns with its descriptor set holding:
    at the source binding, element [i], the [i]-th source sampler and image
    view of the call (the mock sampler and the mock image view for a clear);
    at the distortion binding, element [j], the [j]-th distortion image view
    of the device with the clamp-to-edge sampler (the mock sampler for a
    clear; nothing for the layers pass); at the target binding the call's
    target image view as a storage image in the general layout. *)
Theorem pass_binds_its_images render rs call σ :
  render.(r) = Some rs →
  pass_ready render call σ →
  bindings_distinct rs →
  ∃ σ', run_pass render call σ = Ok σ' ∧
    (∀ (i : nat) info, pass_sources rs call !! i = Some info →
       σ'.(descriptors) !! (pass_descriptor_set render call,
                            rs.(compute_src_binding), Z.of_nat i)
       = Some (ImageDescriptor VK_DESCRIPTOR_TYPE_COMBINED_IMAGE_SAMPLER info)) ∧
    (∀ (j : nat) info, pass_distortion_images rs call !! j = Some info →
       σ'.(descriptors) !! (pass_descriptor_set render call,
                            rs.(compute_distortion_binding), Z.of_nat j)
       = Some (ImageDescriptor VK_DESCRIPTOR_TYPE_COMBINED_IMAGE_SAMPLER info)) ∧
    σ'.(descriptors) !! (pass_descriptor_set render call,
                         rs.(compute_target_binding), 0)
    = Some (ImageDescriptor VK_DESCRIPTOR_TYPE_STORAGE_IMAGE
              (target_info (pass_target_image_view call))).
Proof.
  intros Hr Hready Hdistinct.
  destruct (run_pass_returns render call σ Hready) as (σ' & Hrun).
  exists σ'. split; [done|]. by apply (pass_images_bound render rs call σ σ').
Qed.


(** ** Attaching and detaching *)

Lemma vk_create_descriptor_set_success descriptor_pool layout out σ pool :
  σ.(descriptor_pools) !! descriptor_pool = Some pool →
  (length pool.(allocated_sets) < pool.(max_sets))%nat →
  vk_create_descriptor_set descriptor_pool layout out σ
  = Ok (VK_SUCCESS, σ.(next_handle),
        set_next_handle (σ.(next_handle) + 1)
          (set_descriptor_pools
             (<[descriptor_pool :=
                  {| max_sets := pool.(max_sets);
                     allocated_sets := σ.(next_handle) :: pool.(allocated_sets) |}]>
                σ.(descriptor_pools)) σ)).
Proof.
  intros Hpool Hroom. unfold vk_create_descriptor_set. rewrite Hpool.
  by rewrite decide_True.
Qed.

(** The allocation loop on a pool with room for all its rounds. *)
Lemma init_layer_descriptor_sets_success rs (count : nat) : ∀ i render σ pool,
  σ.(descriptor_pools) !! rs.(compute_descriptor_pool) = Some pool →
  (i + count ≤ length render.(layer_descriptor_sets))%nat →
  (length pool.(allocated_sets) + count ≤ pool.(max_sets))%nat →
  ∃ render' σ' allocated,
    init_layer_descriptor_sets rs i count render σ = Ok (VK_SUCCESS, render', σ') ∧
    render'.(r) = render.(r) ∧
    render'.(shared_descriptor_set) = render.(shared_descriptor_set) ∧
    length render'.(layer_descriptor_sets) = length render.(layer_descriptor_sets) ∧
    (∀ k : nat, (k < count)%nat →
       render'.(layer_descriptor_sets) !! (i + k)%nat
       = Some (σ.(next_handle) + Z.of_nat k)) ∧
    (∀ j : nat, (j < i ∨ i + count ≤ j)%nat →
       render'.(layer_descriptor_sets) !! j = render.(layer_descriptor_sets) !! j) ∧
    σ'.(next_handle) = σ.(next_handle) + Z.of_nat count ∧
    σ'.(descriptor_pools) !! rs.(compute_descriptor_pool)
    = Some {| max_sets := pool.(max_sets); allocated_sets := allocated |} ∧
    length allocated = (length pool.(allocated_sets) + count)%nat ∧
    (∀ s, s ∈ allocated ↔
          s ∈ pool.(allocated_sets) ∨
          σ.(next_handle) ≤ s < σ.(next_handle) + Z.of_nat count) ∧
    (∀ p, p ≠ rs.(compute_descriptor_pool) →
       σ'.(descriptor_pools) !! p = σ.(descriptor_pools) !! p) ∧
    σ'.(descriptors) = σ.(descriptors) ∧
    σ'.(command_buffers) = σ.(command_buffers) ∧
    σ'.(mapped_memory) = σ.(mapped_memory) ∧
    σ'.(descriptor_updates) = σ.(descriptor_updates).
Proof.
  induction count as [|count IH]; intros i render σ pool Hpool Hlen Hroom.
  - exists render, σ, pool.(allocated_sets). simpl.
    split; [done|]. split; [done|]. split; [done|]. split; [done|].
    split; [intros k Hk; lia|]. split; [done|]. split; [lia|].
    split; [by destruct pool|]. split; [lia|].
    split; [|done]. intros s. split; [by left|]. intros [?|?]; [done|lia].
  - simpl.
    destruct (lookup_lt_is_Some_2 render.(layer_descriptor_sets) i) as [out Hout];
      [lia|].
    apply array_get_Ok in Hout. rewrite Hout. cbn [mbind result_bind].
    rewrite (vk_create_descriptor_set_success _ _ _ _ pool) by (done || lia).
    cbn [mbind result_bind].
    rewrite array_set_lt by lia. cbn [mbind result_bind].
    rewrite decide_True by done.
    set (render1 := set_layer_descriptor_sets _ render).
    set (σ1 := set_next_handle _ _).
    set (pool1 := {| max_sets := pool.(max_sets);
                     allocated_sets := σ.(next_handle) :: pool.(allocated_sets) |}).
    destruct (IH (S i) render1 σ1 pool1)
      as (render' & σ' & allocated & Hrun & Hr & Hshared & Hlen' & Hnew & Hold &
          Hnext & Hpool' & Hcount & Hmem & Hother & Hd & Hc & Hm & Hu).
    { unfold σ1. simpl. by rewrite lookup_insert_eq. }
    { unfold render1. simpl. rewrite length_insert. lia. }
    { unfold pool1. simpl. lia. }
    exists render', σ', allocated. rewrite Hrun.
    split; [done|]. split; [done|]. split; [done|].
    split; [by rewrite Hlen'; unfold render1; simpl; rewrite length_insert|].
    split; [|split; [|split; [|split; [|split; [|split; [|split]]]]]].
    + intros k Hk. destruct k as [|k].
      * rewrite Nat.add_0_r, Hold by lia. unfold render1. simpl.
        rewrite list_lookup_insert_eq by lia. f_equal. lia.
      * replace (i + S k)%nat with (S i + k)%nat by lia.
        rewrite Hnew by lia. unfold σ1. simpl. f_equal. lia.
    + intros j Hj. rewrite Hold by lia. unfold render1. simpl.
      apply list_lookup_insert_ne. lia.
    + rewrite Hnext. unfold σ1. simpl. lia.
    + exact Hpool'.
    + rewrite Hcount. unfold pool1. simpl. lia.
    + intros s. rewrite Hmem. unfold pool1, σ1. simpl.
      rewrite elem_of_cons. split.
      * intros [[->|?]|?]; [right; lia|by left|right; lia].
      * intros [?|?]; [left; by right|].
        destruct (decide (s = σ.(next_handle))) as [->|?];
          [left; by left|right; lia].
    + intros p Hp. rewrite Hother by done. unfold σ1. simpl.
      by rewrite lookup_insert_ne.
    + by rewrite Hd, Hc, Hm, Hu.
Qed.

(** The allocation loop reports success only after [count] allocations. *)
Lemma init_layer_descriptor_sets_success_inv rs (count : nat) :
  ∀ i render σ render' σ' pool,
  σ.(descriptor_pools) !! rs.(compute_descriptor_pool) = Some pool →
  init_layer_descriptor_sets rs i count render σ = Ok (VK_SUCCESS, render', σ') →
  ∃ allocated,
    σ'.(descriptor_pools) !! rs.(compute_descriptor_pool)
    = Some {| max_sets := pool.(max_sets); allocated_sets := allocated |} ∧
    length allocated = (length pool.(allocated_sets) + count)%nat.
Proof.
  induction count as [|count IH]; intros i render σ render' σ' pool Hpool Hinit.
  - simpl in Hinit. simplify_eq. exists pool.(allocated_sets).
    split; [by destruct pool|lia].
  - simpl in Hinit. invert_steps Hinit.
    destruct (vk_create_descriptor_set_Ok _ _ _ _ _ _ _ _ Hpool E0) as
      [(-> & Hcap & -> & Hpool')|(-> & Hfull & -> & ->)].
    + rewrite decide_True in Hinit by done.
      apply (IH _ _ _ _ _ _ Hpool') in Hinit as (allocated & Hall & Hlen).
      exists allocated. split; [done|]. rewrite Hlen. simpl. lia.
    + rewrite decide_False in Hinit by done. simplify_eq.
Qed.

(** [render_compute_init] on a detached context and a pool with room for
    all the sets. *)
Lemma render_compute_init_room render rs σ pool :
  render.(r) = None →
  σ.(descriptor_pools) !! rs.(compute_descriptor_pool) = Some pool →
  (RENDER_MAX_LAYER_RUNS_COUNT ≤ length render.(layer_descriptor_sets))%nat →
  (length pool.(allocated_sets) + RENDER_MAX_LAYER_RUNS_COUNT + 1
   ≤ pool.(max_sets))%nat →
  ∃ render' σ' allocated,
    render_compute_init render rs σ = Ok (true, render', σ') ∧
    render'.(r) = Some rs ∧
    length render'.(layer_descriptor_sets) = length render.(layer_descriptor_sets) ∧
    (∀ k : nat, (k < RENDER_MAX_LAYER_RUNS_COUNT)%nat →
       render'.(layer_descriptor_sets) !! k
       = Some (σ.(next_handle) + Z.of_nat k)) ∧
    (∀ j : nat, (RENDER_MAX_LAYER_RUNS_COUNT ≤ j)%nat →
       render'.(layer_descriptor_sets) !! j = render.(layer_descriptor_sets) !! j) ∧
    render'.(shared_descriptor_set)
    = σ.(next_handle) + Z.of_nat RENDER_MAX_LAYER_RUNS_COUNT ∧
    σ'.(next_handle) = σ.(next_handle) + Z.of_nat RENDER_MAX_LAYER_RUNS_COUNT + 1 ∧
    σ'.(descriptor_pools) !! rs.(compute_descriptor_pool)
    = Some {| max_sets := pool.(max_sets); allocated_sets := allocated |} ∧
    length allocated
    = (length pool.(allocated_sets) + RENDER_MAX_LAYER_RUNS_COUNT + 1)%nat ∧
    (∀ s, s ∈ allocated ↔
          s ∈ pool.(allocated_sets) ∨
          σ.(next_handle) ≤ s
            ≤ σ.(next_handle) + Z.of_nat RENDER_MAX_LAYER_RUNS_COUNT) ∧
    (∀ p, p ≠ rs.(compute_descriptor_pool) →
       σ'.(descriptor_pools) !! p = σ.(descriptor_pools) !! p) ∧
    σ'.(descriptors) = σ.(descriptors) ∧
    σ'.(command_buffers) = σ.(command_buffers) ∧
    σ'.(mapped_memory) = σ.(mapped_memory) ∧
    σ'.(descriptor_updates) = σ.(descriptor_updates).
Proof.
  intros Hr Hpool Hlen Hroom. unfold render_compute_init, assert_detached.
  rewrite Hr. cbn [mbind result_bind].
  destruct (init_layer_descriptor_sets_success rs RENDER_MAX_LAYER_RUNS_COUNT 0
              (set_r (Some rs) render) σ pool Hpool)
    as (render1 & σ1 & allocated & Hrun & Hr1 & Hshared & Hlen1 & Hnew & Hold &
        Hnext & Hpool1 & Hcount & Hmem & Hother & Hd & Hc & Hm & Hu);
    [simpl; lia|lia|].
  rewrite Hrun. cbn [mbind result_bind]. rewrite decide_True by done.
  rewrite (vk_create_descriptor_set_success _ _ _ _ _ Hpool1) by (simpl; lia).
  cbn [mbind result_bind]. rewrite decide_True by done.
  eexists _, _, (σ1.(next_handle) :: allocated). split; [reflexivity|]. simpl.
  split; [done|]. split; [done|]. split; [exact Hnew|].
  split; [intros j Hj; apply Hold; lia|]. split; [done|]. split; [lia|].
  split; [by rewrite lookup_insert_eq|]. split; [simpl; rewrite Hcount; lia|].
  split; [|split; [|done]].
  - intros s. rewrite elem_of_cons, Hmem, Hnext. split.
    + intros [->|[?|?]]; [right; lia|by left|right; lia].
    + intros [?|?]; [right; by left|].
      destruct (decide (s = σ.(next_handle) + Z.of_nat RENDER_MAX_LAYER_RUNS_COUNT))
        as [->|?]; [by left|right; right; lia].
  - intros p Hp. rewrite lookup_insert_ne by done. by apply Hother.
Qed.

Lemma render_compute_init_true_room render rs σ render' σ' pool :
  σ.(descriptor_pools) !! rs.(compute_descriptor_pool) = Some pool →
  render_compute_init render rs σ = Ok (true, render', σ') →
  (length pool.(allocated_sets) + RENDER_MAX_LAYER_RUNS_COUNT + 1
   ≤ pool.(max_sets))%nat.
Proof.
  intros Hpool Hinit. unfold render_compute_init in Hinit.
  invert_steps Hinit.
  case_decide as Hsucc; [|simplify_eq]. subst.
  destruct (init_layer_descriptor_sets_success_inv _ _ _ _ _ _ _ _ Hpool E0)
    as (allocated & Hpool1 & Hlen).
  invert_steps Hinit.
  destruct (vk_create_descriptor_set_Ok _ _ _ _ _ _ _ _ Hpool1 E1) as
    [(-> & Hcap & -> & Hpool')|(-> & Hfull & -> & ->)].
  - simpl in Hcap. lia.
  - rewrite decide_False in Hinit by done. simplify_eq.
Qed.

(** What [render_compute_fini] does on an attached context. *)
Lemma render_compute_fini_effect render rs σ pool :
  render.(r) = Some rs →
  σ.(descriptor_pools) !! rs.(compute_descriptor_pool) = Some pool →
  ∃ render' σ',
    render_compute_fini render σ = Ok (render', σ') ∧
    render'.(r) = None ∧
    render'.(shared_descriptor_set) = VK_NULL_HANDLE ∧
    render'.(layer_descriptor_sets)
    = replicate (length render.(layer_descriptor_sets)) VK_NULL_HANDLE ∧
    σ'.(descriptor_pools) !! rs.(compute_descriptor_pool)
    = Some {| max_sets := pool.(max_sets); allocated_sets := [] |} ∧
    (∀ p, p ≠ rs.(compute_descriptor_pool) →
       σ'.(descriptor_pools) !! p = σ.(descriptor_pools) !! p) ∧
    (∀ k : slot, k.1.1 ∈ pool.(allocated_sets) → σ'.(descriptors) !! k = None) ∧
    (∀ k : slot, k.1.1 ∉ pool.(allocated_sets) →
       σ'.(descriptors) !! k = σ.(descriptors) !! k) ∧
    σ'.(next_handle) = σ.(next_handle) ∧
    σ'.(command_buffers) = σ.(command_buffers) ∧
    σ'.(mapped_memory) = σ.(mapped_memory) ∧
    σ'.(descriptor_updates) = σ.(descriptor_updates).
Proof.
  intros Hr Hpool. unfold render_compute_fini, assert_attached.
  rewrite Hr. cbn [mbind result_bind].
  cbn [set_shared_descriptor_set layer_descriptor_sets].
  rewrite null_handles_loop. cbn [mbind result_bind].
  unfold vkResetDescriptorPool. rewrite Hpool. cbn [mbind result_bind].
  eexists _, _. split; [reflexivity|]. simpl.
  split; [done|]. split; [done|]. split; [done|].
  split; [by rewrite lookup_insert_eq|].
  split; [by intros p Hp; rewrite lookup_insert_ne|].
  split; [|split; [|done]].
  - intros k Hk. apply map_lookup_filter_None. right. intros d _ Hn. by apply Hn.
  - intros k Hk. destruct (σ.(descriptors) !! k) as [d|] eqn:Hd.
    + by apply map_lookup_filter_Some.
    + apply map_lookup_filter_None. by left.
Qed.

(** X9: on a detached context whose layer array holds at least
    [RENDER_MAX_LAYER_RUNS_COUNT] entries, [render_compute_init] returns, and
    it returns [true] exactly when the pool has room for
    [RENDER_MAX_LAYER_RUNS_COUNT + 1] more sets. It then has attached the
    context, stored the handles the pool handed out one after the other
    (the layer sets in index order, then the shared set), taken exactly
    these from the pool and left descriptors, command buffers and mapped
    memory alone. *)
Theorem render_compute_init_succeeds_iff_room render rs σ pool :
  render.(r) = None →
  σ.(descriptor_pools) !! rs.(compute_descriptor_pool) = Some pool →
  (RENDER_MAX_LAYER_RUNS_COUNT ≤ length render.(layer_descriptor_sets))%nat →
  ∃ ok render' σ',
    render_compute_init render rs σ = Ok (ok, render', σ') ∧
    (ok = true ↔
     (length pool.(allocated_sets) + RENDER_MAX_LAYER_RUNS_COUNT + 1
      ≤ pool.(max_sets))%nat) ∧
    (ok = true →
     render'.(r) = Some rs ∧
     (∀ k : nat, (k < RENDER_MAX_LAYER_RUNS_COUNT)%nat →
        render'.(layer_descriptor_sets) !! k
        = Some (σ.(next_handle) + Z.of_nat k)) ∧
     render'.(shared_descriptor_set)
     = σ.(next_handle) + Z.of_nat RENDER_MAX_LAYER_RUNS_COUNT ∧
     σ'.(next_handle)
     = σ.(next_handle) + Z.of_nat RENDER_MAX_LAYER_RUNS_COUNT + 1 ∧
     (∃ allocated,
        σ'.(descriptor_pools) !! rs.(compute_descriptor_pool)
        = Some {| max_sets := pool.(max_sets); allocated_sets := allocated |} ∧
        length allocated
        = (length pool.(allocated_sets) + RENDER_MAX_LAYER_RUNS_COUNT + 1)%nat ∧
        ∀ s, s ∈ allocated ↔
             s ∈ pool.(allocated_sets) ∨
             σ.(next_handle) ≤ s
               ≤ σ.(next_handle) + Z.of_nat RENDER_MAX_LAYER_RUNS_COUNT) ∧
     σ'.(descriptors) = σ.(descriptors) ∧
     σ'.(command_buffers) = σ.(command_buffers) ∧
     σ'.(mapped_memory) = σ.(mapped_memory)).
Proof.
  intros Hr Hpool Hlen.
  destruct (render_compute_init_returns render rs σ pool Hr Hpool Hlen)
    as (ok & render' & σ' & Hinit).
  exists ok, render', σ'. split; [done|].
  assert (ok = true →
          (length pool.(allocated_sets) + RENDER_MAX_LAYER_RUNS_COUNT + 1
           ≤ pool.(max_sets))%nat) as Hroom.
  { intros ->. by eapply render_compute_init_true_room. }
  split; [split; [done|]|].
  - intros Hcap.
    destruct (render_compute_init_room render rs σ pool Hr Hpool Hlen Hcap)
      as (render1 & σ1 & allocated & Hinit1 & _). congruence.
  - intros Hok. specialize (Hroom Hok).
    destruct (render_compute_init_room render rs σ pool Hr Hpool Hlen Hroom)
      as (render1 & σ1 & allocated & Hinit1 & Hr1 & _ & Hnew & _ & Hshared &
          Hnext & Hpool1 & Hcount & Hmem & _ & Hd & Hc & Hm & _).
    assert (render1 = render') as -> by congruence.
    assert (σ1 = σ') as -> by congruence.
    split; [done|]. split; [done|]. split; [done|]. split; [done|].
    split; [by exists allocated|done].
Qed.

(** X10: [render_compute_fini] on an attached context detaches it, nulls the
    shared handle and every entry of the layer array, and resets the whole
    pool: every set of the pool is returned, also those that were allocated
    from it before the context was attached, and the descriptors of all of
    these sets are gone, while the descriptors of other sets, other pools,
    the command buffers and mapped memory stay as they are. *)
Theorem render_compute_fini_resets_pool render rs σ pool :
  render.(r) = Some rs →
  σ.(descriptor_pools) !! rs.(compute_descriptor_pool) = Some pool →
  ∃ render' σ',
    render_compute_fini render σ = Ok (render', σ') ∧
    render'.(r) = None ∧
    render'.(shared_descriptor_set) = VK_NULL_HANDLE ∧
    (∀ i : nat, (i < length render.(layer_descriptor_sets))%nat →
       render'.(layer_descriptor_sets) !! i = Some VK_NULL_HANDLE) ∧
    length render'.(layer_descriptor_sets) = length render.(layer_descriptor_sets) ∧
    σ'.(descriptor_pools) !! rs.(compute_descriptor_pool)
    = Some {| max_sets := pool.(max_sets); allocated_sets := [] |} ∧
    (∀ p, p ≠ rs.(compute_descriptor_pool) →
       σ'.(descriptor_pools) !! p = σ.(descriptor_pools) !! p) ∧
    (∀ k : slot, k.1.1 ∈ pool.(allocated_sets) → σ'.(descriptors) !! k = None) ∧
    (∀ k : slot, k.1.1 ∉ pool.(allocated_sets) →
       σ'.(descriptors) !! k = σ.(descriptors) !! k) ∧
    σ'.(command_buffers) = σ.(command_buffers) ∧
    σ'.(mapped_memory) = σ.(mapped_memory).
Proof.
  intros Hr Hpool.
  destruct (render_compute_fini_effect render rs σ pool Hr Hpool)
    as (render' & σ' & Hfini & Hr' & Hshared & Hsets & Hpool' & Hother &
        Hgone & Hkept & _ & Hc & Hm & _).
  exists render', σ'. split; [done|]. split; [done|]. split; [done|].
  split; [|split; [|done]].
  - intros i Hi. rewrite Hsets. by apply lookup_replicate_2.
  - by rewrite Hsets, length_replicate.
Qed.

(** X11: init and fini undo each other as far as the pool and the context go:
    after a successful [render_compute_init] on a context whose handles are
    null and a pool with nothing allocated, [render_compute_fini] returns,
    leaves the context as it was before the init and the pool empty again,
    and a second [render_compute_init] on them succeeds. *)
Theorem init_fini_round_trip render rs σ pool :
  render.(r) = None →
  render.(shared_descriptor_set) = VK_NULL_HANDLE →
  render.(layer_descriptor_sets)
  = replicate (length render.(layer_descriptor_sets)) VK_NULL_HANDLE →
  σ.(descriptor_pools) !! rs.(compute_descriptor_pool) = Some pool →
  pool.(allocated_sets) = [] →
  (RENDER_MAX_LAYER_RUNS_COUNT ≤ length render.(layer_descriptor_sets))%nat →
  (RENDER_MAX_LAYER_RUNS_COUNT + 1 ≤ pool.(max_sets))%nat →
  ∃ render1 σ1 σ2 render3 σ3,
    render_compute_init render rs σ = Ok (true, render1, σ1) ∧
    render_compute_fini render1 σ1 = Ok (render, σ2) ∧
    σ2.(descriptor_pools) !! rs.(compute_descriptor_pool) = Some pool ∧
    σ2.(command_buffers) = σ.(command_buffers) ∧
    σ2.(mapped_memory) = σ.(mapped_memory) ∧
    render_compute_init render rs σ2 = Ok (true, render3, σ3) ∧
    render3.(r) = Some rs.
Proof.
  intros Hr Hshared Hsets Hpool Hempty Hlen Hroom.
  destruct (render_compute_init_room render rs σ pool Hr Hpool Hlen)
    as (render1 & σ1 & allocated & Hinit1 & Hr1 & Hlen1 & Hnew1 & _ & Hshared1 &
        Hnext1 & Hpool1 & _ & _ & _ & _ & Hc1 & Hm1 & _);
    [rewrite Hempty; simpl; lia|].
  destruct (render_compute_fini_effect render1 rs σ1 _ Hr1 Hpool1)
    as (render2 & σ2 & Hfini & Hr2 & Hshared2 & Hsets2 & Hpool2 & _ & _ & _ &
        Hnext2 & Hc2 & Hm2 & _).
  simpl in Hpool2.
  assert (render2 = render) as ->.
  { destruct render2, render. simpl in *. rewrite Hlen1 in Hsets2. congruence. }
  assert ({| max_sets := pool.(max_sets); allocated_sets := [] |} = pool) as Hp
    by (destruct pool; simpl in *; by subst).
  rewrite Hp in Hpool2.
  destruct (render_compute_init_room render rs σ2 pool Hr Hpool2 Hlen)
    as (render3 & σ3 & allocated3 & Hinit3 & Hr3 & _);
    [rewrite Hempty; simpl; lia|].
  exists render1, σ1, σ2, render3, σ3.
  split; [done|]. split; [done|]. split; [done|].
  split; [congruence|]. split; [congruence|]. by split.
Qed.


(** ** The target-only update *)

(** X12: [update_compute_descriptor_set_target] always returns; it makes one
    update call with two writes, leaves the uniform buffer at the uniform
    binding and, when the two bindings differ, the target image view as a
    storage image at the target binding; every other slot, so every source
    and distortion image bound before, is as it was; the view count it is
    given changes nothing. *)
Theorem target_update_keeps_sources target_binding target_image_view ubo_binding
    ubo_buffer ubo_size descriptor_set view_count σ :
  ∃ σ',
    update_compute_descriptor_set_target target_binding target_image_view
      ubo_binding ubo_buffer ubo_size descriptor_set view_count σ = Ok σ' ∧
    (∀ view_count',
       update_compute_descriptor_set_target target_binding target_image_view
         ubo_binding ubo_buffer ubo_size descriptor_set view_count' σ = Ok σ') ∧
    (∃ writes, σ'.(descriptor_updates) = σ.(descriptor_updates) ++ [writes] ∧
               length writes = 2%nat) ∧
    σ'.(descriptors) !! (descriptor_set, ubo_binding, 0)
    = Some (BufferDescriptor VK_DESCRIPTOR_TYPE_UNIFORM_BUFFER
              (ubo_info ubo_buffer ubo_size)) ∧
    (target_binding ≠ ubo_binding →
     σ'.(descriptors) !! (descriptor_set, target_binding, 0)
     = Some (ImageDescriptor VK_DESCRIPTOR_TYPE_STORAGE_IMAGE
               (target_info target_image_view))) ∧
    (∀ k : slot,
       k ≠ (descriptor_set, target_binding, 0) →
       k ≠ (descriptor_set, ubo_binding, 0) →
       σ'.(descriptors) !! k = σ.(descriptors) !! k) ∧
    σ'.(command_buffers) = σ.(command_buffers) ∧
    σ'.(mapped_memory) = σ.(mapped_memory).
Proof.
  eexists. split; [reflexivity|]. simpl.
  split; [done|]. split; [eexists; split; [reflexivity|done]|].
  split; [by rewrite lookup_insert_eq|].
  split; [|split; [|done]].
  - intros Hne. rewrite lookup_insert_ne by (intros ?; simplify_eq).
    by rewrite lookup_insert_eq.
  - intros k Hk1 Hk2. by rewrite !lookup_insert_ne.
Qed.

(** ** What a pass leaves of a uniform record *)

Lemma kept_from_refl {A} (n : nat) (l : list A) : kept_from n l l.
Proof. by split. Qed.

Lemma kept_from_step {A} (k : nat) (src dst : list A) (v : A) :
  kept_from k src dst → kept_from (S k) src (<[k := v]> dst).
Proof.
  intros [Hlen Hi]. split; [by rewrite length_insert|].
  intros i Hle. rewrite list_lookup_insert_ne by lia. apply Hi. lia.
Qed.

Lemma ubo_timewarp_loop_kept (views : list render_viewport_data)
    (pre : list xrt_normalized_rect)
    (time_warp_matrix : list (option xrt_matrix_4x4))
    (src_norm_rects : list xrt_normalized_rect) (n : nat)
    (data data' : render_compute_distortion_ubo_data) :
  for_range 0 n (λ i data,
      view ← array_get views i;
      data_views ← array_set data.(ubo.views) i view;
      pre_transform ← array_get pre i;
      data_pre_transforms ← array_set data.(ubo.pre_transforms) i pre_transform;
      transform ← uarray_get time_warp_matrix i;
      data_transforms ← array_set data.(ubo.transforms) i transform;
      post_transform ← array_get src_norm_rects i;
      data_post_transforms ← array_set data.(ubo.post_transforms) i post_transform;
      Ok {| ubo.views := data_views;
            ubo.pre_transforms := data_pre_transforms;
            ubo.transforms := data_transforms;
            ubo.post_transforms := data_post_transforms |}) data = Ok data' →
  kept_from n data.(ubo.views) data'.(ubo.views) ∧
  kept_from n data.(ubo.pre_transforms) data'.(ubo.pre_transforms) ∧
  kept_from n data.(ubo.transforms) data'.(ubo.transforms) ∧
  kept_from n data.(ubo.post_transforms) data'.(ubo.post_transforms).
Proof.
  apply (for_range_inv0 (λ k (d : render_compute_distortion_ubo_data),
    kept_from k data.(ubo.views) d.(ubo.views) ∧
    kept_from k data.(ubo.pre_transforms) d.(ubo.pre_transforms) ∧
    kept_from k data.(ubo.transforms) d.(ubo.transforms) ∧
    kept_from k data.(ubo.post_transforms) d.(ubo.post_transforms))).
  { repeat split. }
  intros k d d' Hk (Hv & Hp & Ht & Hr) Hbody. invert_steps Hbody.
  apply array_set_Ok in E0 as [? ->], E2 as [? ->], E4 as [? ->], E6 as [? ->].
  simplify_eq. simpl. repeat split; by apply kept_from_step.
Qed.

Lemma ubo_projection_loop_kept (views : list render_viewport_data)
    (src_norm_rects : list xrt_normalized_rect) (n : nat)
    (data data' : render_compute_distortion_ubo_data) :
  for_range 0 n (λ i data,
      view ← array_get views i;
      data_views ← array_set data.(ubo.views) i view;
      post_transform ← array_get src_norm_rects i;
      data_post_transforms ← array_set data.(ubo.post_transforms) i post_transform;
      Ok {| ubo.views := data_views;
            ubo.pre_transforms := data.(ubo.pre_transforms);
            ubo.transforms := data.(ubo.transforms);
            ubo.post_transforms := data_post_transforms |}) data = Ok data' →
  kept_from n data.(ubo.views) data'.(ubo.views) ∧
  kept_from n data.(ubo.post_transforms) data'.(ubo.post_transforms) ∧
  data'.(ubo.pre_transforms) = data.(ubo.pre_transforms) ∧
  data'.(ubo.transforms) = data.(ubo.transforms).
Proof.
  apply (for_range_inv0 (λ k (d : render_compute_distortion_ubo_data),
    kept_from k data.(ubo.views) d.(ubo.views) ∧
    kept_from k data.(ubo.post_transforms) d.(ubo.post_transforms) ∧
    d.(ubo.pre_transforms) = data.(ubo.pre_transforms) ∧
    d.(ubo.transforms) = data.(ubo.transforms))).
  { repeat split. }
  intros k d d' Hk (Hv & Hr & Hp & Ht) Hbody. invert_steps Hbody.
  apply array_set_Ok in E0 as [? ->], E2 as [? ->].
  simplify_eq. simpl. repeat split; try done; by apply kept_from_step.
Qed.

Lemma ubo_views_loop_kept (views : list render_viewport_data) (n : nat)
    (data data' : render_compute_distortion_ubo_data) :
  for_range 0 n (λ i data,
      view ← array_get views i;
      data_views ← array_set data.(ubo.views) i view;
      Ok {| ubo.views := data_views;
            ubo.pre_transforms := data.(ubo.pre_transforms);
            ubo.transforms := data.(ubo.transforms);
            ubo.post_transforms := data.(ubo.post_transforms) |}) data = Ok data' →
  kept_from n data.(ubo.views) data'.(ubo.views) ∧
  data'.(ubo.pre_transforms) = data.(ubo.pre_transforms) ∧
  data'.(ubo.transforms) = data.(ubo.transforms) ∧
  data'.(ubo.post_transforms) = data.(ubo.post_transforms).
Proof.
  apply (for_range_inv0 (λ k (d : render_compute_distortion_ubo_data),
    kept_from k data.(ubo.views) d.(ubo.views) ∧
    d.(ubo.pre_transforms) = data.(ubo.pre_transforms) ∧
    d.(ubo.transforms) = data.(ubo.transforms) ∧
    d.(ubo.post_transforms) = data.(ubo.post_transforms))).
  { repeat split. }
  intros k d d' Hk (Hv & Hp & Ht & Hr) Hbody. invert_steps Hbody.
  apply array_set_Ok in E0 as [? ->].
  simplify_eq. simpl. repeat split; try done; by apply kept_from_step.
Qed.

Lemma load_ubo_Ok mapped σ data :
  load_ubo mapped σ = Ok data → σ.(mapped_memory) !! mapped = Some data.
Proof.
  unfold load_ubo. by destruct (σ.(mapped_memory) !! mapped); intros; simplify_eq.
Qed.

(** X13: a pass that returns and has a uniform record of its own (every pass
    but the layers pass) found a record mapped and leaves one of the same
    shape: the four arrays keep their lengths and every entry from index
    [view_count] on. A projection stores to the viewports and the
    post-transforms only, and a clear to the viewports only: the identity
    transforms it builds are not stored anywhere. *)
Theorem pass_keeps_ubo_beyond_views render rs call mapped σ σ' :
  render.(r) = Some rs →
  pass_ubo_mapped rs call = Some mapped →
  run_pass render call σ = Ok σ' →
  ∃ data data',
    σ.(mapped_memory) !! mapped = Some data ∧
    σ'.(mapped_memory) !! mapped = Some data' ∧
    kept_from (Z.to_nat rs.(view_count)) data.(ubo.views) data'.(ubo.views) ∧
    kept_from (Z.to_nat rs.(view_count)) data.(ubo.pre_transforms)
      data'.(ubo.pre_transforms) ∧
    kept_from (Z.to_nat rs.(view_count)) data.(ubo.transforms)
      data'.(ubo.transforms) ∧
    kept_from (Z.to_nat rs.(view_count)) data.(ubo.post_transforms)
      data'.(ubo.post_transforms) ∧
    pass_fields_untouched call data data'.
Proof.
  intros Hr Hmapped Hrun. destruct call; simpl in Hmapped, Hrun; [done|..].
  - unfold render_compute_projection in Hrun.
    apply bind_Ok in Hrun as (rs' & Hrs%assert_attached_Ok & Hrun).
    assert (rs' = rs) as -> by congruence.
    apply bind_Ok in Hrun as (data & Hdata%load_ubo_Ok & Hrun).
    apply bind_Ok in Hrun as (data' & Hdata' & Hrun).
    apply bind_Ok in Hrun as (ds & _ & Hrun).
    apply bind_Ok in Hrun as (σu & Hσu & Hrun).
    apply update_compute_shared_descriptor_set_Ok in Hσu as (writes & d & _ & ->).
    apply bind_Ok in Hrun as ([gw gh] & _ & Hrun).
    apply bind_Ok in Hrun as (u & _ & Hrun). simplify_eq.
    unfold for_upto in Hdata'.
    destruct (ubo_projection_loop_kept _ _ _ _ _ Hdata') as (Hv & Hpost & Hpre & Ht).
    exists data, data'. split; [done|].
    split; [simpl; apply lookup_insert_eq|].
    split; [done|]. split; [rewrite Hpre; apply kept_from_refl|].
    split; [rewrite Ht; apply kept_from_refl|]. by split.
  - unfold render_compute_projection_timewarp in Hrun.
    apply bind_Ok in Hrun as (rs' & Hrs%assert_attached_Ok & Hrun).
    assert (rs' = rs) as -> by congruence.
    apply bind_Ok in Hrun as (tw & _ & Hrun).
    apply bind_Ok in Hrun as (data & Hdata%load_ubo_Ok & Hrun).
    apply bind_Ok in Hrun as (data' & Hdata' & Hrun).
    apply bind_Ok in Hrun as (ds & _ & Hrun).
    apply bind_Ok in Hrun as (σu & Hσu & Hrun).
    apply update_compute_shared_descriptor_set_Ok in Hσu as (writes & d & _ & ->).
    apply bind_Ok in Hrun as ([gw gh] & _ & Hrun).
    apply bind_Ok in Hrun as (u & _ & Hrun). simplify_eq.
    unfold for_upto in Hdata'.
    destruct (ubo_timewarp_loop_kept _ _ _ _ _ _ _ Hdata') as (Hv & Hpre & Ht & Hpost).
    exists data, data'. split; [done|].
    split; [simpl; apply lookup_insert_eq|done].
  - unfold render_compute_clear in Hrun.
    apply bind_Ok in Hrun as (rs' & Hrs%assert_attached_Ok & Hrun).
    assert (rs' = rs) as -> by congruence.
    apply bind_Ok in Hrun as (tr & _ & Hrun).
    apply bind_Ok in Hrun as (data & Hdata%load_ubo_Ok & Hrun).
    apply bind_Ok in Hrun as (data' & Hdata' & Hrun).
    apply bind_Ok in Hrun as ([[ss vs] ds] & _ & Hrun).
    apply bind_Ok in Hrun as (σu & Hσu & Hrun).
    apply update_compute_shared_descriptor_set_Ok in Hσu as (writes & d & _ & ->).
    apply bind_Ok in Hrun as ([gw gh] & _ & Hrun).
    apply bind_Ok in Hrun as (u & _ & Hrun). simplify_eq.
    unfold for_upto in Hdata'.
    destruct (ubo_views_loop_kept _ _ _ _ Hdata') as (Hv & Hpre & Ht & Hpost).
    exists data, data'. split; [done|].
    split; [simpl; apply lookup_insert_eq|].
    split; [done|]. split; [rewrite Hpre; apply kept_from_refl|].
    split; [rewrite Ht; apply kept_from_refl|].
    split; [rewrite Hpost; apply kept_from_refl|]. by split.
Qed.


(** ** One pass after another *)

(** X14: two passes run one after the other on different descriptor sets
    (two layer runs with their own sets, or a layer run and a projection)
    do not disturb each other: when the second returns, the set of the
    first still holds the images of the first, the set of the second holds
    the images of the second, and the command buffer holds the commands of
    the first followed by those of the second. *)
Theorem passes_on_distinct_sets_compose render rs call1 call2 σ σ1 σ2 :
  render.(r) = Some rs →
  bindings_distinct rs →
  pass_ready render call1 σ →
  run_pass render call1 σ = Ok σ1 →
  pass_ready render call2 σ1 →
  run_pass render call2 σ1 = Ok σ2 →
  pass_descriptor_set render call1 ≠ pass_descriptor_set render call2 →
  holds_pass_images render rs call1 σ2.(descriptors) ∧
  holds_pass_images render rs call2 σ2.(descriptors) ∧
  ∃ gw1 gh1 gw2 gh2,
    recorded rs.(cmd) σ2
    = recorded rs.(cmd) σ ++ pass_commands render rs call1 gw1 gh1
        ++ pass_commands render rs call2 gw2 gh2.
Proof.
  intros Hr Hdistinct Hready1 Hrun1 Hready2 Hrun2 Hsets.
  pose proof (pass_images_bound render rs call1 σ σ1 Hr Hready1 Hdistinct Hrun1)
    as (Hsrc1 & Hdst1 & Htgt1).
  pose proof (pass_images_bound render rs call2 σ1 σ2 Hr Hready2 Hdistinct Hrun2)
    as Himages2.
  apply run_pass_effect in Hrun1
    as (rs1 & sinfo1 & dinfo1 & gw1 & gh1 & Hrs1 & _ & _ & _ & _ & _ & _ & Hrec1 & _).
  apply run_pass_effect in Hrun2
    as (rs2 & sinfo2 & dinfo2 & gw2 & gh2 & Hrs2 & _ & _ & Hd2 & _ & _ & _ & Hrec2 & _).
  assert (rs1 = rs) as -> by congruence.
  assert (rs2 = rs) as -> by congruence.
  assert (∀ k : slot, k.1.1 = pass_descriptor_set render call1 →
            σ2.(descriptors) !! k = σ1.(descriptors) !! k) as Hkept.
  { intros k Hk. eapply apply_writes_other_set; [exact Hd2|apply pass_writes_set|].
    by rewrite Hk. }
  split; [|split; [done|]].
  - split; [|split].
    + intros i info Hi. rewrite Hkept by done. by apply Hsrc1.
    + intros j info Hj. rewrite Hkept by done. by apply Hdst1.
    + by rewrite Hkept.
  - exists gw1, gh1, gw2, gh2. by rewrite Hrec2, Hrec1, <-app_assoc.
Qed.

End Passes.

(** * The properties on the stereo configuration *)

Section Instances.
#[local] Existing Instance stereo_interface.

Lemma stereo_views_fit : views_fit 2.
Proof. repeat split; [done|simpl; lia|done]. Defined.

Lemma stereo_dispatchable : dispatchable stereo_views 2.
Proof. exists 240, 135. repeat split; done. Defined.

Lemma stereo_projection_ready :
  projection_ready attached [1; 2] [3; 4] [5; 6] stereo_views (stereo_world 4).
Proof.
  exists stereo_resources, stale_ubo.
  split; [reflexivity|]. split; [apply stereo_views_fit|].
  split; [apply lookup_insert_eq|].
  split; [repeat split; simpl; lia|].
  split; [simpl; lia|]. split; [simpl; lia|]. split; [simpl; lia|].
  split; [simpl; lia|]. apply stereo_dispatchable.
Defined.

(** C1, counterexample: the largest [uint32_t] extent is positive and gets
    zero work groups, which do not cover it. *)
Lemma dispatch_coverage_fails_at_uint32_max :
  0 < UINT32_MAX ∧ is_uint32 UINT32_MAX ∧
  uint_divide_and_round_up UINT32_MAX 8 = 0 ∧
  ¬ (UINT32_MAX ≤ uint_divide_and_round_up UINT32_MAX 8 * 8).
Proof.
  unfold is_uint32.
  rewrite (uint_divide_and_round_up_wrapped UINT32_MAX)
    by (unfold UINT32_MAX; lia).
  unfold UINT32_MAX. lia.
Qed.

Lemma dispatch_covers_extent_witness :
  1 ≤ 1920 ≤ 2 ^ 32 - 8 ∧
  1920 ≤ uint_divide_and_round_up 1920 8 * 8 ∧
  (uint_divide_and_round_up 1920 8 - 1) * 8 < 1920.
Proof.
  split; [lia|]. apply (proj1 dispatch_covers_extent 1920). lia.
Defined.

Lemma uint_divide_and_round_up_modular_witness :
  is_uint32 4294967290 ∧
  uint_divide_and_round_up 4294967290 8 = 0 ∧
  (4294967290 ≤ uint_divide_and_round_up 4294967290 8 * 8 ↔
   4294967290 ≤ 2 ^ 32 - 8).
Proof.
  assert (is_uint32 4294967290) as Hu by (unfold is_uint32, UINT32_MAX; lia).
  split; [exact Hu|].
  destruct (uint_divide_and_round_up_modular 4294967290 Hu) as (_ & Hwrap & Hiff).
  split; [|exact Hiff]. apply Hwrap. lia.
Defined.

Lemma calc_dispatch_dims_views_max_witness :
  calc_dispatch_dims_views [one_pixel; full_hd] 2
    = Ok (calc_dispatch_dims_1_view full_hd) ∧
  calc_dispatch_dims_views [full_hd; one_pixel] 2
    = calc_dispatch_dims_views [one_pixel; full_hd] 2.
Proof.
  destruct (calc_dispatch_dims_views_max [one_pixel; full_hd] 1920 1080 full_hd)
    as [Hmax Hperm].
  - discriminate.
  - repeat constructor; unfold is_uint32, UINT32_MAX; simpl; lia.
  - reflexivity.
  - reflexivity.
  - reflexivity.
  - reflexivity.
  - split; [exact Hmax|]. apply (Hperm [full_hd; one_pixel]).
    apply Permutation_swap.
Defined.

Lemma stereo_layers_ready : layers_ready attached [1; 2; 3] [4; 5; 6] 3 full_hd.
Proof.
  split; [by eexists|]. split; [lia|].
  split; [simpl; lia|]. split; [simpl; lia|]. split; [simpl; lia|].
  split; discriminate.
Defined.

(** C3, counterexample: the empty viewport is a valid input, its dispatch
    dimensions are zero, and the layers pass fails its assertion on it. *)
Lemma empty_viewport_dispatches_zero :
  viewport_valid empty_viewport ∧
  calc_dispatch_dims_1_view empty_viewport = (0, 0) ∧
  run_pass attached (stereo_layers empty_viewport) (stereo_world 4) = AssertFailed.
Proof.
  split; [repeat split; unfold is_uint32, UINT32_MAX; simpl; lia|].
  split; [reflexivity|]. vm_compute. reflexivity.
Qed.

Lemma stereo_layers_set_up view σ :
  pass_set_up attached (stereo_layers view) σ.
Proof.
  split; [by eexists|]. split; [lia|].
  split; [simpl; lia|]. split; simpl; lia.
Defined.

Lemma stereo_projection_set_up (views : list render_viewport_data) :
  (2 ≤ length views)%nat →
  pass_set_up attached (projection_of views) (stereo_world 4).
Proof.
  intros Hviews. exists stereo_resources, stale_ubo.
  split; [reflexivity|]. split; [apply stereo_views_fit|].
  split; [apply lookup_insert_eq|].
  split; [repeat split; simpl; lia|].
  split; [simpl; lia|]. split; [simpl; lia|]. split; [simpl; lia|].
  split; [simpl; lia|]. exact Hviews.
Defined.

Lemma stereo_clear_set_up (views : list render_viewport_data) :
  (2 ≤ length views)%nat →
  pass_set_up attached (clear_of views) (stereo_world 4).
Proof.
  intros Hviews. exists stereo_resources, stale_ubo.
  split; [reflexivity|]. split; [apply stereo_views_fit|].
  split; [reflexivity|].
  split; [simpl; lia|]. split; [simpl; lia|]. exact Hviews.
Defined.

Lemma full_hd_in_range :
  extent_in_range stereo_resources (stereo_layers full_hd).
Proof. split; unfold in_dispatch_range; simpl; lia. Defined.

Lemma stereo_views_in_range :
  extent_in_range stereo_resources (projection_of stereo_views).
Proof. split; unfold in_dispatch_range; simpl; lia. Defined.

Lemma dispatch_nonzero_iff_extent_in_range_witness :
  (∃ σ', run_pass attached (stereo_layers full_hd) (stereo_world 4) = Ok σ') ∧
  (∃ σ', run_pass attached (projection_of [empty_viewport; full_hd])
           (stereo_world 4) = Ok σ') ∧
  run_pass attached (projection_of [too_wide; full_hd]) (stereo_world 4)
  = AssertFailed ∧
  run_pass attached (clear_of [empty_viewport; empty_viewport]) (stereo_world 4)
  = AssertFailed.
Proof.
  split; [|split; [|split]].
  - destruct (dispatch_nonzero_iff_extent_in_range attached stereo_resources
                (stereo_layers full_hd) (stereo_world 4))
      as (gw & gh & _ & _ & Hin & _).
    + reflexivity.
    + apply stereo_layers_set_up.
    + repeat constructor; unfold is_uint32, UINT32_MAX; simpl; lia.
    + apply Hin, full_hd_in_range.
  - destruct (dispatch_nonzero_iff_extent_in_range attached stereo_resources
                (projection_of [empty_viewport; full_hd]) (stereo_world 4))
      as (gw & gh & _ & _ & Hin & _).
    + reflexivity.
    + apply stereo_projection_set_up. simpl. lia.
    + repeat constructor; unfold is_uint32, UINT32_MAX; simpl; lia.
    + apply Hin. split; unfold in_dispatch_range; simpl; lia.
  - destruct (dispatch_nonzero_iff_extent_in_range attached stereo_resources
                (projection_of [too_wide; full_hd]) (stereo_world 4))
      as (gw & gh & _ & _ & _ & Hout).
    + reflexivity.
    + apply stereo_projection_set_up. simpl. lia.
    + repeat constructor; unfold is_uint32, UINT32_MAX; simpl; lia.
    + apply Hout. intros [[_ Hw] _]. simpl in Hw. lia.
  - destruct (dispatch_nonzero_iff_extent_in_range attached stereo_resources
                (clear_of [empty_viewport; empty_viewport]) (stereo_world 4))
      as (gw & gh & _ & _ & _ & Hout).
    + reflexivity.
    + apply stereo_clear_set_up. simpl. lia.
    + repeat constructor; unfold is_uint32, UINT32_MAX; simpl; lia.
    + apply Hout. intros [[Hw _] _]. simpl in Hw. lia.
Defined.

(** C4, counterexample: a layers call returns having recorded a pipeline
    bind, a descriptor-set bind and a dispatch, and no barrier at all. *)
Lemma layers_pass_records_no_barrier :
  ∃ σ',
    run_pass attached (stereo_layers full_hd) (stereo_world 4) = Ok σ' ∧
    recorded 10 σ' = [
      CmdBindPipeline VK_PIPELINE_BIND_POINT_COMPUTE 73;
      CmdBindDescriptorSets VK_PIPELINE_BIND_POINT_COMPUTE 71 0 [100] [];
      CmdDispatch 240 135 1] ∧
    Forall (λ c, is_barrier c = false) (recorded 10 σ').
Proof.
  destruct (run_pass_returns attached (stereo_layers full_hd) (stereo_world 4)
              stereo_layers_ready) as [σ' Hσ'].
  exists σ'. split; [exact Hσ'|].
  apply render_compute_layers_recorded in Hσ'
    as (rs & gw & gh & Hrs & Hdims & _ & _ & Hrec).
  simpl in Hrs. injection Hrs as <-. injection Hdims as <- <-.
  simpl in Hrec. change (recorded 10 (stereo_world 4)) with (@nil vk_command) in Hrec.
  rewrite Hrec. split; [reflexivity|]. by repeat constructor.
Qed.

Lemma pass_barrier_order_witness :
  (∃ σ' cs,
     run_pass attached stereo_projection (stereo_world 4) = Ok σ' ∧
     recorded 10 σ' = recorded 10 (stereo_world 4) ++ cs ∧
     barriers_around_dispatch 200 cs) ∧
  (∃ σ' gw gh,
     run_pass attached (stereo_layers full_hd) (stereo_world 4) = Ok σ' ∧
     recorded 10 σ'
     = recorded 10 (stereo_world 4) ++ [
         CmdBindPipeline VK_PIPELINE_BIND_POINT_COMPUTE 73;
         CmdBindDescriptorSets VK_PIPELINE_BIND_POINT_COMPUTE 71 0 [100] [];
         CmdDispatch gw gh 1]).
Proof.
  split.
  - destruct (pass_barrier_order attached stereo_projection (stereo_world 4))
      as [Hret Hrec].
    destruct (Hret stereo_resources eq_refl
                (stereo_projection_set_up stereo_views (le_n 2))
                stereo_views_in_range) as [σ' Hσ'].
    destruct (Hrec σ' Hσ') as (rs & cs & Hrs & Hcs & Hord).
    exists σ', cs. simpl in Hrs. injection Hrs as <-. done.
  - destruct (pass_barrier_order attached (stereo_layers full_hd) (stereo_world 4))
      as [Hret Hrec].
    destruct (Hret stereo_resources eq_refl (stereo_layers_set_up _ _)
                full_hd_in_range) as [σ' Hσ'].
    destruct (Hrec σ' Hσ') as (rs & cs & Hrs & Hcs & (gw & gh & ->) & _).
    exists σ', gw, gh. simpl in Hrs. injection Hrs as <-. done.
Defined.



Lemma stereo_init_fails :
  ∃ render' σ',
    render_compute_init detached stereo_resources (stereo_world 2)
    = Ok (false, render', σ') ∧
    render'.(r) = Some stereo_resources ∧
    render'.(layer_descriptor_sets) = [100; 101; 0] ∧
    σ'.(descriptor_pools) !! 60
    = Some {| max_sets := 2; allocated_sets := [101; 100] |}.
Proof.
  assert (match render_compute_init detached stereo_resources (stereo_world 2) with
          | Ok (ok, render', σ') =>
              ok = false ∧
              render'.(r) = Some stereo_resources ∧
              render'.(layer_descriptor_sets) = [100; 101; 0] ∧
              σ'.(descriptor_pools) !! 60
              = Some {| max_sets := 2; allocated_sets := [101; 100] |}
          | _ => False
          end) as Hrun by (vm_compute; repeat split; reflexivity).
  destruct (render_compute_init detached stereo_resources (stereo_world 2))
    as [[[ok render'] σ']| |]; [|done..].
  destruct Hrun as (-> & Hrun). by exists render', σ'.
Defined.

(** C5, counterexample: with room for two sets in the pool the third
    allocation fails; [render_compute_init] returns [false], the
    back-reference is set and the two sets remain allocated and stored. *)
Lemma failed_init_keeps_partial_state :
  ∃ render' σ',
    render_compute_init detached stereo_resources (stereo_world 2)
    = Ok (false, render', σ') ∧
    render'.(r) = Some stereo_resources ∧
    render'.(layer_descriptor_sets) = [100; 101; 0] ∧
    σ'.(descriptor_pools) !! 60
    = Some {| max_sets := 2; allocated_sets := [101; 100] |}.
Proof. exact stereo_init_fails. Qed.

Lemma render_compute_init_failure_witness :
  ∃ render' σ' render'' σ'',
    render_compute_init detached stereo_resources (stereo_world 2)
    = Ok (false, render', σ') ∧
    render'.(r) = Some stereo_resources ∧
    render_compute_fini render' σ' = Ok (render'', σ'') ∧
    render''.(r) = None ∧
    σ''.(descriptor_pools) !! 60 = Some {| max_sets := 2; allocated_sets := [] |}.
Proof.
  destruct stereo_init_fails as (render' & σ' & Hinit & _).
  destruct (render_compute_init_failure detached stereo_resources
              (stereo_world 2) render' σ'
              {| max_sets := 2; allocated_sets := [] |})
    as (Hr & _ & render'' & σ'' & Hfini & Hr'' & Hpool); [done|exact Hinit|].
  exists render', σ', render'', σ''. done.
Defined.

(** C7, counterexample: a projection call on a record whose transforms hold
    the value 7 returns with the transforms (and pre-transforms) still 7;
    the identity of this configuration is 1. *)
Lemma projection_keeps_stale_transforms :
  ∃ σ' data',
    run_pass attached stereo_projection (stereo_world 4) = Ok σ' ∧
    σ'.(mapped_memory) !! 85 = Some data' ∧
    data'.(ubo.transforms) = [7; 7] ∧
    data'.(ubo.pre_transforms) = [7; 7] ∧
    math_matrix_4x4_identity = 1.
Proof.
  assert (match run_pass attached stereo_projection (stereo_world 4) with
          | Ok σ' =>
              match σ'.(mapped_memory) !! 85 with
              | Some data' =>
                  data'.(ubo.transforms) = [7; 7] ∧
                  data'.(ubo.pre_transforms) = [7; 7]
              | None => False
              end
          | _ => False
          end) as Hrun by (vm_compute; split; reflexivity).
  destruct (run_pass attached stereo_projection (stereo_world 4))
    as [σ'| |]; [|done..].
  destruct (σ'.(mapped_memory) !! 85) as [data'|] eqn:Hdata; [|done].
  destruct Hrun as [Ht Hp]. by exists σ', data'.
Qed.

Lemma stereo_projection_timewarp_ready :
  projection_timewarp_ready attached [1; 2] [3; 4] [5; 6] [1; 2] [3; 4] [5; 6]
    stereo_views (stereo_world 4).
Proof.
  split; [apply stereo_projection_ready|].
  exists stereo_resources. split; [reflexivity|].
  repeat split; simpl; lia.
Defined.

Lemma distortion_ubo_written_witness :
  ∃ σ' data',
    render_compute_projection_timewarp attached [1; 2] [3; 4] [5; 6]
      [1; 2] [3; 4] [5; 6] 200 201 stereo_views (stereo_world 4) = Ok σ' ∧
    σ'.(mapped_memory) !! 85 = Some data' ∧
    first_written 2 stereo_views data'.(ubo.views) ∧
    time_warp_written 2 [1; 2] [3; 4] [5; 6] data'.(ubo.transforms).
Proof.
  destruct (render_compute_projection_timewarp_returns attached [1; 2] [3; 4]
              [5; 6] [1; 2] [3; 4] [5; 6] 200 201 stereo_views (stereo_world 4)
              stereo_projection_timewarp_ready) as [σ' Hrun].
  destruct (distortion_ubo_written attached [1; 2] [3; 4] [5; 6]
              [1; 2] [3; 4] [5; 6] 200 201 stereo_views (stereo_world 4))
    as (Htw & _ & _).
  destruct (Htw σ' Hrun) as (rs & data' & Hrs & Hmap & Hv & _ & Ht & _).
  simpl in Hrs. injection Hrs as <-.
  exists σ', data'. done.
Defined.

Lemma projection_bindings_independent_of_history_witness :
  ∃ σc σ1' σ2',
    render_compute_clear attached 200 201 stereo_views (stereo_world 4) = Ok σc ∧
    run_pass attached stereo_projection (stereo_world 4) = Ok σ1' ∧
    run_pass attached stereo_projection σc = Ok σ2' ∧
    is_Some (σ1'.(descriptors) !! (103, 1, 0)) ∧
    σ1'.(descriptors) !! (103, 1, 0) = σ2'.(descriptors) !! (103, 1, 0).
Proof.
  assert (match render_compute_clear attached 200 201 stereo_views
                  (stereo_world 4) with
          | Ok σc =>
              match run_pass attached stereo_projection σc with
              | Ok _ => True
              | _ => False
              end
          | _ => False
          end) as Hrun by (vm_compute; exact I).
  destruct (render_compute_clear attached 200 201 stereo_views (stereo_world 4))
    as [σc| |] eqn:Hc; [|done..].
  destruct (run_pass attached stereo_projection σc) as [σ2'| |] eqn:H2; [|done..].
  destruct (run_pass_returns attached stereo_projection (stereo_world 4)
              stereo_projection_ready) as [σ1' H1].
  exists σc, σ1', σ2'.
  split; [reflexivity|]. split; [exact H1|]. split; [exact H2|].
  apply (projection_bindings_independent_of_history attached stereo_resources
           [1; 2] [3; 4] [5; 6] 200 201 stereo_views (stereo_world 4) σc).
  - reflexivity.
  - unfold is_uint32, UINT32_MAX. simpl. lia.
  - exact H1.
  - exact H2.
  - unfold shared_shape_slots. simpl. rewrite !elem_of_cons. tauto.
Defined.

Lemma layer_descriptor_update_exact_witness :
  ∃ σ',
    update_compute_layer_descriptor_set 0 (Some <$> [1; 2; 3])
      (Some <$> [4; 5; 6]) 3 2 201 3 300 VK_WHOLE_SIZE 100 (stereo_world 4)
    = Ok σ' ∧
    length σ'.(descriptor_updates) = 1%nat ∧
    σ'.(descriptors) !! (100, 0, 2)
    = Some (ImageDescriptor VK_DESCRIPTOR_TYPE_COMBINED_IMAGE_SAMPLER
              (image_info 3 6)) ∧
    σ'.(descriptors) !! (100, 0, 3) = None.
Proof.
  destruct (layer_descriptor_update_exact 0 [1; 2; 3] [4; 5; 6] 3 2 201 3 300
              VK_WHOLE_SIZE 100 (stereo_world 4))
    as (σ' & info & Hrun & Hcalls & Hsrc & _ & _ & _ & Hother);
    [lia|simpl; lia|simpl; lia|simpl; lia|done|done|done|].
  exists σ'. split; [exact Hrun|]. split; [by rewrite Hcalls|]. split.
  - apply (Hsrc 2%nat 3 6); [simpl; lia|done|done].
  - rewrite Hother; [done|]. unfold layer_shape_slots. simpl.
    rewrite !not_elem_of_cons. repeat split; try discriminate.
    apply not_elem_of_nil.
Defined.

Lemma stereo_bindings_distinct : bindings_distinct stereo_resources.
Proof. repeat split; discriminate. Defined.

Lemma stereo_clear_ready : clear_ready attached stereo_views (stereo_world 4).
Proof.
  exists stereo_resources, stale_ubo.
  split; [reflexivity|]. split; [apply stereo_views_fit|].
  split; [reflexivity|].
  split; [simpl; lia|]. split; [simpl; lia|]. apply stereo_dispatchable.
Defined.

Lemma second_layers_ready σ : pass_ready attached second_layers σ.
Proof.
  split; [by eexists|]. split; [lia|].
  split; [simpl; lia|]. split; [simpl; lia|]. split; [simpl; lia|].
  split; discriminate.
Defined.

Lemma calc_dispatch_dims_views_reads_prefix_witness :
  calc_dispatch_dims_views ([full_hd] ++ [one_pixel]) 1
  = calc_dispatch_dims_views [full_hd; empty_viewport] 1 ∧
  calc_dispatch_dims_views [full_hd] 2 = Undefined.
Proof.
  split.
  - destruct (calc_dispatch_dims_views_reads_prefix [full_hd; empty_viewport] 1)
      as [Hin _].
    apply (Hin ltac:(simpl; lia) [one_pixel]).
  - apply (calc_dispatch_dims_views_reads_prefix [full_hd] 2). simpl. lia.
Defined.

Lemma dispatch_covers_active_views_witness :
  (∀ (i : nat) v, (i < 2)%nat → stereo_views !! i = Some v →
     v.(w) ≤ 240 * 8 ∧ v.(h) ≤ 135 * 8) ∧
  (∃ (i j : nat) vi vj,
     (i < 2)%nat ∧ stereo_views !! i = Some vi ∧
     (j < 2)%nat ∧ stereo_views !! j = Some vj ∧
     (240 - 1) * 8 < vi.(w) ∧ (135 - 1) * 8 < vj.(h)).
Proof.
  apply (dispatch_covers_active_views stereo_views 2 240 135).
  - repeat constructor; unfold is_uint32, UINT32_MAX; simpl; lia.
  - reflexivity.
  - discriminate.
  - discriminate.
Defined.

Lemma pass_overflows_local_arrays_witness :
  run_pass attached oversized_layers (stereo_world 4) = Undefined ∧
  run_pass attached_three_views three_view_projection (stereo_world 4)
  = Undefined.
Proof.
  split.
  - apply (pass_overflows_local_arrays attached stereo_resources).
    + reflexivity.
    + simpl. lia.
    + unfold UINT32_MAX. simpl. lia.
  - apply (pass_overflows_local_arrays attached_three_views three_view_resources).
    + reflexivity.
    + simpl. lia.
    + unfold UINT32_MAX. simpl. lia.
Defined.

Lemma no_views_no_dispatch_witness :
  run_pass attached_no_view stereo_projection (stereo_world 4) = AssertFailed.
Proof.
  apply (no_views_no_dispatch attached_no_view no_view_resources).
  - reflexivity.
  - reflexivity.
  - by eexists.
  - intros mapped [= <-]. eexists. apply lookup_insert_eq.
Defined.

Lemma attachment_is_asserted_witness :
  run_pass detached stereo_projection (stereo_world 4) = AssertFailed ∧
  render_compute_fini detached (stereo_world 4) = AssertFailed ∧
  render_compute_init attached stereo_resources (stereo_world 4) = AssertFailed.
Proof.
  destruct (attachment_is_asserted detached stereo_resources stereo_projection
              (stereo_world 4)) as [Hnone _].
  destruct (attachment_is_asserted attached stereo_resources stereo_projection
              (stereo_world 4)) as [_ Hsome].
  destruct (Hnone eq_refl) as [Hpass Hfini].
  split; [exact Hpass|]. split; [exact Hfini|]. apply Hsome. by eexists.
Defined.

Lemma pass_leaves_the_rest_alone_witness :
  ∃ σ',
    run_pass attached stereo_projection (stereo_world 4) = Ok σ' ∧
    σ'.(descriptor_pools) = (stereo_world 4).(descriptor_pools) ∧
    σ'.(mapped_memory) !! 92 = Some stale_ubo ∧
    σ'.(descriptors) !! (100, 0, 0) = None.
Proof.
  destruct (run_pass_returns attached stereo_projection (stereo_world 4)
              stereo_projection_ready) as [σ' Hrun].
  destruct (pass_leaves_the_rest_alone attached stereo_projection
              (stereo_world 4) σ' Hrun)
    as (rs & Hrs & Hpools & _ & Hmapped & Hsets).
  simpl in Hrs. injection Hrs as <-.
  exists σ'. split; [exact Hrun|]. split; [exact Hpools|]. split.
  - rewrite Hmapped by discriminate. reflexivity.
  - rewrite Hsets by discriminate. reflexivity.
Defined.

Lemma pass_binds_what_it_updated_witness :
  ∃ σ' writes,
    run_pass attached stereo_projection (stereo_world 4) = Ok σ' ∧
    σ'.(descriptor_updates) = [writes] ∧
    Forall (λ write, write.(dstSet) = 103) writes ∧
    σ'.(descriptors) !! (103, 3, 0)
    = Some (BufferDescriptor VK_DESCRIPTOR_TYPE_UNIFORM_BUFFER
              (ubo_info 84 VK_WHOLE_SIZE)).
Proof.
  destruct (run_pass_returns attached stereo_projection (stereo_world 4)
              stereo_projection_ready) as [σ' Hrun].
  destruct (pass_binds_what_it_updated attached stereo_projection
              (stereo_world 4) σ' Hrun)
    as (rs & writes & before & gw & gh & after & Hrs & Hupd & Hset & _ & Hubo).
  simpl in Hrs. injection Hrs as <-.
  exists σ', writes. split; [exact Hrun|]. split; [exact Hupd|].
  split; [exact Hset|exact Hubo].
Defined.

Lemma pass_binds_its_images_witness :
  ∃ σ',
    run_pass attached stereo_projection (stereo_world 4) = Ok σ' ∧
    σ'.(descriptors) !! (103, 0, 1)
    = Some (ImageDescriptor VK_DESCRIPTOR_TYPE_COMBINED_IMAGE_SAMPLER
              (image_info 2 4)) ∧
    σ'.(descriptors) !! (103, 1, 5)
    = Some (ImageDescriptor VK_DESCRIPTOR_TYPE_COMBINED_IMAGE_SAMPLER
              (image_info 20 45)) ∧
    σ'.(descriptors) !! (103, 2, 0)
    = Some (ImageDescriptor VK_DESCRIPTOR_TYPE_STORAGE_IMAGE (target_info 201)).
Proof.
  destruct (pass_binds_its_images attached stereo_resources stereo_projection
              (stereo_world 4) eq_refl stereo_projection_ready
              stereo_bindings_distinct)
    as (σ' & Hrun & Hsrc & Hdst & Htgt).
  exists σ'. split; [exact Hrun|]. split; [|split; [|exact Htgt]].
  - apply (Hsrc 1%nat). reflexivity.
  - apply (Hdst 5%nat). reflexivity.
Defined.

Lemma render_compute_init_succeeds_iff_room_witness :
  ∃ render' σ',
    render_compute_init detached stereo_resources (stereo_world 4)
    = Ok (true, render', σ') ∧
    render'.(layer_descriptor_sets) !! 2%nat = Some 102 ∧
    render'.(shared_descriptor_set) = 103 ∧
    σ'.(next_handle) = 104.
Proof.
  destruct (render_compute_init_succeeds_iff_room detached stereo_resources
              (stereo_world 4) {| max_sets := 4; allocated_sets := [] |})
    as (ok & render' & σ' & Hinit & Hiff & Hthen);
    [reflexivity|reflexivity|simpl; lia|].
  assert (ok = true) as -> by (apply Hiff; simpl; lia).
  destruct (Hthen eq_refl) as (_ & Hsets & Hshared & Hnext & _).
  exists render', σ'. split; [exact Hinit|]. split; [|split].
  - apply (Hsets 2%nat). simpl. lia.
  - exact Hshared.
  - exact Hnext.
Defined.

Lemma render_compute_fini_resets_pool_witness :
  ∃ render' σ',
    render_compute_fini attached (stereo_world 4) = Ok (render', σ') ∧
    render'.(r) = None ∧
    render'.(layer_descriptor_sets) !! 1%nat = Some VK_NULL_HANDLE ∧
    σ'.(descriptor_pools) !! 60 = Some {| max_sets := 4; allocated_sets := [] |}.
Proof.
  destruct (render_compute_fini_resets_pool attached stereo_resources
              (stereo_world 4) {| max_sets := 4; allocated_sets := [] |})
    as (render' & σ' & Hfini & Hr & _ & Hsets & _ & Hpool & _);
    [reflexivity|reflexivity|].
  exists render', σ'. split; [exact Hfini|]. split; [exact Hr|].
  split; [|exact Hpool]. apply Hsets. simpl. lia.
Defined.

Lemma init_fini_round_trip_witness :
  ∃ render1 σ1 σ2 render3 σ3,
    render_compute_init detached stereo_resources (stereo_world 4)
    = Ok (true, render1, σ1) ∧
    render_compute_fini render1 σ1 = Ok (detached, σ2) ∧
    render_compute_init detached stereo_resources σ2 = Ok (true, render3, σ3) ∧
    render3.(r) = Some stereo_resources.
Proof.
  destruct (init_fini_round_trip detached stereo_resources (stereo_world 4)
              {| max_sets := 4; allocated_sets := [] |})
    as (render1 & σ1 & σ2 & render3 & σ3 & Hinit & Hfini & _ & _ & _ & Hagain &
        Hattached);
    [reflexivity|reflexivity|reflexivity|reflexivity|reflexivity
    |simpl; lia|simpl; lia|].
  exists render1, σ1, σ2, render3, σ3. done.
Defined.

Lemma target_update_keeps_sources_witness :
  ∃ σ',
    update_compute_descriptor_set_target 2 201 3 300 VK_WHOLE_SIZE 100 2
      (stereo_world 4) = Ok σ' ∧
    σ'.(descriptors) !! (100, 2, 0)
    = Some (ImageDescriptor VK_DESCRIPTOR_TYPE_STORAGE_IMAGE (target_info 201)) ∧
    σ'.(descriptors) !! (100, 0, 0) = None.
Proof.
  destruct (target_update_keeps_sources 2 201 3 300 VK_WHOLE_SIZE 100 2
              (stereo_world 4))
    as (σ' & Hrun & _ & _ & _ & Htgt & Hother & _).
  exists σ'. split; [exact Hrun|]. split; [by apply Htgt|].
  rewrite Hother by discriminate. reflexivity.
Defined.

Lemma pass_keeps_ubo_beyond_views_witness :
  ∃ σ' data',
    run_pass attached stereo_clear (stereo_world 4) = Ok σ' ∧
    σ'.(mapped_memory) !! 92 = Some data' ∧
    length data'.(ubo.views) = 2%nat ∧
    data'.(ubo.transforms) = [7; 7] ∧
    data'.(ubo.post_transforms) = [7; 7].
Proof.
  destruct (run_pass_returns attached stereo_clear (stereo_world 4)
              stereo_clear_ready) as [σ' Hrun].
  destruct (pass_keeps_ubo_beyond_views attached stereo_resources stereo_clear 92
              (stereo_world 4) σ' eq_refl eq_refl Hrun)
    as (data & data' & Hdata & Hdata' & [Hlen _] & _ & _ & _ & _ & Ht & Hpost).
  assert (Some data = Some stale_ubo) as [= ->] by (rewrite <-Hdata; reflexivity).
  exists σ', data'. split; [exact Hrun|]. split; [exact Hdata'|].
  split; [exact Hlen|]. split; [exact Ht|exact Hpost].
Defined.

Lemma passes_on_distinct_sets_compose_witness :
  ∃ σ1 σ2,
    run_pass attached (stereo_layers full_hd) (stereo_world 4) = Ok σ1 ∧
    run_pass attached second_layers σ1 = Ok σ2 ∧
    σ2.(descriptors) !! (100, 0, 2)
    = Some (ImageDescriptor VK_DESCRIPTOR_TYPE_COMBINED_IMAGE_SAMPLER
              (image_info 3 6)) ∧
    σ2.(descriptors) !! (101, 0, 1)
    = Some (ImageDescriptor VK_DESCRIPTOR_TYPE_COMBINED_IMAGE_SAMPLER
              (image_info 8 10)).
Proof.
  destruct (run_pass_returns attached (stereo_layers full_hd) (stereo_world 4)
              stereo_layers_ready) as [σ1 Hrun1].
  destruct (run_pass_returns attached second_layers σ1 (second_layers_ready σ1))
    as [σ2 Hrun2].
  destruct (passes_on_distinct_sets_compose attached stereo_resources
              (stereo_layers full_hd) second_layers (stereo_world 4) σ1 σ2
              eq_refl stereo_bindings_distinct stereo_layers_ready Hrun1
              (second_layers_ready σ1) Hrun2)
    as ((Hsrc1 & _) & (Hsrc2 & _) & _); [discriminate|].
  exists σ1, σ2. split; [exact Hrun1|]. split; [exact Hrun2|]. split.
  - apply (Hsrc1 2%nat). reflexivity.
  - apply (Hsrc2 1%nat). reflexivity.
Defined.

End Instances.
